(** * FarmRPG Chat Enhancer: a shallow embedding of the dispatch pipeline

    The development follows [farmrpg-chat-enhancer.user.js]: the string
    helpers, the message fingerprint, the bounded history sets, the five
    feature handlers, the dispatcher and the feature controls.

    Modelling conventions.
    - A JavaScript string is a [string] whose characters are read as code
      units below 256 (Latin-1).  [toLowerCase] and [trim] are exact on
      that range.  The three decorative constants of the script that lie
      outside it (pin icon, bell, divider caption) are carried as the bytes
      the source file holds; no function of the model inspects them.
    - The DOM is a store of nodes addressed by reference, so that a handler
      sees what an earlier handler did to the same element.
    - A handler is a computation over the world that either returns or
      throws, keeping the effects made before the throw.
    - What the page environment decides is an argument of the function
      that depends on it: the answer of [prompt], and the way the search
      for the chat container ends.  [console.log] calls are left out. *)

From stdpp Require Import base option list strings gmap pretty.
From Stdlib Require Import Ascii Arith Lia.

Open Scope string_scope.
Open Scope nat_scope.
Set Warnings "-register-all".

(* ===================================================================== *)
(** * JavaScript strings *)
(* ===================================================================== *)

Module JsString.

Definition code (c : ascii) : nat := nat_of_ascii c.

(** WhiteSpace and LineTerminator code units below 256: TAB, LF, VT, FF,
    CR, SP and NBSP. *)
Definition is_space (c : ascii) : bool :=
  let n := code c in
  (((9 <=? n) && (n <=? 13)) || (n =? 32) || (n =? 160))%nat.

(** [String.prototype.toLowerCase] on one code unit: A-Z, and the Latin-1
    capitals U+00C0..U+00DE except the multiplication sign U+00D7. *)
Definition lower_char (c : ascii) : ascii :=
  let n := code c in
  if (((65 <=? n) && (n <=? 90))
      || ((192 <=? n) && (n <=? 222) && negb (n =? 215)))%nat
  then ascii_of_nat (n + 32) else c.

Fixpoint map_chars (f : ascii → ascii) (s : string) : string :=
  match s with
  | EmptyString => EmptyString
  | String c r => String (f c) (map_chars f r)
  end.

Definition toLowerCase (s : string) : string := map_chars lower_char s.

(** [s.replace(/\+/g, " ")] *)
Definition replace_plus (s : string) : string :=
  map_chars (λ c, if Ascii.eqb c "+" then " "%char else c) s.

Definition is_empty (s : string) : bool :=
  match s with EmptyString => true | _ => false end.

Fixpoint trimStart (s : string) : string :=
  match s with
  | EmptyString => EmptyString
  | String c r => if is_space c then trimStart r else s
  end.

Fixpoint trimEnd (s : string) : string :=
  match s with
  | EmptyString => EmptyString
  | String c r =>
      let r' := trimEnd r in
      if is_space c && is_empty r' then EmptyString else String c r'
  end.

Definition trim (s : string) : string := trimEnd (trimStart s).

Fixpoint startsWith (p s : string) : bool :=
  match p, s with
  | EmptyString, _ => true
  | String a p', String b s' => Ascii.eqb a b && startsWith p' s'
  | String _ _, EmptyString => false
  end.

(** [s.endsWith(c)] for a one-character argument. *)
Fixpoint endsWithChar (c : ascii) (s : string) : bool :=
  match s with
  | EmptyString => false
  | String a EmptyString => Ascii.eqb a c
  | String _ r => endsWithChar c r
  end.

(** [s.slice(1)] *)
Definition slice_from_1 (s : string) : string :=
  match s with EmptyString => EmptyString | String _ r => r end.

(** [s.slice(0, -1)] *)
Fixpoint slice_to_last (s : string) : string :=
  match s with
  | EmptyString => EmptyString
  | String _ EmptyString => EmptyString
  | String a r => String a (slice_to_last r)
  end.

(** [s.includes(needle)] *)
Fixpoint includes (needle s : string) : bool :=
  startsWith needle s ||
  match s with
  | EmptyString => false
  | String _ r => includes needle r
  end.

(** [s.substring(0, n)] *)
Fixpoint substring0 (n : nat) (s : string) : string :=
  match n, s with
  | S n', String c r => String c (substring0 n' r)
  | _, _ => EmptyString
  end.

(** [a || b] on strings: the empty string is the only falsy one. *)
Definition or_else (a b : string) : string :=
  if is_empty a then b else a.

Fixpoint of_codes (l : list nat) : string :=
  match l with
  | [] => EmptyString
  | n :: r => String (ascii_of_nat n) (of_codes r)
  end.

Fixpoint contains_char (c : ascii) (s : string) : bool :=
  match s with
  | EmptyString => false
  | String a r => Ascii.eqb a c || contains_char c r
  end.

Definition head_is_space (s : string) : bool :=
  match s with EmptyString => false | String c _ => is_space c end.

Fixpoint last_is_space (s : string) : bool :=
  match s with
  | EmptyString => false
  | String c EmptyString => is_space c
  | String _ r => last_is_space r
  end.

End JsString.

Import JsString.

Infix "|||" := or_else (at level 50, left associativity) : string_scope.

(* ===================================================================== *)
(** * Utility functions of the script *)
(* ===================================================================== *)

(** [sanitizeUsername]: the argument is a string; [!username] holds for
    the empty one. *)
Definition sanitizeUsername (username : string) : string :=
  if is_empty username then ""
  else
    let clean := trim username in
    let clean := if startsWith "@" clean then slice_from_1 clean else clean in
    let clean := if endsWithChar ":" clean then slice_to_last clean else clean in
    clean.

Definition normalizeUsername (username : string) : string :=
  replace_plus (toLowerCase (sanitizeUsername username)).

(* ===================================================================== *)
(** * The DOM store *)
(* ===================================================================== *)

(** What an element carries besides its child nodes.  [innerText] is the
    text the layout engine reports for the element; it depends on
    rendering, so it is a field of its own next to the text nodes from
    which [textContent] is computed.  The script reads it on the child at
    position 5 only, which none of its annotations touches. *)
Record ElemData := mkElemData {
  tagName : string;
  classList : list string;
  attributes : gmap string string;
  style : gmap string string;
  innerText : string
}.

Inductive Node :=
| Text (data : string)
| Elem (d : ElemData) (childNodes : list Node).

Definition no_data : ElemData :=
  mkElemData "" [] ∅ ∅ "".

Definition elemData (n : Node) : ElemData :=
  match n with Elem d _ => d | Text _ => no_data end.

Definition childNodes (n : Node) : list Node :=
  match n with Elem _ ks => ks | Text _ => [] end.

Definition is_element (n : Node) : bool :=
  match n with Elem _ _ => true | Text _ => false end.

(** [node.children]: the element children, text nodes left out. *)
Definition children (n : Node) : list Node :=
  List.filter is_element (childNodes n).

(** [node.textContent]: the text of all descendant text nodes. *)
Fixpoint textContent (n : Node) : string :=
  match n with
  | Text d => d
  | Elem _ ks =>
      (fix go (l : list Node) : string :=
         match l with
         | [] => ""
         | k :: r => textContent k ++ go r
         end) ks
  end.

Definition hasClass (c : string) (n : Node) : bool :=
  bool_decide (c ∈ classList (elemData n)).

(** [element.matches(tag)] for a type selector. *)
Definition matchesTag (t : string) (n : Node) : bool :=
  is_element n && String.eqb (tagName (elemData n)) t.

Definition getAttribute (a : string) (n : Node) : option string :=
  attributes (elemData n) !! a.

(** [img.alt] reflects the attribute, the empty string when absent. *)
Definition alt (n : Node) : string := default "" (getAttribute "alt" n).

(** [node.querySelector(sel)]: the first descendant element, in document
    order, that satisfies the selector [p]. *)
Fixpoint querySelector (p : Node → bool) (n : Node) : option Node :=
  match n with
  | Text _ => None
  | Elem _ ks =>
      (fix go (l : list Node) : option Node :=
         match l with
         | [] => None
         | k :: r =>
             if is_element k && p k then Some k
             else match querySelector p k with
                  | Some x => Some x
                  | None => go r
                  end
         end) ks
  end.

(** Removes every descendant element that satisfies [p]. *)
Fixpoint removeDescendants (p : Node → bool) (n : Node) : Node :=
  match n with
  | Text d => Text d
  | Elem d ks =>
      Elem d
        ((fix go (l : list Node) : list Node :=
            match l with
            | [] => []
            | k :: r =>
                if is_element k && p k then go r
                else removeDescendants p k :: go r
            end) ks)
  end.

(** Element updates. *)
Definition with_data (f : ElemData → ElemData) (n : Node) : Node :=
  match n with Elem d ks => Elem (f d) ks | Text s => Text s end.

Definition set_classList (cl : list string) (d : ElemData) : ElemData :=
  mkElemData (tagName d) cl (attributes d) (style d) (innerText d).

Definition set_style (st : gmap string string) (d : ElemData) : ElemData :=
  mkElemData (tagName d) (classList d) (attributes d) st (innerText d).

(** [el.classList.add(c)] *)
Definition classList_add (c : string) (n : Node) : Node :=
  with_data (λ d, if bool_decide (c ∈ classList d) then d
                  else set_classList (classList d ++ [c]) d) n.

(** Inline styles.  The style map of an element holds its declarations
    under the names of the [style] object ([borderLeft], [paddingTop],
    [backgroundColor]), one entry per side for [border], [padding] and
    [margin]: these are the shorthands whose sides the script also sets
    one by one, and every assignment of the script gives a side its
    width, style and colour together.  [background] is only ever given a
    colour. *)
Definition sides (prop : string) : list string :=
  [prop ++ "Top"; prop ++ "Right"; prop ++ "Bottom"; prop ++ "Left"].

(** The blank-separated parts of a value. *)
Fixpoint split_blanks (acc : string) (s : string) : list string :=
  match s with
  | EmptyString => if is_empty acc then [] else [acc]
  | String c r =>
      if Ascii.eqb c " "%char then
        if is_empty acc then split_blanks "" r else acc :: split_blanks "" r
      else split_blanks (acc ++ String c EmptyString) r
  end.

(** The values of the top, right, bottom and left side that a [padding]
    or [margin] value of one to four parts stands for. *)
Definition side_values (v : string) : list string :=
  match split_blanks "" v with
  | [a; b] => [a; b; a; b]
  | [a; b; c] => [a; b; c; b]
  | [a; b; c; d] => [a; b; c; d]
  | _ => [v; v; v; v]
  end.

(** One longhand: the empty string removes the declaration. *)
Definition set_declaration (k v : string) (st : gmap string string)
    : gmap string string :=
  if is_empty v then delete k st else <[k := v]> st.

(** The effect of the declaration [prop: v] on a style map: a shorthand
    sets, or with the empty string removes, each of its sides. *)
Definition declare (prop v : string) (st : gmap string string)
    : gmap string string :=
  if String.eqb prop "border" then
    foldr (λ k, set_declaration k v) st (sides prop)
  else if String.eqb prop "padding" || String.eqb prop "margin" then
    foldr (λ kx : string * string, set_declaration kx.1 kx.2) st
      (zip (sides prop) (side_values v))
  else if String.eqb prop "background" then
    set_declaration "backgroundColor" v st
  else set_declaration prop v st.

(** [el.style.prop = v] *)
Definition style_assign (prop v : string) (n : Node) : Node :=
  with_data (λ d, set_style (declare prop v (style d)) d) n.

(** [el.style.border]: the value the four sides share, if they do. *)
Definition border_value (st : gmap string string) : option string :=
  match st !! "borderTop", st !! "borderRight", st !! "borderBottom",
        st !! "borderLeft" with
  | Some a, Some b, Some c, Some d =>
      if String.eqb a b && String.eqb a c && String.eqb a d then Some a else None
  | _, _, _, _ => None
  end.

(** The name under which the [style] object knows a CSS property:
    [border-radius] is [borderRadius]. *)
Definition upper_char (c : ascii) : ascii :=
  let n := nat_of_ascii c in
  if ((97 <=? n) && (n <=? 122))%nat then ascii_of_nat (n - 32) else c.

Fixpoint idl_name (s : string) : string :=
  match s with
  | EmptyString => EmptyString
  | String c r =>
      if Ascii.eqb c "-"%char then
        match r with
        | String d r' => String (upper_char d) (idl_name r')
        | EmptyString => EmptyString
        end
      else String c (idl_name r)
  end.

(** [el.style.cssText = css] on an element without inline style: the
    declarations of the text, in order. *)
Definition cssText (css : list (string * string)) : gmap string string :=
  foldl (λ st kv, declare (idl_name kv.1) kv.2 st) ∅ css.

(** [el.appendChild(c)] *)
Definition appendChild (c : Node) (n : Node) : Node :=
  match n with Elem d ks => Elem d (ks ++ [c]) | Text s => Text s end.

(** Applies [f] to the element child at position [i] ([el.children[i]]). *)
Fixpoint update_child (i : nat) (f : Node → Node) (ks : list Node) : list Node :=
  match ks with
  | [] => []
  | k :: r =>
      if is_element k then
        match i with
        | 0 => f k :: r
        | S i' => k :: update_child i' f r
        end
      else k :: update_child i f r
  end.

Definition with_child (i : nat) (f : Node → Node) (n : Node) : Node :=
  match n with Elem d ks => Elem d (update_child i f ks) | Text s => Text s end.

(** [document.createElement(tag)] followed by the assignments the script
    makes on the fresh element. *)
Definition createElement (tag : string) (cls : list string)
    (css : list (string * string)) (text : string) : Node :=
  Elem (mkElemData tag cls ∅ (cssText css) text)
       (if is_empty text then [] else [Text text]).

(* ===================================================================== *)
(** * Configuration and state *)
(* ===================================================================== *)

Module CONFIG.
Definition MAX_SEEN_MESSAGES : nat := 100.
Definition HIGHLIGHT_BORDER : string := "3px solid #fb7a24".
Definition SEPARATOR_COLOR : string := "#fb7a24".
Definition MARKER_BORDER : string := "3px solid #ffd700".
Definition MARKER_BG : string := "rgba(255, 215, 0, 0.1)".
Definition MARKER_ICON : string :=
  of_codes [195; 176; 197; 184; 226; 128; 156; 197; 146].
Definition KEYWORD_HIGHLIGHT_COLOR : string := "#a855f7".
Definition KEYWORD_HIGHLIGHT_BG : string := "rgba(168, 85, 247, 0.15)".
Definition BELL : string :=
  of_codes [195; 176; 197; 184; 226; 128; 157; 226; 128; 157].
Definition RULE : string :=
  of_codes [195; 162; 226; 128; 157; 226; 130; 172].
Definition SEPARATOR_TEXT : string :=
  RULE ++ RULE ++ RULE ++ " New Messages " ++ RULE ++ RULE ++ RULE.
End CONFIG.

Module Feat.
Record t := mk {
  mentions : bool;
  highlighting : bool;
  separator : bool;
  markers : bool;
  keywords : bool
}.
Definition none : t := mk false false false false false.
Definition set_mentions b f := mk b (highlighting f) (separator f) (markers f) (keywords f).
Definition set_highlighting b f := mk (mentions f) b (separator f) (markers f) (keywords f).
Definition set_separator b f := mk (mentions f) (highlighting f) b (markers f) (keywords f).
Definition set_markers b f := mk (mentions f) (highlighting f) (separator f) b (keywords f).
Definition set_keywords b f := mk (mentions f) (highlighting f) (separator f) (markers f) b.
End Feat.

(** The global [state] object.  A JavaScript [Set] of strings is the list
    of its elements in insertion order. *)
Record State := mkState {
  username : option string;
  observer : option nat;
  seenMessages : list string;
  lastKnownMessage : option string;
  markedMessages : list string;
  keywords : list string;
  keywordMatches : list string;
  features : Feat.t
}.

Definition initial_state : State :=
  mkState None None [] None [] [] [] Feat.none.

(* ===================================================================== *)
(** * The world and the handler monad *)
(* ===================================================================== *)

(** Everything a handler can read or change.
    - [heap]: the elements the script holds references to; a reference is
      a key of the heap.
    - [containers]: the parent elements of the document, each given by the
      references of its element children in document order.  An element
      that is in no container is detached: its [parentElement] is null.
    - [notifications]: the calls made to [showNotification].
    - [console_errors]: the calls made to [console.error].
    - [stored_username], [stored_keywords]: the decoded values of the two
      persisted keys.
    - [subscriptions]: the mutation observers currently observing the
      chat container; [suspended]: the activations of [startObserver]
      waiting in [await findChatContainer()]; [observers_created] numbers
      the observer objects. *)
Record World := mkWorld {
  state : State;
  heap : gmap nat Node;
  containers : list (list nat);
  notifications : list (string * string);
  console_errors : list string;
  stored_username : option string;
  stored_keywords : option (list string);
  subscriptions : list nat;
  suspended : nat;
  observers_created : nat
}.

Definition set_state (s : State) (w : World) : World :=
  mkWorld s (heap w) (containers w) (notifications w) (console_errors w)
    (stored_username w) (stored_keywords w) (subscriptions w) (suspended w)
    (observers_created w).

Definition set_heap (h : gmap nat Node) (w : World) : World :=
  mkWorld (state w) h (containers w) (notifications w) (console_errors w)
    (stored_username w) (stored_keywords w) (subscriptions w) (suspended w)
    (observers_created w).

Definition set_containers (c : list (list nat)) (w : World) : World :=
  mkWorld (state w) (heap w) c (notifications w) (console_errors w)
    (stored_username w) (stored_keywords w) (subscriptions w) (suspended w)
    (observers_created w).

Definition set_notifications (n : list (string * string)) (w : World) : World :=
  mkWorld (state w) (heap w) (containers w) n (console_errors w)
    (stored_username w) (stored_keywords w) (subscriptions w) (suspended w)
    (observers_created w).

Definition set_console_errors (e : list string) (w : World) : World :=
  mkWorld (state w) (heap w) (containers w) (notifications w) e
    (stored_username w) (stored_keywords w) (subscriptions w) (suspended w)
    (observers_created w).

Definition set_stored_username (u : option string) (w : World) : World :=
  mkWorld (state w) (heap w) (containers w) (notifications w) (console_errors w)
    u (stored_keywords w) (subscriptions w) (suspended w)
    (observers_created w).

Definition set_stored_keywords (k : option (list string)) (w : World) : World :=
  mkWorld (state w) (heap w) (containers w) (notifications w) (console_errors w)
    (stored_username w) k (subscriptions w) (suspended w)
    (observers_created w).

Definition set_loop (subs : list nat) (susp created : nat) (w : World) : World :=
  mkWorld (state w) (heap w) (containers w) (notifications w) (console_errors w)
    (stored_username w) (stored_keywords w) subs susp created.

(** State setters, one per field the script assigns. *)
Definition set_username (u : option string) (s : State) : State :=
  mkState u (observer s) (seenMessages s) (lastKnownMessage s)
    (markedMessages s) (keywords s) (keywordMatches s) (features s).

Definition set_observer (o : option nat) (s : State) : State :=
  mkState (username s) o (seenMessages s) (lastKnownMessage s)
    (markedMessages s) (keywords s) (keywordMatches s) (features s).

Definition set_seenMessages (l : list string) (s : State) : State :=
  mkState (username s) (observer s) l (lastKnownMessage s)
    (markedMessages s) (keywords s) (keywordMatches s) (features s).

Definition set_lastKnownMessage (l : option string) (s : State) : State :=
  mkState (username s) (observer s) (seenMessages s) l
    (markedMessages s) (keywords s) (keywordMatches s) (features s).

Definition set_keywords (l : list string) (s : State) : State :=
  mkState (username s) (observer s) (seenMessages s) (lastKnownMessage s)
    (markedMessages s) l (keywordMatches s) (features s).

Definition set_keywordMatches (l : list string) (s : State) : State :=
  mkState (username s) (observer s) (seenMessages s) (lastKnownMessage s)
    (markedMessages s) (keywords s) l (features s).

Definition set_features (f : Feat.t) (s : State) : State :=
  mkState (username s) (observer s) (seenMessages s) (lastKnownMessage s)
    (markedMessages s) (keywords s) (keywordMatches s) f.

(** A computation returns a value or throws; the world it leaves behind
    holds the effects made up to that point in both cases. *)
Inductive Outcome (A : Type) :=
| Normal (a : A)
| Thrown (e : string).
Arguments Normal {A} a.
Arguments Thrown {A} e.

Definition M (A : Type) : Type := World → Outcome A * World.

Definition ret {A} (a : A) : M A := λ w, (Normal a, w).

Definition bind {A B} (m : M A) (f : A → M B) : M B :=
  λ w, match m w with
       | (Normal a, w') => f a w'
       | (Thrown e, w') => (Thrown e, w')
       end.

Definition throw {A} (e : string) : M A := λ w, (Thrown e, w).

(** [try { m } catch (e) { h(e) }] *)
Definition try_catch {A} (m : M A) (h : string → M A) : M A :=
  λ w, match m w with
       | (Normal a, w') => (Normal a, w')
       | (Thrown e, w') => h e w'
       end.

Definition gets {A} (f : World → A) : M A := λ w, (Normal (f w), w).

Definition modify (f : World → World) : M unit := λ w, (Normal tt, f w).

Notation "x <- m ;; k" := (bind m (λ x, k))
  (at level 100, m at next level, k at level 200, only parsing).
Notation "m ;; k" := (bind m (λ _, k))
  (at level 100, k at level 200, only parsing).

(** [for (const x of xs) body(x)] over an array that the loop does not
    change. *)
Fixpoint for_of {A} (xs : list A) (body : A → M unit) : M unit :=
  match xs with
  | [] => ret tt
  | x :: r => body x ;; for_of r body
  end.

Definition modify_state (f : State → State) : M unit :=
  modify (λ w, set_state (f (state w)) w).

(** Dereferences an element reference. *)
Definition node_of (w : World) (r : nat) : Node :=
  default (Text "") (heap w !! r).

Definition deref (r : nat) : M Node := gets (λ w, node_of w r).

(** Applies an in-place change to the element behind a reference. *)
Definition mutate (r : nat) (f : Node → Node) : M unit :=
  modify (λ w, set_heap (alter f r (heap w)) w).

Definition console_error (e : string) : M unit :=
  modify (λ w, set_console_errors (console_errors w ++ [e]) w).

(** [showNotification(title, message)]: the call is recorded; delivery is
    the notification surface's business. *)
Definition showNotification (title message : string) : M unit :=
  modify (λ w, set_notifications (notifications w ++ [(title, message)]) w).

(** A [string | null] value is truthy when it is a non-empty string. *)
Definition truthy (o : option string) : bool :=
  match o with Some s => negb (is_empty s) | None => false end.

(* ===================================================================== *)
(** * Fingerprints and bounded history sets *)
(* ===================================================================== *)

(** The two [const]s of [getMessageFingerprint]. *)
Definition timestampText (messageElement : Node) : string :=
  match children messageElement !! 0 with
  | Some c => textContent c ||| ""
  | None => ""
  end.

Definition bodyText (messageElement : Node) : string :=
  match children messageElement !! 5 with
  | Some c => (textContent c ||| innerText (elemData c)) ||| ""
  | None => ""
  end.

Definition getMessageFingerprint (messageElement : Node) : string :=
  trim (timestampText messageElement ++ ":" ++ bodyText messageElement).

(** [Set.prototype.has], [Set.prototype.add], [new Set(array)] and
    [array.slice(-n)] on the insertion-ordered representation. *)
Definition set_has (x : string) (s : list string) : bool :=
  bool_decide (x ∈ s).

Definition set_add (x : string) (s : list string) : list string :=
  if set_has x s then s else s ++ [x].

Definition set_from_array (l : list string) : list string :=
  foldl (λ acc x, set_add x acc) [] l.

Definition slice_last (n : nat) (l : list string) : list string :=
  drop (length l - n) l.

(** The insertion both matchers perform on their history set: add, then
    cut back to the last [MAX_SEEN_MESSAGES] when over capacity. *)
Definition remember (fingerprint : string) (s : list string) : list string :=
  let s := set_add fingerprint s in
  if (CONFIG.MAX_SEEN_MESSAGES <? length s)%nat
  then set_from_array (slice_last CONFIG.MAX_SEEN_MESSAGES s)
  else s.

(* ===================================================================== *)
(** * Keyword extraction *)
(* ===================================================================== *)

Definition extractItems (textContainer : Node) : list string :=
  flat_map
    (λ element,
       if matchesTag "a" element then
         match children element !! 0 with
         | Some img => if matchesTag "img" img then [alt img] else []
         | None => []
         end
       else [])
    (children textContainer).

(** The first hit of the nested loop: items outside, keywords inside. *)
Fixpoint first_match (kws : list string) (items : list string) : option string :=
  match items with
  | [] => None
  | item :: r =>
      match List.find (λ keyword, includes keyword (toLowerCase item)) kws with
      | Some keyword => Some keyword
      | None => first_match kws r
      end
  end.

Definition matchesKeywords (s : State) (textContainer : Node) : option string :=
  if (length (keywords s) =? 0)%nat then None
  else first_match (keywords s) (extractItems textContainer).

(* ===================================================================== *)
(** * Feature: mention watcher *)
(* ===================================================================== *)

Definition author_of (msg : Node) : string :=
  match children msg !! 2 with
  | Some c => textContent c ||| "Someone"
  | None => "Someone"
  end.

Definition checkForMentions_message (uname : string) (msg : nat) : M unit :=
  m <- deref msg ;;
  match children m !! 5 with
  | None => ret tt
  | Some textContainer =>
      let text := innerText (elemData textContainer) ||| textContent textContainer in
      if is_empty text then ret tt
      else if negb (includes uname (toLowerCase text)) then ret tt
      else
        let fingerprint := getMessageFingerprint m in
        seen <- gets (λ w, seenMessages (state w)) ;;
        if set_has fingerprint seen then ret tt
        else
          modify_state (λ s, set_seenMessages (remember fingerprint (seenMessages s)) s) ;;
          let author := author_of m in
          showNotification "You were mentioned!"
            (author ++ ": " ++ substring0 100 text)
  end.

Definition checkForMentions (messages : list nat) : M unit :=
  s <- gets state ;;
  if negb (Feat.mentions (features s)) || negb (truthy (username s)) then ret tt
  else
    let uname := toLowerCase (default "" (username s)) in
    for_of messages (checkForMentions_message uname).

(* ===================================================================== *)
(** * Feature: message highlighter *)
(* ===================================================================== *)

(** The selector [a[href^="profile.php?user_name="]]. *)
Definition is_profile_link (n : Node) : bool :=
  matchesTag "a" n &&
  match getAttribute "href" n with
  | Some h => startsWith "profile.php?user_name=" h
  | None => false
  end.

Fixpoint drop_chars (n : nat) (s : string) : string :=
  match n, s with
  | S n', String _ r => drop_chars n' r
  | _, _ => s
  end.

(** LF and CR, the line terminators among the code units below 256. *)
Definition is_line_terminator (c : ascii) : bool :=
  ((code c =? 10) || (code c =? 13))%nat.

Fixpoint has_line_terminator (s : string) : bool :=
  match s with
  | EmptyString => false
  | String c r => is_line_terminator c || has_line_terminator r
  end.

(** [href.match(/user_name=(.+)$/)], the captured group: at the leftmost
    position where the literal is followed by at least one character and
    no line terminator up to the end of the input. *)
Fixpoint match_user_name (href : string) : option string :=
  let here :=
    if startsWith "user_name=" href then
      let rest := drop_chars 10 href in
      if negb (is_empty rest) && negb (has_line_terminator rest)
      then Some rest else None
    else None in
  match here with
  | Some g => Some g
  | None =>
      match href with
      | EmptyString => None
      | String _ r => match_user_name r
      end
  end.

Definition highlight_style (n : Node) : Node :=
  style_assign "padding" "2px"
    (style_assign "borderRadius" "6px"
       (style_assign "border" CONFIG.HIGHLIGHT_BORDER n)).

Definition highlightOwnMessages_message (normalizedUsername : string) (msg : nat) : M unit :=
  m <- deref msg ;;
  match querySelector is_profile_link m with
  | None => ret tt
  | Some profileLink =>
      let href := default "" (getAttribute "href" profileLink) in
      match match_user_name href with
      | None => ret tt
      | Some g =>
          let messageUsername := normalizeUsername g in
          if String.eqb messageUsername normalizedUsername
          then mutate msg highlight_style
          else ret tt
      end
  end.

Definition highlightOwnMessages (messages : list nat) : M unit :=
  s <- gets state ;;
  if negb (Feat.highlighting (features s)) || negb (truthy (username s)) then ret tt
  else
    let normalizedUsername := normalizeUsername (default "" (username s)) in
    for_of messages (highlightOwnMessages_message normalizedUsername).

(* ===================================================================== *)
(** * Feature: session separator *)
(* ===================================================================== *)

Record MutationRecord := mkMutation {
  addedNodes : list nat;
  removedNodes : list nat
}.

(** [el.parentElement]: the container that lists the element, if any. *)
Definition parentElement (w : World) (r : nat) : option nat :=
  fst <$> list_find (λ c : list nat, r ∈ c) (containers w).

Fixpoint prev_of (prev : option nat) (r : nat) (l : list nat) : option nat :=
  match l with
  | [] => None
  | a :: t => if (a =? r)%nat then prev else prev_of (Some a) r t
  end.

(** [el.previousElementSibling] *)
Definition previousElementSibling (w : World) (r : nat) : option nat :=
  match parentElement w r with
  | Some p => prev_of None r (default [] (containers w !! p))
  | None => None
  end.

Fixpoint insert_before (x r : nat) (l : list nat) : list nat :=
  match l with
  | [] => []
  | a :: t => if (a =? r)%nat then x :: a :: t else a :: insert_before x r t
  end.

(** [parent.insertBefore(x, r)] for a child [r] of [parent]. *)
Definition insertBefore (parent x r : nat) : M unit :=
  modify (λ w, set_containers (alter (insert_before x r) parent (containers w)) w).

(** Puts a freshly created element under a new reference. *)
Definition adopt (n : Node) : M nat :=
  λ w, let r := fresh (dom (heap w)) in
       (Normal r, set_heap (<[r := n]> (heap w)) w).

Definition separator_element : Node :=
  createElement "div" ["chat-separator"]
    [("text-align", "center"); ("margin", "12px 0"); ("font-size", "12px");
     ("color", CONFIG.SEPARATOR_COLOR); ("font-weight", "bold");
     ("opacity", "0.8"); ("padding", "4px 0")]
    CONFIG.SEPARATOR_TEXT.

Definition is_separator (n : Node) : bool := hasClass "chat-separator" n.

(** [prevElement && prevElement.classList.contains("chat-separator")] *)
Definition divider_precedes (w : World) (r : nat) : bool :=
  match previousElementSibling w r with
  | Some prevElement => is_separator (node_of w prevElement)
  | None => false
  end.

Definition insertSeparator (beforeMessage : nat) : M unit :=
  present <- gets (λ w, divider_precedes w beforeMessage) ;;
  if present then ret tt
  else
    separator <- adopt separator_element ;;
    parent <- gets (λ w, parentElement w beforeMessage) ;;
    match parent with
    | None => throw "TypeError: beforeMessage.parentElement is null"
    | Some p => insertBefore p separator beforeMessage
    end.

(** [if (messages.length > 0) state.lastKnownMessage = fingerprint(messages[0])] *)
Definition update_lastKnownMessage (messages : list nat) : M unit :=
  match messages with
  | [] => ret tt
  | first :: _ =>
      m <- deref first ;;
      modify_state (set_lastKnownMessage (Some (getMessageFingerprint m)))
  end.

(** Whether some mutation of the batch has removed nodes. *)
Definition chatWasCleared (mutations : list MutationRecord) : bool :=
  existsb (λ mutation, 0 <? length (removedNodes mutation)) mutations.

(** The loop that looks for the recorded fingerprint stops at the first
    message that has it. *)
Definition first_with_fingerprint (w : World) (F : string) (messages : list nat)
    : option nat :=
  List.find (λ msg, String.eqb (getMessageFingerprint (node_of w msg)) F) messages.

Definition checkForSessionChange (messages : list nat)
    (mutations : list MutationRecord) : M unit :=
  s <- gets state ;;
  if negb (Feat.separator (features s)) then ret tt
  else if negb (chatWasCleared mutations) then update_lastKnownMessage messages
  else if negb (truthy (lastKnownMessage s)) then update_lastKnownMessage messages
  else
    let last := default "" (lastKnownMessage s) in
    found <- gets (λ w, first_with_fingerprint w last messages) ;;
    match found with
    | Some msg => insertSeparator msg
    | None => ret tt
    end ;;
    update_lastKnownMessage messages.

(* ===================================================================== *)
(** * Feature: attention markers *)
(* ===================================================================== *)

Definition createMarkerButton : Node :=
  Elem (mkElemData "button" ["chat-marker-btn"]
          {[ "title" := "Mark for later" ]}
          (cssText
             [("position", "absolute"); ("right", "4px"); ("top", "4px");
              ("background", "rgba(255, 255, 255, 0.9)");
              ("border", "1px solid #ddd"); ("border-radius", "3px");
              ("padding", "2px 6px"); ("cursor", "pointer");
              ("font-size", "14px"); ("line-height", "1"); ("opacity", "0.6");
              ("transition", "opacity 0.2s, transform 0.2s"); ("z-index", "10")])
          CONFIG.MARKER_ICON)
       [Text CONFIG.MARKER_ICON].

Definition is_marker_button (n : Node) : bool := hasClass "chat-marker-btn" n.

Definition applyMarkerStyle (messageElement : Node) : Node :=
  style_assign "position" "relative"
    (style_assign "padding" "4px"
       (style_assign "borderRadius" "6px"
          (style_assign "border" CONFIG.MARKER_BORDER
             (style_assign "backgroundColor" CONFIG.MARKER_BG
                (classList_add "chat-marked" messageElement))))).

Fixpoint update_last (f : Node → Node) (ks : list Node) : list Node :=
  match ks with
  | [] => []
  | [k] => [f k]
  | k :: r => k :: update_last f r
  end.

(** Applies [f] to the node appended last. *)
Definition with_last_child (f : Node → Node) (n : Node) : Node :=
  match n with Elem d ks => Elem d (update_last f ks) | Text s => Text s end.

Definition addMarkerButtons_message (msg : nat) : M unit :=
  m <- deref msg ;;
  match querySelector is_marker_button m with
  | Some _ => ret tt
  | None =>
      mutate msg (style_assign "position" "relative") ;;
      mutate msg (appendChild createMarkerButton) ;;
      m' <- deref msg ;;
      marked <- gets (λ w, markedMessages (state w)) ;;
      if set_has (getMessageFingerprint m') marked then
        mutate msg applyMarkerStyle ;;
        mutate msg (with_last_child (style_assign "opacity" "1"))
      else ret tt
  end.

Definition addMarkerButtons (messages : list nat) : M unit :=
  s <- gets state ;;
  if negb (Feat.markers (features s)) then ret tt
  else for_of messages addMarkerButtons_message.

(* ===================================================================== *)
(** * Feature: keyword watcher *)
(* ===================================================================== *)

Definition keyword_badge (keyword : string) : Node :=
  createElement "span" ["keyword-badge"]
    [("display", "inline-block"); ("background", CONFIG.KEYWORD_HIGHLIGHT_COLOR);
     ("color", "white"); ("font-size", "10px"); ("padding", "2px 6px");
     ("border-radius", "3px"); ("margin-left", "8px"); ("font-weight", "bold")]
    (CONFIG.BELL ++ " " ++ keyword).

Definition keyword_style (keyword : string) (n : Node) : Node :=
  with_child 2 (appendChild (keyword_badge keyword))
    (style_assign "paddingLeft" "8px"
       (style_assign "backgroundColor" CONFIG.KEYWORD_HIGHLIGHT_BG
          (style_assign "borderLeft" ("4px solid " ++ CONFIG.KEYWORD_HIGHLIGHT_COLOR)
             (classList_add "chat-keyword-match" n)))).

Definition applyKeywordHighlight (messageElement : nat) (keyword : string) : M unit :=
  m <- deref messageElement ;;
  if hasClass "chat-marked" m then ret tt
  else mutate messageElement (keyword_style keyword).

Definition double_quote : string := String "034"%char EmptyString.

Definition checkForKeywords_message (msg : nat) : M unit :=
  m <- deref msg ;;
  match children m !! 5 with
  | None => ret tt
  | Some textContainer =>
      s <- gets state ;;
      match matchesKeywords s textContainer with
      | None => ret tt
      | Some matchedKeyword =>
          if is_empty matchedKeyword then ret tt
          else
            let fingerprint := getMessageFingerprint m in
            if set_has fingerprint (keywordMatches s) then ret tt
            else
              modify_state (λ s, set_keywordMatches
                                   (remember fingerprint (keywordMatches s)) s) ;;
              let author := author_of m in
              applyKeywordHighlight msg matchedKeyword ;;
              showNotification
                ("Keyword Alert: " ++ double_quote ++ matchedKeyword ++ double_quote)
                author
      end
  end.

Definition checkForKeywords (messages : list nat) : M unit :=
  s <- gets state ;;
  if negb (Feat.keywords (features s)) || (length (keywords s) =? 0)%nat then ret tt
  else for_of messages checkForKeywords_message.

(* ===================================================================== *)
(** * Chat observer *)
(* ===================================================================== *)

(** [node.nodeType === Node.ELEMENT_NODE && node.classList.contains("chat-txt")] *)
Definition is_chat_message (w : World) (r : nat) : bool :=
  match heap w !! r with
  | Some n => is_element n && hasClass "chat-txt" n
  | None => false
  end.

Definition newMessages (w : World) (mutations : list MutationRecord) : list nat :=
  flat_map (λ mutation, List.filter (is_chat_message w) (addedNodes mutation))
    mutations.

Definition process_features (messages : list nat)
    (mutations : list MutationRecord) : M unit :=
  checkForMentions messages ;;
  highlightOwnMessages messages ;;
  checkForSessionChange messages mutations ;;
  addMarkerButtons messages ;;
  checkForKeywords messages.

Definition handleChatMutations (mutations : list MutationRecord) : M unit :=
  messages <- gets (λ w, newMessages w mutations) ;;
  if (length messages =? 0)%nat then ret tt
  else
    try_catch (process_features messages mutations)
      (λ e, console_error ("[Chat] Error processing messages: " ++ e)).

(** [startObserver] is an [async] function.  A call runs it up to
    [await findChatContainer()] and leaves the activation suspended; the
    rest runs later, once the search has ended, after the caller and any
    other code that was scheduled in between. *)
Definition startObserver : M unit :=
  s <- gets state ;;
  match observer s with
  | Some _ => ret tt
  | None =>
      modify (λ w, set_loop (subscriptions w) (S (suspended w))
                     (observers_created w) w)
  end.

(** The rest of one suspended activation.  [found] tells how
    [findChatContainer] ended: with a container, or by throwing after the
    last attempt, which the [catch] of [startObserver] logs. *)
Definition startObserver_resume (found : bool) : M unit :=
  n <- gets suspended ;;
  match n with
  | 0 => ret tt
  | S n' =>
      modify (λ w, set_loop (subscriptions w) n' (observers_created w) w) ;;
      if found then
        o <- gets observers_created ;;
        modify_state (set_observer (Some o)) ;;
        modify (λ w, set_loop (subscriptions w ++ [o]) (suspended w) (S o) w)
      else
        console_error "[Chat] Failed to start observer: [Chat] Could not find chat container"
  end.

Definition stopObserver : M unit :=
  s <- gets state ;;
  match observer s with
  | Some o =>
      modify (λ w, set_loop (List.filter (λ x, negb (x =? o)%nat) (subscriptions w))
                     (suspended w) (observers_created w) w) ;;
      modify_state (set_observer None)
  | None => ret tt
  end.

(* ===================================================================== *)
(** * Feature controls *)
(* ===================================================================== *)

(** The block "Get username if not set" of [startMentionWatcher] and
    [startHighlighter].  [input] is what [prompt] answers when it is
    asked ([None] when the dialog is cancelled).  The result tells
    whether the caller goes on. *)
Definition obtain_username (input : option string) : M bool :=
  s <- gets state ;;
  if truthy (username s) then ret true
  else
    stored <- gets stored_username ;;
    if truthy stored then
      modify_state (set_username stored) ;; ret true
    else if negb (truthy input) then ret false
    else
      let u := sanitizeUsername (default "" input) in
      modify_state (set_username (Some u)) ;;
      modify (set_stored_username (Some u)) ;;
      ret true.

Definition modify_features (f : Feat.t → Feat.t) : M unit :=
  modify_state (λ s, set_features (f (features s)) s).

(** [document.querySelectorAll(sel)] over the elements the containers
    list, in document order. *)
Definition querySelectorAll (p : Node → bool) (w : World) : list nat :=
  List.filter (λ r, p (node_of w r)) (concat (containers w)).

Definition is_chat_txt (n : Node) : bool := hasClass "chat-txt" n.

Definition startMentionWatcher (input : option string) : M unit :=
  s <- gets state ;;
  if Feat.mentions (features s) then ret tt
  else
    ok <- obtain_username input ;;
    if negb ok then ret tt
    else
      modify_features (Feat.set_mentions true) ;;
      startObserver.

Definition stopMentionWatcher : M unit :=
  modify_features (Feat.set_mentions false) ;;
  modify_state (set_seenMessages []).

Definition startHighlighter (input : option string) : M unit :=
  s <- gets state ;;
  if Feat.highlighting (features s) then ret tt
  else
    ok <- obtain_username input ;;
    if negb ok then ret tt
    else
      modify_features (Feat.set_highlighting true) ;;
      startObserver ;;
      messages <- gets (querySelectorAll is_chat_txt) ;;
      highlightOwnMessages messages.

Definition startSeparator : M unit :=
  s <- gets state ;;
  if Feat.separator (features s) then ret tt
  else
    modify_features (Feat.set_separator true) ;;
    startObserver.

(** [document.querySelectorAll(".chat-separator").forEach(sep => sep.remove())]:
    the dividers listed in a container leave it, and dividers nested in an
    attached element leave that element. *)
Definition remove_separators (w : World) : World :=
  let attached := concat (containers w) in
  set_containers
    (map (List.filter (λ r, negb (is_separator (node_of w r)))) (containers w))
    (set_heap
       (foldr (λ r h, alter (removeDescendants is_separator) r h) (heap w) attached)
       w).

Definition stopSeparator : M unit :=
  modify_features (Feat.set_separator false) ;;
  modify remove_separators.

Definition startMarkers : M unit :=
  s <- gets state ;;
  if Feat.markers (features s) then ret tt
  else
    modify_features (Feat.set_markers true) ;;
    startObserver ;;
    messages <- gets (querySelectorAll is_chat_txt) ;;
    addMarkerButtons messages.

(** [input.split(",")] *)
Fixpoint split_commas (acc : string) (s : string) : list string :=
  match s with
  | EmptyString => [acc]
  | String c r =>
      if Ascii.eqb c ","%char then acc :: split_commas "" r
      else split_commas (acc ++ String c EmptyString) r
  end.

(** [k.replace(/[()]/g, "")] *)
Fixpoint remove_parens (s : string) : string :=
  match s with
  | EmptyString => EmptyString
  | String c r =>
      if Ascii.eqb c "("%char || Ascii.eqb c ")"%char then remove_parens r
      else String c (remove_parens r)
  end.

Definition parse_keywords (input : string) : list string :=
  List.filter (λ k, negb (is_empty k))
    (map (λ k, remove_parens (toLowerCase (trim k))) (split_commas "" input)).

Definition loadKeywords : M unit :=
  stored <- gets stored_keywords ;;
  match stored with
  | Some ks => modify_state (set_keywords (set_from_array (map toLowerCase ks)))
  | None => ret tt
  end.

Definition saveKeywords : M unit :=
  modify (λ w, set_stored_keywords (Some (keywords (state w))) w).

Definition startKeywordWatcher (input : option string) : M unit :=
  s <- gets state ;;
  if Feat.keywords (features s) then ret tt
  else
    loadKeywords ;;
    s <- gets state ;;
    proceed <-
      (if (length (keywords s) =? 0)%nat then
         if negb (truthy input) then ret false
         else
           modify_state (set_keywords (set_from_array (parse_keywords (default "" input)))) ;;
           saveKeywords ;;
           ret true
       else ret true) ;;
    if negb proceed then ret tt
    else
      modify_features (Feat.set_keywords true) ;;
      startObserver.

(** The world the script starts in on a page holding the given elements. *)
Definition initial_world (h : gmap nat Node) (cs : list (list nat)) : World :=
  mkWorld initial_state h cs [] [] None None [] 0 0.

(** Runs a computation for its final world. *)
Definition exec {A} (m : M A) (w : World) : World := snd (m w).

(** The computation returns normally from [w]. *)
Definition returns {A} (m : M A) (w : World) : Prop :=
  ∃ a w', m w = (Normal a, w').

(** The computation throws from [w]. *)
Definition throws {A} (m : M A) (w : World) : Prop :=
  ∃ e w', m w = (Thrown e, w').

(** The dispatcher as the specification words it: every handler in a
    [try] of its own.  It is here to be compared with
    [handleChatMutations]; the script does not contain it. *)
Definition guarded (h : M unit) : M unit :=
  try_catch h (λ e, console_error ("[Chat] Error processing messages: " ++ e)).

Definition handleChatMutations_per_handler (mutations : list MutationRecord) : M unit :=
  messages <- gets (λ w, newMessages w mutations) ;;
  if (length messages =? 0)%nat then ret tt
  else
    guarded (checkForMentions messages) ;;
    guarded (highlightOwnMessages messages) ;;
    guarded (checkForSessionChange messages mutations) ;;
    guarded (addMarkerButtons messages) ;;
    guarded (checkForKeywords messages).

(** The five handlers of a batch, in dispatch order. *)
Definition handlers (messages : list nat) (mutations : list MutationRecord)
    : list (M unit) :=
  [checkForMentions messages; highlightOwnMessages messages;
   checkForSessionChange messages mutations; addMarkerButtons messages;
   checkForKeywords messages].

Fixpoint run_all (hs : list (M unit)) : M unit :=
  match hs with
  | [] => ret tt
  | h :: r => h ;; run_all r
  end.

(** Feeding a history set a sequence of fingerprints, starting empty. *)
Definition remember_all (fps : list string) : list string :=
  foldl (λ s fp, remember fp s) [] fps.

(** The dividers of the document. *)
Definition dividers (w : World) : list nat := querySelectorAll is_separator w.

(* ===================================================================== *)
(** * Pins: toggling and clearing *)
(* ===================================================================== *)

Definition set_markedMessages (l : list string) (s : State) : State :=
  mkState (username s) (observer s) (seenMessages s) (lastKnownMessage s)
    l (keywords s) (keywordMatches s) (features s).

(** [Set.prototype.delete] *)
Definition set_delete (x : string) (s : list string) : list string :=
  List.filter (λ y, negb (String.eqb y x)) s.

(** [el.classList.remove(c)] *)
Definition classList_remove (c : string) (n : Node) : Node :=
  with_data
    (λ d, set_classList (List.filter (λ y, negb (String.eqb y c)) (classList d)) d)
    n.

Definition is_marked (n : Node) : bool := hasClass "chat-marked" n.

(** The three assignments of the empty string that take a border away. *)
Definition clear_border (n : Node) : Node :=
  style_assign "padding" ""
    (style_assign "borderRadius" "" (style_assign "border" "" n)).

(** [removeMarkerStyle] on the element itself; [s] is the state it reads. *)
Definition unmark (s : State) (messageElement : Node) : Node :=
  let n := style_assign "backgroundColor" ""
             (classList_remove "chat-marked" messageElement) in
  let own :=
    match querySelector is_profile_link n with
    | Some profileLink =>
        if Feat.highlighting (features s) && truthy (username s) then
          match match_user_name (default "" (getAttribute "href" profileLink)) with
          | Some g =>
              String.eqb (normalizeUsername g)
                (normalizeUsername (default "" (username s)))
          | None => false
          end
        else false
    | None => false
    end in
  if own then highlight_style n else clear_border n.

Definition removeMarkerStyle (messageElement : nat) : M unit :=
  s <- gets state ;;
  mutate messageElement (unmark s).

(** The [button] that [createMarkerButton] made for a message is the child
    that [addMarkerButtons] appended to it; the script appends one only to
    a message that has none, so it is the child with the button class. *)
Definition with_marker_button (f : Node → Node) (n : Node) : Node :=
  match n with
  | Elem d ks =>
      Elem d (map (λ k, if is_element k && is_marker_button k then f k else k) ks)
  | Text s => Text s
  end.

(** The click handler of the pin button of [messageElement]. *)
Definition toggleMessageMarker (messageElement : nat) : M unit :=
  m <- deref messageElement ;;
  let fingerprint := getMessageFingerprint m in
  marked <- gets (λ w, markedMessages (state w)) ;;
  if set_has fingerprint marked then
    modify_state (λ s, set_markedMessages (set_delete fingerprint (markedMessages s)) s) ;;
    removeMarkerStyle messageElement ;;
    mutate messageElement (with_marker_button (style_assign "opacity" "0.6"))
  else
    modify_state (λ s, set_markedMessages (set_add fingerprint (markedMessages s)) s) ;;
    mutate messageElement applyMarkerStyle ;;
    mutate messageElement (with_marker_button (style_assign "opacity" "1")).

(** [document.querySelectorAll(sel).forEach(el => el.remove())]: matching
    elements listed in a container leave it, and matching elements nested
    in an attached element leave that element. *)
Definition remove_elements (p : Node → bool) (w : World) : World :=
  let attached := concat (containers w) in
  set_containers
    (map (List.filter (λ r, negb (p (node_of w r)))) (containers w))
    (set_heap
       (foldr (λ r h, alter (removeDescendants p) r h) (heap w) attached)
       w).

Definition removeAllMarkerButtons : M unit :=
  modify (remove_elements is_marker_button) ;;
  markedMessages <- gets (querySelectorAll is_marked) ;;
  for_of markedMessages removeMarkerStyle.

Definition stopMarkers : M unit :=
  modify_features (Feat.set_markers false) ;;
  removeAllMarkerButtons ;;
  modify_state (set_markedMessages []).

(** Applies [f] to the first descendant element, in document order, that
    satisfies [p]: the element [querySelector] returns. *)
Fixpoint alterDescendant (p : Node → bool) (f : Node → Node) (n : Node) : Node :=
  match n with
  | Text d => Text d
  | Elem d ks =>
      Elem d
        ((fix go (l : list Node) : list Node :=
            match l with
            | [] => []
            | k :: r =>
                if is_element k && p k then f k :: r
                else match querySelector p k with
                     | Some _ => alterDescendant p f k :: r
                     | None => k :: go r
                     end
            end) ks)
  end.

(** Removes the element [querySelector] returns, if any. *)
Fixpoint removeDescendant (p : Node → bool) (n : Node) : Node :=
  match n with
  | Text d => Text d
  | Elem d ks =>
      Elem d
        ((fix go (l : list Node) : list Node :=
            match l with
            | [] => []
            | k :: r =>
                if is_element k && p k then r
                else match querySelector p k with
                     | Some _ => removeDescendant p k :: r
                     | None => k :: go r
                     end
            end) ks)
  end.

Definition clearAllMarkers : M unit :=
  modify_state (set_markedMessages []) ;;
  markedMessages <- gets (querySelectorAll is_marked) ;;
  for_of markedMessages
    (λ msg,
       removeMarkerStyle msg ;;
       mutate msg (alterDescendant is_marker_button (style_assign "opacity" "0.6"))).

(* ===================================================================== *)
(** * Stopping the highlighter and the keyword watcher *)
(* ===================================================================== *)

(** The selector [.chat-txt[style*="border"]]: the style attribute holds
    the text "border" when a declared property or value does.  The names
    of the map are those of the [style] object ([borderLeft],
    [borderRadius]), so the test folds case. *)
Definition mentions_border (n : Node) : bool :=
  existsb (λ kv : string * string,
             includes "border" (toLowerCase kv.1) || includes "border" kv.2)
    (map_to_list (style (elemData n))).

Definition is_bordered_chat_txt (n : Node) : bool :=
  hasClass "chat-txt" n && mentions_border n.

Definition stopHighlighter : M unit :=
  modify_features (Feat.set_highlighting false) ;;
  messages <- gets (querySelectorAll is_bordered_chat_txt) ;;
  for_of messages
    (λ msg,
       m <- deref msg ;;
       if negb (hasClass "chat-marked" m) then mutate msg clear_border
       else ret tt).

Definition is_keyword_match (n : Node) : bool := hasClass "chat-keyword-match" n.
Definition is_keyword_badge (n : Node) : bool := hasClass "keyword-badge" n.

(** What [removeKeywordHighlights] does to one matched element. *)
Definition unhighlight (n : Node) : Node :=
  removeDescendant is_keyword_badge
    (style_assign "paddingLeft" ""
       (style_assign "backgroundColor" ""
          (style_assign "borderLeft" ""
             (classList_remove "chat-keyword-match" n)))).

Definition removeKeywordHighlights : M unit :=
  matches <- gets (querySelectorAll is_keyword_match) ;;
  for_of matches (λ msg, mutate msg unhighlight).

Definition stopKeywordWatcher : M unit :=
  modify_features (Feat.set_keywords false) ;;
  modify_state (set_keywordMatches []) ;;
  removeKeywordHighlights.

(** [input] is the answer of [prompt]: [None] when it is cancelled. *)
Definition manageKeywords (input : option string) : M unit :=
  match input with
  | None => ret tt
  | Some text =>
      if is_empty (trim text) then
        modify_state (set_keywords []) ;;
        saveKeywords
      else
        modify_state (set_keywords (set_from_array (parse_keywords text))) ;;
        saveKeywords
  end.

Definition clearUsername : M unit := modify (set_stored_username None).

Definition resetAll : M unit :=
  stopMentionWatcher ;;
  stopHighlighter ;;
  stopSeparator ;;
  stopMarkers ;;
  stopKeywordWatcher ;;
  clearUsername ;;
  modify_state (set_username None).

(* ===================================================================== *)
(** * Looking for the chat container *)
(* ===================================================================== *)

Definition CHAT_SELECTORS : list string := ["#chatzoneDesktop"; "#chatzoneMobile"].

(** What [document.querySelector] answers for a selector at one moment. *)
Definition Document : Type := string → option nat.

(** How the search ends, and after how many delays. *)
Inductive Search :=
| Found (container : nat) (delays : nat)
| NotFound (delays : nat).

Fixpoint first_selected (doc : Document) (selectors : list string) : option nat :=
  match selectors with
  | [] => None
  | selector :: r =>
      match doc selector with
      | Some container => Some container
      | None => first_selected doc r
      end
  end.

(** The loop of [findChatContainer] from attempt [i] with [remaining]
    attempts left; [page i] is the document at attempt [i].  Every failed
    attempt waits one delay. *)
Fixpoint findChatContainer_from (i remaining : nat) (page : nat → Document) : Search :=
  match remaining with
  | 0 => NotFound i
  | S k =>
      match first_selected (page i) CHAT_SELECTORS with
      | Some container => Found container i
      | None => findChatContainer_from (S i) k page
      end
  end.

Definition findChatContainer (maxAttempts : nat) (page : nat → Document) : Search :=
  findChatContainer_from 0 maxAttempts page.

(* ===================================================================== *)
(** * Further notions used in the statements *)
(* ===================================================================== *)

(** [match[1]] of the profile link of a message, when both exist. *)
Definition linked_username (m : Node) : option string :=
  match querySelector is_profile_link m with
  | Some profileLink => match_user_name (default "" (getAttribute "href" profileLink))
  | None => None
  end.

(** The test of [highlightOwnMessages]: the message has a profile link
    whose user name normalizes to [normalizedUsername]. *)
Definition is_own_message (normalizedUsername : string) (m : Node) : bool :=
  match linked_username m with
  | Some g => String.eqb (normalizeUsername g) normalizedUsername
  | None => false
  end.

(** Every reference of the batch denotes an element of the store. *)
Definition elements_of (w : World) (messages : list nat) : Prop :=
  Forall (λ r, ∃ m, heap w !! r = Some m ∧ is_element m = true) messages.

Definition has_marker_button (n : Node) : bool :=
  bool_decide (is_Some (querySelector is_marker_button n)).

(** A keyword set as the script builds it: no duplicates, lower case. *)
Definition keywords_wf (ks : list string) : Prop :=
  NoDup ks ∧ Forall (λ k, toLowerCase k = k) ks.

(* ===================================================================== *)
(** * Notions used in the further properties *)
(* ===================================================================== *)

(** What the mention matcher leaves behind for a first mention. *)
Definition mention_alert (fingerprint author text : string) (w : World) : World :=
  set_notifications
    (notifications w ++
       [("You were mentioned!", author ++ ": " ++ substring0 100 text)])
    (set_state
       (set_seenMessages (remember fingerprint (seenMessages (state w))) (state w))
       w).

(** The shape the restyling loops of the script share: read the element,
    test it, and change it in place. *)
Definition restyle (c : State → Node → bool) (f : State → Node → Node)
    (r : nat) : M unit :=
  s <- gets state ;;
  m <- deref r ;;
  if c s m then mutate r (f s) else ret tt.

(** The store after such a loop has gone over the references [l]. *)
Definition restyled (c : State → Node → bool) (f : State → Node → Node)
    (s : State) (l : list nat) (h : gmap nat Node) : gmap nat Node :=
  foldl (λ h r, if c s (default (Text "") (h !! r)) then alter (f s) r h else h) h l.

(** The number of times a reference occurs in a list. *)
Definition occurrences (r : nat) (l : list nat) : nat :=
  length (List.filter (λ x, x =? r) l).

(** What one visit of such a loop does to an element. *)
Definition visit (c : State → Node → bool) (f : State → Node → Node)
    (s : State) (m : Node) : Node :=
  if c s m then f s m else m.

(** The elements after the highlighter has gone over a batch: the own
    messages of the batch bear the highlight style. *)
Definition highlighted (u : string) (messages : list nat) (r : nat) (m : Node) : Node :=
  if bool_decide (r ∈ messages) && is_own_message (normalizeUsername u) m
  then highlight_style m else m.

(** The test of [removeMarkerStyle] for keeping the own-message
    highlight. *)
Definition keeps_highlight (s : State) (m : Node) : bool :=
  Feat.highlighting (features s) && truthy (username s)
  && is_own_message (normalizeUsername (default "" (username s))) m.

(** What [addMarkerButtons] does to a message without a pin button;
    [marked] is the set of pinned fingerprints. *)
Definition buttoned (marked : list string) (m : Node) : Node :=
  let m' := appendChild createMarkerButton (style_assign "position" "relative" m) in
  if set_has (getMessageFingerprint m') marked
  then with_last_child (style_assign "opacity" "1") (applyMarkerStyle m')
  else m'.

(** The elements after the pin feature has gone over a batch. *)
Definition pinnable (marked : list string) (messages : list nat) (r : nat)
    (m : Node) : Node :=
  if bool_decide (r ∈ messages) && negb (has_marker_button m)
  then buttoned marked m else m.

(** What [clearAllMarkers] does to one pinned element. *)
Definition unpin_and_dim (s : State) (m : Node) : Node :=
  alterDescendant is_marker_button (style_assign "opacity" "0.6") (unmark s m).

(** The elements after [stopHighlighter] has gone over the document. *)
Definition unbordered (selected : list nat) (r : nat) (m : Node) : Node :=
  if bool_decide (r ∈ selected) && negb (is_marked m) then clear_border m else m.

(** The error log and the containers of a world. *)
Definition outline (w : World) : list string * list (list nat) :=
  (console_errors w, containers w).

(** A computation that leaves an observation of the world as it is,
    however it ends. *)
Definition preserves {A B} (g : World → B) (m : M A) : Prop :=
  ∀ w, g (snd (m w)) = g w.

(** No chat container is in the document at attempt [j]. *)
Definition absent (page : nat → Document) (j : nat) : Prop :=
  page j "#chatzoneDesktop" = None ∧ page j "#chatzoneMobile" = None.

(** A keyword as the parser leaves it. *)
Definition clean_keyword (k : string) : Prop :=
  k ≠ "" ∧ toLowerCase k = k
  ∧ contains_char "(" k = false ∧ contains_char ")" k = false.

(* ===================================================================== *)
(** * Notions used in the statements *)
(* ===================================================================== *)

(** A computation that returns from every world. *)
Definition total {A} (m : M A) : Prop := ∀ w, returns m w.

(** Running [m] a second time right after the first changes nothing. *)
Definition idempotent (m : M unit) : Prop :=
  ∀ w, ∃ w1, m w = (Normal tt, w1) ∧ m w1 = (Normal tt, w1).

Definition dispatch_error (e : string) : string :=
  "[Chat] Error processing messages: " ++ e.

(** When the separator can be located: the two timestamps have the same
    length, or neither holds a colon. *)
Definition separator_located (ts1 ts2 : string) : Prop :=
  String.length ts1 = String.length ts2
  ∨ (contains_char ":" ts1 = false ∧ contains_char ":" ts2 = false).

(** Nothing for [trim] to remove around the joined text. *)
Definition untrimmed (m : Node) : Prop :=
  head_is_space (timestampText m) = false ∧ last_is_space (bodyText m) = false.

(** What the keyword matcher leaves behind for a first match on a pinned
    message: the fingerprint on record and one notification. *)
Definition keyword_alert (fingerprint keyword author : string) (w : World) : World :=
  set_notifications
    (notifications w ++
       [("Keyword Alert: " ++ double_quote ++ keyword ++ double_quote, author)])
    (set_state
       (set_keywordMatches (remember fingerprint (keywordMatches (state w))) (state w))
       w).

(** Starts that do not overlap share one observer: once an observer is
    in place, a further start adds no activation, and a start whose
    activation ends before the next one begins leaves at most one
    subscription. *)
Definition settled (w : World) : Prop :=
  suspended w = 0
  ∧ match observer (state w) with
    | Some o => subscriptions w = [o]
    | None => subscriptions w = []
    end.

(** The first activation is still waiting for the chat container when a
    second feature is started; then the container appears and both
    activations go on. *)
Definition overlapping_starts : M unit :=
  startSeparator ;; startMarkers ;;
  startObserver_resume true ;; startObserver_resume true.

(** The test of the mention matcher on a message: it has a body whose
    text is not empty and holds the user name. *)
Definition mentions (uname : string) (m : Node) : bool :=
  match children m !! 5 with
  | Some textContainer =>
      let text := innerText (elemData textContainer) ||| textContent textContainer in
      negb (is_empty text) && includes uname (toLowerCase text)
  | None => false
  end.

(** The test of the keyword matcher on a message: it has a body that
    names a watched item. *)
Definition watched (s : State) (m : Node) : bool :=
  match children m !! 5 with
  | Some textContainer =>
      match matchesKeywords s textContainer with
      | Some matchedKeyword => negb (is_empty matchedKeyword)
      | None => false
      end
  | None => false
  end.

(** The fingerprints of the messages of a batch that pass a test, in
    batch order. *)
Definition fingerprints_of (test : Node → bool) (w : World) (messages : list nat)
    : list string :=
  map (λ r, getMessageFingerprint (node_of w r))
    (List.filter (λ r, test (node_of w r)) messages).

(* ===================================================================== *)
(** * Sample pages *)
(* ===================================================================== *)

Module Sample.

Definition span (text : string) : Node := createElement "span" [] [] text.

Definition link (user : string) : Node :=
  Elem (mkElemData "a" [] {[ "href" := "profile.php?user_name=" ++ user ]} ∅ user)
       [Text user].

(** An item reference: a link wrapping an image named by its [alt]. *)
Definition item (name : string) : Node :=
  Elem (mkElemData "a" [] ∅ ∅ "")
       [Elem (mkElemData "img" [] {[ "alt" := name ]} ∅ "") []].

Definition body (text : string) (items : list Node) : Node :=
  Elem (mkElemData "span" [] ∅ ∅ text) (Text text :: items).

(** A message of the documented shape: timestamp at child 0, author at
    child 2, body at child 5. *)
Definition message (cls : list string) (ts user text : string)
    (items : list Node) : Node :=
  Elem (mkElemData "div" ("chat-txt" :: cls) ∅ ∅ "")
    [span ts; span ""; Elem (mkElemData "span" [] ∅ ∅ user) [link user];
     span ""; span ""; body text items].

(** A message element without any child. *)
Definition bare : Node := Elem (mkElemData "div" ["chat-txt"] ∅ ∅ "") [].

Definition all_on : Feat.t := Feat.mk true true true true true.

Definition hello : Node := message [] "12:00" "Bob" "hello alice" [item "Dragon Egg"].
Definition yo : Node := message [] "12:01" "alice" "yo" [].

(** Two messages that a double refresh inserted and removed again
    before the observer ran: they are in no container. *)
Definition detached_page : World :=
  set_state
    (mkState (Some "Alice") None [] (Some "12:00:hello alice") [] ["dragon egg"] []
       all_on)
    (initial_world {[ 0 := hello; 1 := yo ]} []).

Definition refresh : list MutationRecord := [mkMutation [0; 1] [7]].

(** Same timestamp, bodies that differ by a trailing blank. *)
Definition hi : Node := message [] "12:00" "Bob" "hi" [].
Definition hi_blank : Node := message [] "12:00" "Bob" "hi " [].

(** The leading fingerprint on record is that of the second message. *)
Definition second_known : World :=
  set_state
    (mkState None None [] (Some "12:01:yo") [] [] [] (Feat.set_separator true Feat.none))
    (initial_world {[ 0 := hello; 1 := yo ]} [[0; 1]]).

(** The leading fingerprint on record is that of the first message. *)
Definition first_known : World :=
  set_state
    (mkState None None [] (Some "12:00:hello alice") [] [] []
       (Feat.set_separator true Feat.none))
    (initial_world {[ 0 := hello; 1 := yo ]} [[0; 1]]).

(** The separator feature is on and nothing is on record yet. *)
Definition bare_page : World :=
  set_state
    (mkState None None [] None [] [] [] (Feat.set_separator true Feat.none))
    (initial_world {[ 0 := bare ]} [[0]]).

Definition arrival : list MutationRecord := [mkMutation [0] []].
Definition purge : list MutationRecord := [mkMutation [0] [5]].

(** A pinned message that names a watched item. *)
Definition pinned : Node :=
  applyMarkerStyle (message [] "12:00" "Bob" "selling" [item "Dragon Egg"]).

Definition pinned_page : World :=
  set_state
    (mkState None None [] None ["12:00:selling"] ["dragon egg"] []
       (Feat.set_keywords true (Feat.set_markers true Feat.none)))
    (initial_world {[ 0 := pinned ]} [[0]]).

(** The separator feature was on, with a leading fingerprint on record
    and one divider in the page. *)
Definition tracking : World :=
  set_state
    (mkState None None [] (Some "12:00:hello alice") [] [] []
       (Feat.set_separator true Feat.none))
    (initial_world {[ 0 := hello; 1 := yo; 2 := separator_element ]} [[2; 0; 1]]).

(** A page with one message whose profile link names [link_user],
    read by a user whose stored identity is [stored]. *)
Definition own_page (stored link_user : string) : World :=
  set_state
    (mkState (Some stored) None [] None [] [] []
       (Feat.set_highlighting true Feat.none))
    (initial_world {[ 0 := message [] "12:00" link_user "hi" [] ]} [[0]]).

Definition border_of (w : World) (r : nat) : option string :=
  border_value (style (elemData (node_of w r))).

(** 150 distinct fingerprints. *)
Definition fingerprints : list string :=
  map (λ n, "12:00:message " ++ pretty n) (seq 0 150).

End Sample.

(** A busy page: 150 messages, each of which names the reader and a
    watched item, with bodies that differ. *)
Module Crowd.

Definition message (n : nat) : Node :=
  Sample.message [] "12:00" "Bob" ("alice " ++ pretty n) [Sample.item "Dragon Egg"].

Definition batch : list nat := seq 0 150.

Definition page : World :=
  set_state
    (mkState (Some "Alice") None [] None [] ["dragon egg"] []
       (Feat.set_keywords true (Feat.set_mentions true Feat.none)))
    (initial_world (list_to_map (map (λ n, (n, message n)) batch)) [batch]).

Definition fingerprints : list string :=
  map (λ n, "12:00:alice " ++ pretty n) batch.

End Crowd.

(* ===================================================================== *)
(** * Facts about strings *)
(* ===================================================================== *)

(** Simplification stops at the string and element operations, so that a
    handler unfolds to its own control flow. *)
#[local] Arguments substring0 : simpl never.
#[local] Arguments includes : simpl never.
#[local] Arguments toLowerCase : simpl never.
#[local] Arguments trim : simpl never.
#[local] Arguments or_else : simpl never.
#[local] Arguments String.append : simpl never.
#[local] Arguments getMessageFingerprint : simpl never.
#[local] Arguments remember : simpl never.
#[local] Arguments normalizeUsername : simpl never.
#[local] Arguments match_user_name : simpl never.
#[local] Arguments querySelector : simpl never.
#[local] Arguments matchesKeywords : simpl never.
#[local] Arguments author_of : simpl never.
#[local] Arguments children : simpl never.
#[local] Arguments textContent : simpl never.
#[local] Arguments String.eqb : simpl never.
#[local] Arguments first_with_fingerprint : simpl never.
#[local] Arguments chatWasCleared : simpl never.
#[local] Arguments divider_precedes : simpl never.
#[local] Arguments insertSeparator : simpl never.

Section StringFacts.

Implicit Types s t : string.

Lemma trimStart_id s : head_is_space s = false → trimStart s = s.
Proof. destruct s as [|c r]; simpl; [done|]. by intros ->. Qed.

Lemma last_is_space_cons c s :
  s ≠ "" → last_is_space (String c s) = last_is_space s.
Proof. by destruct s. Qed.

Lemma trimEnd_id s : last_is_space s = false → trimEnd s = s.
Proof.
  induction s as [|c r IH]; [done|].
  destruct r as [|c' r'].
  - simpl. intros ->. done.
  - intros H. rewrite last_is_space_cons in H by done.
    change (trimEnd (String c (String c' r')))
      with (let r0 := trimEnd (String c' r') in
            if is_space c && is_empty r0 then "" else String c r0).
    rewrite (IH H). simpl. by rewrite andb_false_r.
Qed.

Lemma trim_id s :
  head_is_space s = false → last_is_space s = false → trim s = s.
Proof.
  intros Hh Hl. unfold trim. rewrite (trimStart_id _ Hh). by apply trimEnd_id.
Qed.

Lemma head_is_space_join ts b :
  head_is_space ts = false → head_is_space (ts ++ ":" ++ b) = false.
Proof. by destruct ts. Qed.

Lemma last_is_space_join ts b :
  last_is_space b = false → last_is_space (ts ++ ":" ++ b) = false.
Proof.
  intros Hb. induction ts as [|c r IH].
  - destruct b; [done|]. simpl. exact Hb.
  - change (String c r ++ ":" ++ b) with (String c (r ++ ":" ++ b)).
    rewrite last_is_space_cons; [done|]. by destruct r.
Qed.

Lemma join_inj_length ts1 ts2 b1 b2 :
  String.length ts1 = String.length ts2 →
  ts1 ++ ":" ++ b1 = ts2 ++ ":" ++ b2 → ts1 = ts2 ∧ b1 = b2.
Proof.
  revert ts2. induction ts1 as [|c r IH]; intros [|c' r'] Hlen Heq;
    simpl in *; try discriminate.
  - by inversion Heq.
  - inversion Heq; subst. destruct (IH r') as [-> ->]; [lia|done|done].
Qed.

Lemma join_inj_colon ts1 ts2 b1 b2 :
  contains_char ":" ts1 = false → contains_char ":" ts2 = false →
  ts1 ++ ":" ++ b1 = ts2 ++ ":" ++ b2 → ts1 = ts2 ∧ b1 = b2.
Proof.
  revert ts2. induction ts1 as [|c r IH]; intros [|c' r'] H1 H2 Heq;
    simpl in *.
  - by inversion Heq.
  - inversion Heq; subst. by rewrite Ascii.eqb_refl in H2.
  - inversion Heq; subst. by rewrite Ascii.eqb_refl in H1.
  - inversion Heq; subst.
    apply orb_false_iff in H1 as [_ H1]. apply orb_false_iff in H2 as [_ H2].
    destruct (IH r' H1 H2) as [-> ->]; done.
Qed.

End StringFacts.

(* ===================================================================== *)
(** * Facts about the insertion-ordered sets *)
(* ===================================================================== *)

Section SetFacts.

Local Open Scope list_scope.
Implicit Types s l : list string.

Lemma set_has_false x s : set_has x s = false ↔ x ∉ s.
Proof. unfold set_has. by rewrite bool_decide_eq_false. Qed.

Lemma set_add_length x s : length (set_add x s) ≤ S (length s).
Proof.
  unfold set_add. destruct (set_has x s); [lia|].
  rewrite length_app. simpl. lia.
Qed.

Lemma set_add_fresh x s : x ∉ s → set_add x s = s ++ [x].
Proof. intros H. unfold set_add. by rewrite (proj2 (set_has_false x s) H). Qed.

Lemma foldl_set_add_length l acc :
  length (foldl (λ a x, set_add x a) acc l) ≤ length acc + length l.
Proof.
  revert acc. induction l as [|x l IH]; intros acc; simpl; [lia|].
  specialize (IH (set_add x acc)). pose proof (set_add_length x acc). lia.
Qed.

Lemma set_from_array_length l : length (set_from_array l) ≤ length l.
Proof. unfold set_from_array. pose proof (foldl_set_add_length l []). simpl in *. lia. Qed.

Lemma foldl_set_add_NoDup l acc :
  NoDup (acc ++ l) → foldl (λ a x, set_add x a) acc l = acc ++ l.
Proof.
  revert acc. induction l as [|x l IH]; intros acc Hnd; simpl.
  - by rewrite app_nil_r.
  - assert (x ∉ acc) as Hx.
    { apply NoDup_app in Hnd as (_ & Hd & _). intros Hin.
      apply (Hd x Hin). left. }
    rewrite (set_add_fresh _ _ Hx). rewrite IH; rewrite <- ?app_assoc; done.
Qed.

Lemma set_from_array_NoDup l : NoDup l → set_from_array l = l.
Proof. intros H. unfold set_from_array. by rewrite foldl_set_add_NoDup. Qed.

Lemma slice_last_length n l : length (slice_last n l) ≤ n.
Proof. unfold slice_last. rewrite length_drop. lia. Qed.

(** One insertion never leaves more than the capacity behind, whatever
    the size before. *)
Lemma remember_length fp s :
  length s ≤ CONFIG.MAX_SEEN_MESSAGES →
  length (remember fp s) ≤ CONFIG.MAX_SEEN_MESSAGES.
Proof.
  intros Hs. unfold remember.
  destruct (Nat.ltb_spec CONFIG.MAX_SEEN_MESSAGES (length (set_add fp s))) as [H|H].
  - etransitivity; [apply set_from_array_length|]. apply slice_last_length.
  - exact H.
Qed.

Lemma remember_all_snoc fps fp :
  remember_all (fps ++ [fp]) = remember fp (remember_all fps).
Proof. unfold remember_all. by rewrite foldl_app. Qed.

Lemma remember_all_length fps :
  length (remember_all fps) ≤ CONFIG.MAX_SEEN_MESSAGES.
Proof.
  induction fps as [|fp fps IH] using rev_ind.
  - unfold CONFIG.MAX_SEEN_MESSAGES. simpl. lia.
  - rewrite remember_all_snoc. by apply remember_length.
Qed.

Lemma slice_last_snoc n l x :
  slice_last n (slice_last n l ++ [x]) = slice_last n (l ++ [x]).
Proof.
  unfold slice_last. rewrite !length_app, length_drop. simpl.
  destruct (decide (length l ≤ n)) as [Hle|Hgt].
  - replace (length l - n) with 0 by lia. rewrite drop_0. f_equal. lia.
  - destruct (decide (n = 0)) as [->|Hn].
    + rewrite !drop_ge; [done| |]; rewrite length_app, ?length_drop; simpl; lia.
    + rewrite drop_app_le by (rewrite length_drop; lia).
      rewrite drop_drop. rewrite (drop_app_le l) by lia. f_equal. f_equal. lia.
Qed.

Lemma slice_last_snoc_fits n l x :
  length (slice_last n l ++ [x]) ≤ n →
  slice_last n l ++ [x] = slice_last n (l ++ [x]).
Proof.
  unfold slice_last. rewrite !length_app, length_drop. simpl. intros H.
  rewrite drop_app_le by lia. f_equal. f_equal. lia.
Qed.

Lemma slice_last_NoDup n l : NoDup l → NoDup (slice_last n l).
Proof. intros H. exact (sublist_NoDup _ _ H (sublist_drop l _)). Qed.

Lemma slice_last_elem n l x : x ∈ slice_last n l → x ∈ l.
Proof. apply subseteq_drop. Qed.

Lemma remember_all_NoDup fps :
  NoDup fps → remember_all fps = slice_last CONFIG.MAX_SEEN_MESSAGES fps.
Proof.
  induction fps as [|fp fps IH] using rev_ind; intros Hnd; [done|].
  rewrite remember_all_snoc.
  pose proof Hnd as Hnd'.
  apply NoDup_app in Hnd as (Hnd & Hdisj & _).
  rewrite (IH Hnd). unfold remember.
  assert (fp ∉ slice_last CONFIG.MAX_SEEN_MESSAGES fps) as Hfresh.
  { intros Hin. apply slice_last_elem in Hin. apply (Hdisj fp Hin). left. }
  rewrite (set_add_fresh _ _ Hfresh).
  destruct (Nat.ltb_spec CONFIG.MAX_SEEN_MESSAGES
              (length (slice_last CONFIG.MAX_SEEN_MESSAGES fps ++ [fp]))) as [H|H].
  - rewrite slice_last_snoc. apply set_from_array_NoDup.
    by apply slice_last_NoDup.
  - by apply slice_last_snoc_fits.
Qed.

End SetFacts.

(* ===================================================================== *)
(** * Facts about computations *)
(* ===================================================================== *)

Section MonadFacts.

Context {A B : Type}.

Lemma total_ret (a : A) : total (ret a).
Proof. intros w. by exists a, w. Qed.

Lemma total_gets (f : World → A) : total (gets f).
Proof. intros w. by exists (f w), w. Qed.

Lemma total_bind (m : M A) (f : A → M B) :
  total m → (∀ a, total (f a)) → total (bind m f).
Proof.
  intros Hm Hf w. destruct (Hm w) as (a & w' & E).
  destruct (Hf a w') as (b & w'' & E'). exists b, w''.
  unfold bind. by rewrite E.
Qed.

End MonadFacts.

Lemma total_modify (f : World → World) : total (modify f).
Proof. intros w. by exists tt, (f w). Qed.

Lemma total_for_of {A} (xs : list A) (body : A → M unit) :
  (∀ x, total (body x)) → total (for_of xs body).
Proof.
  intros Hb. induction xs as [|x r IH]; simpl.
  - apply total_ret.
  - apply total_bind; [apply Hb|]. intros _. exact IH.
Qed.

Lemma total_try_catch {A} (m : M A) (h : string → M A) :
  (∀ e, total (h e)) → total (try_catch m h).
Proof.
  intros Hh w. unfold returns, try_catch.
  destruct (m w) as [[a|e] w'] eqn:E; [by exists a, w'|]. apply Hh.
Qed.

Ltac total_step :=
  first
    [ apply total_ret | apply total_gets | apply total_modify
    | apply total_for_of; intros ?
    | apply total_bind; [|intros ?] ].

Ltac total_auto :=
  repeat first
    [ total_step
    | progress unfold modify_state, modify_features, showNotification,
        console_error, mutate, deref
    | case_match ].

(** The three matchers and the pin manager have no statement that can
    throw. *)
Lemma checkForMentions_total messages : total (checkForMentions messages).
Proof. unfold checkForMentions, checkForMentions_message. total_auto. Qed.

Lemma highlightOwnMessages_total messages : total (highlightOwnMessages messages).
Proof. unfold highlightOwnMessages, highlightOwnMessages_message. total_auto. Qed.

Lemma addMarkerButtons_total messages : total (addMarkerButtons messages).
Proof. unfold addMarkerButtons, addMarkerButtons_message. total_auto. Qed.

Lemma applyKeywordHighlight_total msg kw : total (applyKeywordHighlight msg kw).
Proof. unfold applyKeywordHighlight. total_auto. Qed.

Lemma checkForKeywords_total messages : total (checkForKeywords messages).
Proof.
  unfold checkForKeywords, checkForKeywords_message, applyKeywordHighlight.
  total_auto.
Qed.

(* ===================================================================== *)
(** * Facts about elements *)
(* ===================================================================== *)

Section DomFacts.

Local Open Scope list_scope.
Implicit Types n m : Node.
Implicit Types ks : list Node.

Lemma childNodes_with_data f n : childNodes (with_data f n) = childNodes n.
Proof. by destruct n. Qed.

Lemma children_with_data f n : children (with_data f n) = children n.
Proof. unfold children. by rewrite childNodes_with_data. Qed.

Lemma children_style_assign p v n : children (style_assign p v n) = children n.
Proof. apply children_with_data. Qed.

Lemma children_classList_add c n : children (classList_add c n) = children n.
Proof. apply children_with_data. Qed.

Lemma childNodes_style_assign p v n : childNodes (style_assign p v n) = childNodes n.
Proof. apply childNodes_with_data. Qed.

Lemma childNodes_classList_add c n : childNodes (classList_add c n) = childNodes n.
Proof. apply childNodes_with_data. Qed.

Lemma is_element_with_data f n : is_element (with_data f n) = is_element n.
Proof. by destruct n. Qed.

Lemma is_element_appendChild c n : is_element (appendChild c n) = is_element n.
Proof. by destruct n. Qed.

Lemma childNodes_appendChild c n :
  is_element n = true → childNodes (appendChild c n) = childNodes n ++ [c].
Proof. by destruct n. Qed.

(** Appending leaves the element children that were there in place. *)
Lemma children_appendChild_lookup c n i :
  i < length (children n) →
  children (appendChild c n) !! i = children n !! i.
Proof.
  destruct n as [|d ks]; simpl; [lia|]. unfold children. simpl.
  rewrite List.filter_app. intros Hi. by rewrite lookup_app_l.
Qed.

Lemma update_last_snoc f ks k : update_last f (ks ++ [k]) = ks ++ [f k].
Proof.
  induction ks as [|a r IH]; [done|].
  simpl. rewrite IH. by destruct r.
Qed.

Lemma filter_update_child i f ks :
  (∀ k, is_element k = true → is_element (f k) = true) →
  List.filter is_element (update_child i f ks)
  = alter f i (List.filter is_element ks).
Proof.
  intros Hf. revert i. induction ks as [|k r IH]; intros i; [done|].
  simpl. destruct (is_element k) eqn:Ek.
  - destruct i as [|i]; simpl.
    + by rewrite (Hf k Ek).
    + rewrite Ek. simpl. by rewrite IH.
  - simpl. rewrite Ek. apply IH.
Qed.

Lemma children_with_child i f n :
  (∀ k, is_element k = true → is_element (f k) = true) →
  children (with_child i f n) = alter f i (children n).
Proof.
  intros Hf. destruct n as [|d ks]; [done|]. by apply filter_update_child.
Qed.

(** The fingerprint reads the element children at positions 0 and 5 and
    nothing else. *)
Lemma fingerprint_ext m1 m2 :
  children m1 !! 0 = children m2 !! 0 →
  children m1 !! 5 = children m2 !! 5 →
  getMessageFingerprint m1 = getMessageFingerprint m2.
Proof.
  intros H0 H5. unfold getMessageFingerprint, timestampText, bodyText.
  by rewrite H0, H5.
Qed.

Lemma position_5_length n : is_Some (children n !! 5) → 5 < length (children n).
Proof. intros [x Hx]. by apply lookup_lt_Some in Hx. Qed.

Lemma fingerprint_style_assign p v n :
  getMessageFingerprint (style_assign p v n) = getMessageFingerprint n.
Proof. apply fingerprint_ext; by rewrite children_style_assign. Qed.

Lemma fingerprint_classList_add c n :
  getMessageFingerprint (classList_add c n) = getMessageFingerprint n.
Proof. apply fingerprint_ext; by rewrite children_classList_add. Qed.

Lemma fingerprint_appendChild c n :
  is_Some (children n !! 5) →
  getMessageFingerprint (appendChild c n) = getMessageFingerprint n.
Proof.
  intros H%position_5_length.
  apply fingerprint_ext; apply children_appendChild_lookup; lia.
Qed.

Lemma fingerprint_with_child_2 f n :
  (∀ k, is_element k = true → is_element (f k) = true) →
  getMessageFingerprint (with_child 2 f n) = getMessageFingerprint n.
Proof.
  intros Hf. apply fingerprint_ext; rewrite (children_with_child _ _ _ Hf);
    by rewrite list_lookup_alter_ne.
Qed.

Lemma fingerprint_highlight_style n :
  getMessageFingerprint (highlight_style n) = getMessageFingerprint n.
Proof. unfold highlight_style. by rewrite !fingerprint_style_assign. Qed.

Lemma fingerprint_applyMarkerStyle n :
  getMessageFingerprint (applyMarkerStyle n) = getMessageFingerprint n.
Proof.
  unfold applyMarkerStyle.
  by rewrite !fingerprint_style_assign, fingerprint_classList_add.
Qed.

Lemma fingerprint_keyword_style kw n :
  getMessageFingerprint (keyword_style kw n) = getMessageFingerprint n.
Proof.
  unfold keyword_style. rewrite fingerprint_with_child_2.
  - by rewrite !fingerprint_style_assign, fingerprint_classList_add.
  - intros k Hk. by rewrite is_element_appendChild.
Qed.

Lemma childNodes_applyMarkerStyle n : childNodes (applyMarkerStyle n) = childNodes n.
Proof.
  unfold applyMarkerStyle.
  by rewrite !childNodes_style_assign, childNodes_classList_add.
Qed.

Lemma children_with_last_child_lookup f n c i :
  is_element n = true →
  i < length (children n) →
  childNodes (with_last_child f (applyMarkerStyle (appendChild c n)))
  = childNodes n ++ [f c] ∧
  children (with_last_child f (applyMarkerStyle (appendChild c n))) !! i
  = children n !! i.
Proof.
  intros Hn Hi.
  assert (childNodes (with_last_child f (applyMarkerStyle (appendChild c n)))
          = childNodes n ++ [f c]) as E.
  { pose proof (childNodes_applyMarkerStyle (appendChild c n)) as E.
    rewrite (childNodes_appendChild _ _ Hn) in E.
    destruct (applyMarkerStyle (appendChild c n)) as [|d ks] eqn:Em; simpl in *.
    - by destruct (childNodes n).
    - subst ks. by rewrite update_last_snoc. }
  split; [exact E|]. unfold children at 1. rewrite E, List.filter_app.
  by rewrite lookup_app_l.
Qed.

End DomFacts.

(* ===================================================================== *)
(** * Facts about the store *)
(* ===================================================================== *)

Section StoreFacts.

Implicit Types w : World.
Implicit Types r : nat.

Lemma node_of_Some w r m : heap w !! r = Some m → node_of w r = m.
Proof. unfold node_of. by intros ->. Qed.

Lemma fresh_ref_new w r m : heap w !! r = Some m → fresh (dom (heap w)) ≠ r.
Proof.
  intros H E. apply (is_fresh (dom (heap w))). rewrite E.
  apply elem_of_dom. by eexists.
Qed.

(** [insertSeparator] does not touch the message it is given, whether
    it returns or throws. *)
Lemma heap_insertSeparator w r m :
  heap w !! r = Some m → heap (exec (insertSeparator r) w) !! r = Some m.
Proof.
  intros H. unfold exec, insertSeparator, bind, gets. simpl.
  destruct (divider_precedes w r); simpl; [done|].
  unfold parentElement. simpl.
  destruct (list_find _ (containers w)) as [[p c]|]; simpl;
    (rewrite lookup_insert_ne; [done|by eapply fresh_ref_new]).
Qed.

Lemma heap_highlightOwnMessages_message w u r m :
  heap w !! r = Some m →
  heap (exec (highlightOwnMessages_message u r) w) !! r = Some m
  ∨ heap (exec (highlightOwnMessages_message u r) w) !! r = Some (highlight_style m).
Proof.
  intros H. unfold exec, highlightOwnMessages_message, bind, deref, gets. simpl.
  repeat case_match; simpl; auto.
  right. by rewrite lookup_alter_eq, H.
Qed.

Lemma heap_applyKeywordHighlight w kw r m :
  heap w !! r = Some m →
  heap (exec (applyKeywordHighlight r kw) w) !! r = Some m
  ∨ heap (exec (applyKeywordHighlight r kw) w) !! r = Some (keyword_style kw m).
Proof.
  intros H. unfold exec, applyKeywordHighlight, bind, deref, gets. simpl.
  case_match; simpl; auto. right. by rewrite lookup_alter_eq, H.
Qed.

Lemma is_element_position_5 m : is_Some (children m !! 5) → is_element m = true.
Proof. destruct m; [|done]. intros [x Hx]. done. Qed.

Lemma fingerprint_addMarkerButtons_message w r m :
  heap w !! r = Some m →
  is_Some (children m !! 5) →
  getMessageFingerprint (node_of (exec (addMarkerButtons_message r) w) r)
  = getMessageFingerprint m.
Proof.
  intros H H5. pose proof (position_5_length _ H5) as Hlen.
  pose proof (is_element_position_5 _ H5) as Hel.
  unfold exec, addMarkerButtons_message, bind, deref, gets, mutate, modify.
  simpl. rewrite (node_of_Some _ _ _ H).
  destruct (querySelector is_marker_button m); simpl.
  { by rewrite (node_of_Some _ _ _ H). }
  set (m1 := style_assign "position" "relative" m).
  assert (is_element m1 = true) as Hel1
    by (unfold m1, style_assign; by rewrite is_element_with_data).
  assert (children m1 = children m) as Hc1 by apply children_style_assign.
  destruct (set_has _ _); simpl; unfold node_of; simpl;
    rewrite !lookup_alter_eq, H; simpl; fold m1.
  - apply fingerprint_ext.
    + rewrite (proj2 (children_with_last_child_lookup _ m1 _ 0 Hel1 ltac:(rewrite Hc1; lia))).
      by rewrite Hc1.
    + rewrite (proj2 (children_with_last_child_lookup _ m1 _ 5 Hel1 ltac:(rewrite Hc1; lia))).
      by rewrite Hc1.
  - rewrite fingerprint_appendChild by (by rewrite Hc1).
    apply fingerprint_style_assign.
Qed.

End StoreFacts.

Lemma for_of_invariant {A} (P : World → Prop) (xs : list A) (body : A → M unit) :
  (∀ x w, P w → P (exec (body x) w)) →
  ∀ w, P w → P (exec (for_of xs body) w).
Proof.
  intros Hb. induction xs as [|x r IH]; intros w Hw; [done|].
  specialize (Hb x w Hw). unfold exec in *. simpl. unfold bind.
  destruct (body x w) as [[[]|e] w']; simpl in *; [by apply IH|done].
Qed.

Lemma checkForMentions_bound messages w :
  length (seenMessages (state w)) ≤ CONFIG.MAX_SEEN_MESSAGES →
  length (seenMessages (state (exec (checkForMentions messages) w)))
  ≤ CONFIG.MAX_SEEN_MESSAGES.
Proof.
  intros Hw. unfold checkForMentions, exec, bind, gets. simpl.
  destruct (_ || _); [done|].
  apply (for_of_invariant
           (λ w, length (seenMessages (state w)) ≤ CONFIG.MAX_SEEN_MESSAGES));
    [|done].
  clear. intros msg w' Hw'.
  unfold exec, checkForMentions_message, bind, deref, gets. simpl.
  repeat case_match; simpl; try done. by apply remember_length.
Qed.

Lemma checkForKeywords_bound messages w :
  length (keywordMatches (state w)) ≤ CONFIG.MAX_SEEN_MESSAGES →
  length (keywordMatches (state (exec (checkForKeywords messages) w)))
  ≤ CONFIG.MAX_SEEN_MESSAGES.
Proof.
  intros Hw. unfold checkForKeywords, exec, bind, gets. simpl.
  destruct (_ || _); [done|].
  apply (for_of_invariant
           (λ w, length (keywordMatches (state w)) ≤ CONFIG.MAX_SEEN_MESSAGES));
    [|done].
  clear. intros msg w' Hw'.
  unfold exec, checkForKeywords_message, applyKeywordHighlight, bind, deref, gets.
  simpl.
  repeat case_match; unfold ret, mutate, modify in *; simplify_eq/=;
    try done; by apply remember_length.
Qed.

(* ===================================================================== *)
(** * Identity normalization *)
(* ===================================================================== *)

(** C2, as amended.  Normalization trims, strips one leading "@" and one
    trailing ":", case-folds and turns "+" into a space.  It maps
    "PlayerOne" and "@PlayerOne:" to "playerone", and it maps
    "player+one", "Player One" and "@Player+One:" to "player one".  A
    message whose profile link names "Player+One" is marked as own for
    the stored identity "Player One" and is not for "PlayerOne". *)
Theorem normalizeUsername_examples :
  normalizeUsername "PlayerOne" = "playerone"
  ∧ normalizeUsername "@PlayerOne:" = "playerone"
  ∧ normalizeUsername "player+one" = "player one"
  ∧ normalizeUsername "Player One" = "player one"
  ∧ normalizeUsername "@Player+One:" = "player one"
  ∧ Sample.border_of
      (exec (highlightOwnMessages [0]) (Sample.own_page "Player One" "Player+One")) 0
    = Some CONFIG.HIGHLIGHT_BORDER
  ∧ Sample.border_of
      (exec (highlightOwnMessages [0]) (Sample.own_page "PlayerOne" "Player+One")) 0
    = None.
Proof. repeat split; vm_compute; reflexivity. Qed.

(** C2, the claim as stated fails: "PlayerOne" and "player+one" do not
    normalize to the same string, since the "+" becomes a space that
    "PlayerOne" does not have. *)
Lemma normalizeUsername_plus_is_a_space :
  normalizeUsername "PlayerOne" ≠ normalizeUsername "player+one".
Proof. vm_compute. discriminate. Qed.

(* ===================================================================== *)
(** * Fingerprints *)
(* ===================================================================== *)

(** C3, as amended.  The fingerprint is a function of the extracted
    timestamp text and body text: equal fields give equal fingerprints.
    Equal fingerprints give equal fields only for messages whose joined
    text has no blank for [trim] to remove and whose timestamps locate the
    separator (same length, or no colon in either). *)
Theorem fingerprint_determined_by_fields (m1 m2 : Node) :
  (timestampText m1 = timestampText m2 → bodyText m1 = bodyText m2 →
   getMessageFingerprint m1 = getMessageFingerprint m2)
  ∧ (getMessageFingerprint m1 = getMessageFingerprint m2 →
     untrimmed m1 → untrimmed m2 →
     separator_located (timestampText m1) (timestampText m2) →
     timestampText m1 = timestampText m2 ∧ bodyText m1 = bodyText m2).
Proof.
  split.
  - intros Ht Hb. unfold getMessageFingerprint. by rewrite Ht, Hb.
  - unfold getMessageFingerprint. intros Heq [Hh1 Hl1] [Hh2 Hl2] Hsep.
    rewrite !trim_id in Heq
      by (by apply head_is_space_join || by apply last_is_space_join).
    destruct Hsep as [Hlen|[Hc1 Hc2]].
    + by apply join_inj_length.
    + by apply join_inj_colon.
Qed.

Lemma fingerprint_determined_by_fields_witness :
  timestampText Sample.hello = timestampText (applyMarkerStyle Sample.hello)
  ∧ bodyText Sample.hello = bodyText (applyMarkerStyle Sample.hello).
Proof.
  apply (proj2 (fingerprint_determined_by_fields
                  Sample.hello (applyMarkerStyle Sample.hello))).
  - vm_compute. reflexivity.
  - split; vm_compute; reflexivity.
  - split; vm_compute; reflexivity.
  - left. vm_compute. reflexivity.
Defined.

(** C3, the claim as stated fails: two messages with the same timestamp
    whose bodies differ by a trailing blank have the same fingerprint. *)
Lemma fingerprint_collision :
  getMessageFingerprint Sample.hi = getMessageFingerprint Sample.hi_blank
  ∧ bodyText Sample.hi ≠ bodyText Sample.hi_blank.
Proof. split; vm_compute; [reflexivity|discriminate]. Qed.

(* ===================================================================== *)
(** * Annotations and the fingerprint *)
(* ===================================================================== *)

(** C10.  On a message that has an element child at position 5, none of
    the annotations changes the fingerprint: adding the pin button (with
    the pin styling restored on a message pinned before), pin styling,
    self-highlight styling, keyword styling with its badge on the child
    at position 2, and inserting a divider before the message. *)
Theorem annotations_keep_fingerprint (w : World) (r : nat) (m : Node) :
  heap w !! r = Some m →
  is_Some (children m !! 5) →
  getMessageFingerprint (node_of (exec (addMarkerButtons_message r) w) r)
  = getMessageFingerprint m
  ∧ getMessageFingerprint (applyMarkerStyle m) = getMessageFingerprint m
  ∧ (∀ u, getMessageFingerprint
            (node_of (exec (highlightOwnMessages_message u r) w) r)
          = getMessageFingerprint m)
  ∧ (∀ kw, getMessageFingerprint (node_of (exec (applyKeywordHighlight r kw) w) r)
           = getMessageFingerprint m)
  ∧ getMessageFingerprint (node_of (exec (insertSeparator r) w) r)
    = getMessageFingerprint m.
Proof.
  intros H H5. split_and!.
  - by apply fingerprint_addMarkerButtons_message.
  - apply fingerprint_applyMarkerStyle.
  - intros u. destruct (heap_highlightOwnMessages_message w u r m H) as [E|E];
      rewrite (node_of_Some _ _ _ E); [done|apply fingerprint_highlight_style].
  - intros kw. destruct (heap_applyKeywordHighlight w kw r m H) as [E|E];
      rewrite (node_of_Some _ _ _ E); [done|apply fingerprint_keyword_style].
  - by rewrite (node_of_Some _ _ _ (heap_insertSeparator w r m H)).
Qed.

Lemma annotations_keep_fingerprint_witness :
  getMessageFingerprint
    (node_of (exec (addMarkerButtons_message 0) Sample.first_known) 0)
  = getMessageFingerprint Sample.hello
  ∧ getMessageFingerprint (node_of (exec (insertSeparator 0) Sample.first_known) 0)
    = getMessageFingerprint Sample.hello.
Proof.
  destruct (annotations_keep_fingerprint Sample.first_known 0 Sample.hello)
    as (H1 & _ & _ & _ & H5).
  - vm_compute. reflexivity.
  - vm_compute. eexists. reflexivity.
  - split; [exact H1|exact H5].
Defined.

(* ===================================================================== *)
(** * Pinned messages and keyword matches *)
(* ===================================================================== *)

Lemma is_empty_false s : s ≠ "" → is_empty s = false.
Proof. by destruct s. Qed.

Lemma matchesKeywords_Some s tc kw :
  matchesKeywords s tc = Some kw → (length (keywords s) =? 0) = false.
Proof. unfold matchesKeywords. by destruct (length (keywords s) =? 0). Qed.

(** C5.  When the keyword matcher meets, for the first time, a keyword
    match on a message that carries the pin class, it goes on with the
    rest of the batch from a world in which the elements and containers
    are as before (pin styling kept, no keyword styling, no badge), the
    fingerprint is on record and one keyword notification naming the
    keyword and the author has been emitted. *)
Theorem pinned_message_keyword_match
    (w : World) (msg : nat) (rest : list nat) (m tc : Node) (kw : string) :
  Feat.keywords (features (state w)) = true →
  heap w !! msg = Some m →
  hasClass "chat-marked" m = true →
  children m !! 5 = Some tc →
  matchesKeywords (state w) tc = Some kw →
  kw ≠ "" →
  set_has (getMessageFingerprint m) (keywordMatches (state w)) = false →
  let w' := keyword_alert (getMessageFingerprint m) kw (author_of m) w in
  checkForKeywords (msg :: rest) w = checkForKeywords rest w'
  ∧ heap w' = heap w
  ∧ containers w' = containers w
  ∧ notifications w'
    = (notifications w ++
         [(("Keyword Alert: " ++ double_quote ++ kw ++ double_quote)%string,
           author_of m)])%list.
Proof.
  intros Hon Hm Hpin H5 Hkw Hne Hnew w'. split_and!; try done.
  pose proof (matchesKeywords_Some _ _ _ Hkw) as Hlen.
  unfold checkForKeywords, bind, gets. simpl. rewrite Hon, Hlen. simpl.
  unfold bind at 1. unfold checkForKeywords_message at 1.
  unfold bind, deref, gets, modify_state, modify, applyKeywordHighlight,
    showNotification. simpl.
  rewrite (node_of_Some _ _ _ Hm), H5, Hkw, (is_empty_false _ Hne), Hnew. simpl.
  unfold bind, deref, gets, node_of. simpl. rewrite Hm. simpl. rewrite Hpin.
  reflexivity.
Qed.

Lemma pinned_message_keyword_match_witness :
  checkForKeywords [0] Sample.pinned_page
  = (Normal tt, keyword_alert "12:00:selling" "dragon egg" "Bob" Sample.pinned_page).
Proof.
  assert ("dragon egg" ≠ "") as Hne by discriminate.
  destruct (pinned_message_keyword_match Sample.pinned_page 0 [] Sample.pinned
              (Sample.body "selling" [Sample.item "Dragon Egg"]) "dragon egg"
              ltac:(vm_compute; reflexivity) ltac:(vm_compute; reflexivity)
              ltac:(vm_compute; reflexivity) ltac:(vm_compute; reflexivity)
              ltac:(vm_compute; reflexivity) Hne ltac:(vm_compute; reflexivity))
    as (H & _).
  rewrite H. vm_compute. reflexivity.
Defined.

(* ===================================================================== *)
(** * Messages that lack a field *)
(* ===================================================================== *)

Lemma checkForMentions_skip w msg rest :
  children (node_of w msg) !! 5 = None →
  checkForMentions (msg :: rest) w = checkForMentions rest w.
Proof.
  intros H. unfold checkForMentions, bind, gets. simpl.
  destruct (_ || _); [done|]. simpl.
  unfold bind at 1. unfold checkForMentions_message at 1.
  unfold bind, deref, gets. simpl. by rewrite H.
Qed.

Lemma checkForKeywords_skip w msg rest :
  children (node_of w msg) !! 5 = None →
  checkForKeywords (msg :: rest) w = checkForKeywords rest w.
Proof.
  intros H. unfold checkForKeywords, bind, gets. simpl.
  destruct (_ || _); [done|]. simpl.
  unfold bind at 1. unfold checkForKeywords_message at 1.
  unfold bind, deref, gets. simpl. by rewrite H.
Qed.

Lemma highlightOwnMessages_skip w msg rest :
  querySelector is_profile_link (node_of w msg) = None →
  highlightOwnMessages (msg :: rest) w = highlightOwnMessages rest w.
Proof.
  intros H. unfold highlightOwnMessages, bind, gets. simpl.
  destruct (_ || _); [done|]. simpl.
  unfold bind at 1. unfold highlightOwnMessages_message at 1.
  unfold bind, deref, gets. simpl. by rewrite H.
Qed.

Lemma missing_position_5 (m : Node) :
  children m !! 0 = None ∨ children m !! 2 = None ∨ children m !! 5 = None →
  children m !! 5 = None.
Proof.
  intros H. apply lookup_ge_None.
  destruct H as [H|[H|H]]; apply lookup_ge_None in H; lia.
Qed.

(** C9, as amended.  The mention matcher and the keyword matcher skip a
    message that lacks the child at position 0, 2 or 5 (each of which
    leaves position 5 empty), the self-highlighter skips a message
    without a profile link, and each goes on with the rest of the batch.
    These three handlers and the pin manager return from every world.
    The fingerprint of such a message reads the missing body as the empty
    string, so the session marker and the pin manager still compare it. *)
Theorem malformed_messages (w : World) (msg : nat) (rest : list nat) :
  let m := node_of w msg in
  (children m !! 0 = None ∨ children m !! 2 = None ∨ children m !! 5 = None →
   checkForMentions (msg :: rest) w = checkForMentions rest w
   ∧ checkForKeywords (msg :: rest) w = checkForKeywords rest w
   ∧ getMessageFingerprint m = trim (timestampText m ++ ":"))
  ∧ (querySelector is_profile_link m = None →
     highlightOwnMessages (msg :: rest) w = highlightOwnMessages rest w)
  ∧ (∀ messages,
       total (checkForMentions messages) ∧ total (highlightOwnMessages messages)
       ∧ total (addMarkerButtons messages) ∧ total (checkForKeywords messages)).
Proof.
  intros m. split_and!.
  - intros H%missing_position_5. split_and!.
    + by apply checkForMentions_skip.
    + by apply checkForKeywords_skip.
    + unfold getMessageFingerprint, bodyText. by rewrite H.
  - apply highlightOwnMessages_skip.
  - intros messages. split_and!.
    + apply checkForMentions_total.
    + apply highlightOwnMessages_total.
    + apply addMarkerButtons_total.
    + apply checkForKeywords_total.
Qed.

Lemma malformed_messages_witness :
  checkForMentions [0] Sample.bare_page = checkForMentions [] Sample.bare_page
  ∧ highlightOwnMessages [0] Sample.bare_page
    = highlightOwnMessages [] Sample.bare_page.
Proof.
  destruct (malformed_messages Sample.bare_page 0 []) as (H1 & H2 & _).
  split.
  - apply H1. left. vm_compute. reflexivity.
  - apply H2. vm_compute. reflexivity.
Defined.

(** C9, the claim as stated fails for the session marker: a message
    element without children leads a batch and is put on record with the
    fingerprint ":"; when it comes back in a batch with removed nodes it
    matches the record, and a divider is inserted before it. *)
Lemma malformed_message_gets_divider :
  let w := exec (checkForSessionChange [0] Sample.arrival ;;
                 checkForSessionChange [0] Sample.purge) Sample.bare_page in
  children Sample.bare !! 0 = None
  ∧ children Sample.bare !! 5 = None
  ∧ dividers Sample.bare_page = []
  ∧ containers w = [[1; 0]]
  ∧ dividers w = [1].
Proof. vm_compute. repeat split; reflexivity. Qed.

(* ===================================================================== *)
(** * The dispatcher *)
(* ===================================================================== *)

Lemma process_features_run_all messages mutations w :
  process_features messages mutations w
  = run_all (handlers messages mutations) w.
Proof.
  unfold process_features, handlers, run_all, bind.
  repeat (case_match; try done). by destruct a3.
Qed.

Lemma run_all_thrown (finished skipped : list (M unit)) (h : M unit) w w1 w2 e :
  run_all finished w = (Normal tt, w1) →
  h w1 = (Thrown e, w2) →
  run_all (finished ++ h :: skipped) w = (Thrown e, w2).
Proof.
  revert w. induction finished as [|g r IH]; intros w Hrun Hh; simpl in *.
  - unfold ret in Hrun. simplify_eq. unfold bind. by rewrite Hh.
  - unfold bind in *. destruct (g w) as [[[]|e'] w'] eqn:Eg; [|done].
    by apply IH.
Qed.

(** C1, as amended.  The five handler calls of a batch sit in one [try]
    block.  The dispatcher returns whatever the handlers do.  When a
    handler throws, the handlers before it have run, the handlers after
    it are not invoked for that batch, and the error is logged; when none
    throws, all five have run in dispatch order. *)
Theorem dispatcher_single_try (mutations : list MutationRecord) (w : World) :
  let messages := newMessages w mutations in
  messages ≠ [] →
  returns (handleChatMutations mutations) w
  ∧ (∀ finished h skipped e w1 w2,
       handlers messages mutations = (finished ++ h :: skipped)%list →
       run_all finished w = (Normal tt, w1) →
       h w1 = (Thrown e, w2) →
       handleChatMutations mutations w
       = (Normal tt, exec (console_error (dispatch_error e)) w2))
  ∧ (∀ w', run_all (handlers messages mutations) w = (Normal tt, w') →
           handleChatMutations mutations w = (Normal tt, w')).
Proof.
  intros messages Hne.
  assert ((length messages =? 0) = false) as Hlen.
  { destruct messages; [done|]. done. }
  split_and!.
  - unfold handleChatMutations. apply total_bind; [apply total_gets|].
    intros ms. destruct (length ms =? 0); [apply total_ret|].
    apply total_try_catch. intros e. apply total_modify.
  - intros finished h skipped e w1 w2 Hsplit Hrun Hh.
    unfold handleChatMutations, bind, gets. simpl. fold messages.
    rewrite Hlen. unfold try_catch.
    rewrite process_features_run_all, Hsplit.
    by rewrite (run_all_thrown _ _ _ _ _ _ _ Hrun Hh).
  - intros w' Hrun.
    unfold handleChatMutations, bind, gets. simpl. fold messages.
    rewrite Hlen. unfold try_catch.
    by rewrite process_features_run_all, Hrun.
Qed.

Lemma dispatcher_single_try_witness :
  ∃ w2,
    checkForSessionChange [0; 1] Sample.refresh
      (exec (checkForMentions [0; 1] ;; highlightOwnMessages [0; 1])
         Sample.detached_page)
    = (Thrown "TypeError: beforeMessage.parentElement is null", w2)
    ∧ handleChatMutations Sample.refresh Sample.detached_page
      = (Normal tt,
         exec (console_error
                 (dispatch_error "TypeError: beforeMessage.parentElement is null"))
           w2).
Proof.
  assert (newMessages Sample.detached_page Sample.refresh ≠ []) as Hne
    by (vm_compute; discriminate).
  destruct (dispatcher_single_try Sample.refresh Sample.detached_page Hne)
    as (_ & H & _).
  eexists. split; [vm_compute; reflexivity|].
  apply (H [checkForMentions [0; 1]; highlightOwnMessages [0; 1]]
           (checkForSessionChange [0; 1] Sample.refresh)
           [addMarkerButtons [0; 1]; checkForKeywords [0; 1]]
           _
           (exec (checkForMentions [0; 1] ;; highlightOwnMessages [0; 1])
              Sample.detached_page)).
  - assert (newMessages Sample.detached_page Sample.refresh = [0; 1]) as ->
      by (vm_compute; reflexivity).
    reflexivity.
  - vm_compute. reflexivity.
  - vm_compute. reflexivity.
Defined.

(** C1, the claim as stated fails.  Two messages arrive detached in a
    batch with removed nodes while every feature is on; the session marker
    finds the recorded fingerprint and throws in [insertSeparator].  The
    pin manager and the keyword matcher are then not invoked: the message
    gets no pin button and no keyword notification, although it names a
    watched item.  With every handler in a [try] of its own both would
    have run. *)
Lemma thrown_handler_skips_later_handlers :
  let w := exec (handleChatMutations Sample.refresh) Sample.detached_page in
  let w_isolated :=
    exec (handleChatMutations_per_handler Sample.refresh) Sample.detached_page in
  features (state Sample.detached_page) = Sample.all_on
  ∧ length (console_errors w) = 1
  ∧ querySelector is_marker_button (node_of w 0) = None
  ∧ notifications w = [("You were mentioned!", "Bob: hello alice")]
  ∧ is_Some (querySelector is_marker_button (node_of w_isolated 0))
  ∧ length (notifications w_isolated) = 2.
Proof. vm_compute. repeat split; try reflexivity. eexists. reflexivity. Qed.

(* ===================================================================== *)
(** * Stopping the session marker *)
(* ===================================================================== *)

Lemma elemData_removeDescendants p n :
  elemData (removeDescendants p n) = elemData n.
Proof. by destruct n. Qed.

Lemma is_separator_alter_fold (l : list nat) (h : gmap nat Node) (r : nat) :
  is_separator
    (default (Text "")
       (foldr (λ r h, alter (removeDescendants is_separator) r h) h l !! r))
  = is_separator (default (Text "") (h !! r)).
Proof.
  induction l as [|a l IH]; [done|]. simpl.
  destruct (decide (a = r)) as [->|Hne].
  - rewrite lookup_alter_eq. rewrite <- IH.
    destruct (foldr _ h l !! r) as [n|]; [|done]. simpl.
    unfold is_separator, hasClass. by rewrite elemData_removeDescendants.
  - by rewrite lookup_alter_ne.
Qed.

Lemma filter_none {A} (f : A → bool) (l : list A) :
  Forall (λ x, f x = false) l → List.filter f l = [].
Proof.
  induction 1 as [|x l Hx _ IH]; [done|]. simpl. by rewrite Hx.
Qed.

(** After [stopSeparator] no divider is left in the document. *)
Lemma stopSeparator_removes_dividers w : dividers (exec stopSeparator w) = [].
Proof.
  unfold dividers, querySelectorAll. apply filter_none.
  apply List.Forall_forall. intros r Hr. simpl in *.
  unfold node_of. simpl. rewrite is_separator_alter_fold.
  apply List.in_concat in Hr as (c & Hc & Hrc).
  apply List.in_map_iff in Hc as (c0 & <- & _).
  apply List.filter_In in Hrc as [_ Hrc].
  by apply negb_true_iff in Hrc.
Qed.

(** [stopSeparator] switches the feature off and leaves the rest of the
    state, the recorded leading fingerprint included, as it was. *)
Lemma stopSeparator_state w :
  state (exec stopSeparator w)
  = set_features (Feat.set_separator false (features (state w))) (state w).
Proof. reflexivity. Qed.

(** C7.  [stopSeparator] removes every divider, but it does not return
    the session marker to the idle state: the leading fingerprint stays
    on record.  On a page that was being tracked, stopping and starting
    again leaves the old fingerprint in place, and the next batch with
    removed nodes that holds the old leading message gets a divider,
    which the same batch does not get from the idle state. *)
Theorem stopSeparator_keeps_leading_fingerprint :
  (∀ w, dividers (exec stopSeparator w) = []
        ∧ Feat.separator (features (state (exec stopSeparator w))) = false
        ∧ lastKnownMessage (state (exec stopSeparator w))
          = lastKnownMessage (state w))
  ∧ lastKnownMessage initial_state = None
  ∧ (let stopped := exec stopSeparator Sample.tracking in
     let restarted := exec startSeparator stopped in
     let idle := set_state (set_lastKnownMessage None (state restarted)) restarted in
     lastKnownMessage (state stopped) = Some "12:00:hello alice"
     ∧ dividers restarted = []
     ∧ dividers (exec (checkForSessionChange [0; 1] Sample.refresh) restarted) = [3]
     ∧ dividers (exec (checkForSessionChange [0; 1] Sample.refresh) idle) = []).
Proof.
  split_and!.
  - intros w. split_and!; [apply stopSeparator_removes_dividers|done|done].
  - reflexivity.
  - vm_compute. repeat split; reflexivity.
Qed.

(* ===================================================================== *)
(** * Starting features *)
(* ===================================================================== *)

Lemma idempotent_twice (m : M unit) w :
  idempotent m → (m ;; m) w = m w.
Proof.
  intros H. destruct (H w) as (w1 & E1 & E2). unfold bind. by rewrite E1, E2.
Qed.

Lemma state_for_of {A} (xs : list A) (body : A → M unit) :
  (∀ x w, state (exec (body x) w) = state w) →
  ∀ w, state (exec (for_of xs body) w) = state w.
Proof.
  intros Hb w.
  by apply (for_of_invariant (λ w', state w' = state w) xs body);
    [intros x w' <-; apply Hb|].
Qed.

Lemma highlightOwnMessages_state messages w :
  state (exec (highlightOwnMessages messages) w) = state w.
Proof.
  unfold highlightOwnMessages, exec, bind, gets. simpl.
  destruct (_ || _); [done|]. apply state_for_of. intros msg w'.
  unfold exec, highlightOwnMessages_message, bind, deref, gets. simpl.
  by repeat case_match.
Qed.

Lemma addMarkerButtons_state messages w :
  state (exec (addMarkerButtons messages) w) = state w.
Proof.
  unfold addMarkerButtons, exec, bind, gets. simpl.
  destruct (negb _); [done|]. apply state_for_of. intros msg w'.
  unfold exec, addMarkerButtons_message, bind, deref, gets. simpl.
  by repeat case_match.
Qed.

Lemma run_total (m : M unit) w : total m → m w = (Normal tt, exec m w).
Proof. intros H. destruct (H w) as ([] & w' & E). unfold exec. by rewrite E. Qed.

Lemma startSeparator_idempotent : idempotent startSeparator.
Proof.
  intros w. unfold startSeparator, startObserver, bind, gets, modify_features,
    modify_state, modify. simpl.
  destruct (Feat.separator (features (state w))) eqn:E; [by exists w; rewrite E|].
  destruct (observer (state w)); simpl; eexists; (split; [reflexivity|done]).
Qed.

Lemma startMentionWatcher_idempotent input : idempotent (startMentionWatcher input).
Proof.
  intros w. unfold startMentionWatcher, obtain_username, startObserver, bind,
    gets, modify_features, modify_state, modify. simpl.
  destruct (Feat.mentions (features (state w))) eqn:E; [by exists w; rewrite E|].
  destruct (truthy (username (state w))) eqn:Eu; simpl.
  { destruct (observer (state w)); simpl; eexists; (split; [reflexivity|done]). }
  destruct (truthy (stored_username w)) eqn:Es; simpl.
  { destruct (observer (state w)); simpl; eexists; (split; [reflexivity|done]). }
  destruct (truthy input) eqn:Ei; simpl.
  { destruct (observer (state w)); simpl; eexists; (split; [reflexivity|done]). }
  exists w. rewrite E. cbn beta. rewrite Eu. cbn beta. by rewrite Es.
Qed.

Lemma startMarkers_idempotent : idempotent startMarkers.
Proof.
  intros w. unfold startMarkers.
  unfold bind at 1. unfold gets at 1.
  destruct (Feat.markers (features (state w))) eqn:E.
  { exists w. split; [done|]. unfold bind, gets. by rewrite E. }
  set (rest := (modify_features (Feat.set_markers true) ;; startObserver ;;
                messages <- gets (querySelectorAll is_chat_txt) ;;
                addMarkerButtons messages)).
  assert (∃ w1, rest w = (Normal tt, w1)
                ∧ Feat.markers (features (state w1)) = true) as (w1 & E1 & F1).
  { unfold rest, startObserver, bind, gets, modify_features, modify_state, modify.
    simpl. destruct (observer (state w)); simpl;
      (eexists; split; [apply run_total, addMarkerButtons_total|]);
      by rewrite addMarkerButtons_state. }
  exists w1. split; [done|]. unfold bind, gets. by rewrite F1.
Qed.

Lemma startHighlighter_idempotent input : idempotent (startHighlighter input).
Proof.
  intros w. unfold startHighlighter.
  unfold bind at 1. unfold gets at 1.
  destruct (Feat.highlighting (features (state w))) eqn:E.
  { exists w. split; [done|]. unfold bind, gets. by rewrite E. }
  set (go := (modify_features (Feat.set_highlighting true) ;; startObserver ;;
              messages <- gets (querySelectorAll is_chat_txt) ;;
              highlightOwnMessages messages)).
  assert (∀ w0, ∃ w1, go w0 = (Normal tt, w1)
                      ∧ Feat.highlighting (features (state w1)) = true) as Hgo.
  { intros w0.
    unfold go, startObserver, bind, gets, modify_features, modify_state, modify.
    simpl. destruct (observer (state w0)); simpl;
      (eexists; split; [apply run_total, highlightOwnMessages_total|]);
      by rewrite highlightOwnMessages_state. }
  assert (∀ w1, Feat.highlighting (features (state w1)) = true →
                startHighlighter input w1 = (Normal tt, w1)) as Hnoop.
  { intros w1 F1. unfold startHighlighter, bind, gets. by rewrite F1. }
  unfold obtain_username, bind, gets, modify_state, modify. simpl.
  destruct (truthy (username (state w))) eqn:Eu; simpl.
  { destruct (Hgo w) as (w1 & E1 & F1). exists w1. split; [exact E1|].
    first [by apply Hnoop|by rewrite F1]. }
  destruct (truthy (stored_username w)) eqn:Es; simpl.
  { match goal with |- ∃ w1, go ?w0 = _ ∧ _ => destruct (Hgo w0) as (w1 & E1 & F1) end.
    exists w1. split; [exact E1|]. first [by apply Hnoop|by rewrite F1]. }
  destruct (truthy input) eqn:Ei; simpl.
  { match goal with |- ∃ w1, go ?w0 = _ ∧ _ => destruct (Hgo w0) as (w1 & E1 & F1) end.
    exists w1. split; [exact E1|]. first [by apply Hnoop|by rewrite F1]. }
  exists w. split; [done|].
  rewrite E. cbn beta. rewrite Eu. cbn beta. by rewrite Es.
Qed.

Lemma startKeywordWatcher_idempotent input : idempotent (startKeywordWatcher input).
Proof.
  intros w.
  assert (∀ w1, Feat.keywords (features (state w1)) = true →
                startKeywordWatcher input w1 = (Normal tt, w1)) as Hnoop.
  { intros w1 F1. unfold startKeywordWatcher, bind, gets. by rewrite F1. }
  destruct (Feat.keywords (features (state w))) eqn:E.
  { exists w. split; by apply Hnoop. }
  unfold startKeywordWatcher at 1.
  unfold loadKeywords, saveKeywords, startObserver, bind, gets, modify_features,
    modify_state, modify. simpl. rewrite E.
  destruct (stored_keywords w) as [ks|] eqn:Es; simpl.
  - destruct (length (set_from_array (map toLowerCase ks)) =? 0) eqn:El; simpl.
    + destruct (truthy input) eqn:Ei; simpl.
      * destruct (observer (state w)); simpl; eexists;
          (split; [reflexivity|by apply Hnoop]).
      * eexists. split; [reflexivity|].
        try unfold startKeywordWatcher, loadKeywords, bind, gets, modify_state,
          modify.
        repeat (simpl; first [rewrite E|rewrite Es|rewrite El|rewrite Ei]).
        reflexivity.
    + destruct (observer (state w)); simpl; eexists;
        (split; [reflexivity|by apply Hnoop]).
  - destruct (length (keywords (state w)) =? 0) eqn:El; simpl.
    + destruct (truthy input) eqn:Ei; simpl.
      * destruct (observer (state w)); simpl; eexists;
          (split; [reflexivity|by apply Hnoop]).
      * exists w. split; [reflexivity|].
        try unfold startKeywordWatcher, loadKeywords, bind, gets, modify_state,
          modify.
        repeat (simpl; first [rewrite E|rewrite Es|rewrite El|rewrite Ei]).
        reflexivity.
    + destruct (observer (state w)); simpl; eexists;
        (split; [reflexivity|by apply Hnoop]).
Qed.

Lemma startObserver_settled found w :
  settled w → settled (exec (startObserver ;; startObserver_resume found) w).
Proof.
  intros [Hs Ho]. unfold settled, exec, startObserver, startObserver_resume, bind,
    gets, modify_state, modify, console_error. simpl.
  destruct (observer (state w)) as [o|] eqn:E; simpl.
  - rewrite Hs. simpl. by rewrite E.
  - destruct found; simpl; rewrite ?Hs, ?Ho, ?E; done.
Qed.

(** C8.  Calling the start of one feature twice in a row leaves the world
    that one call leaves, for each of the five features.  The bound of
    one subscription (kept by starts that do not overlap, see
    [startObserver_settled]) fails when a second feature is started while
    the first call of [startObserver] is still waiting for the chat
    container: both calls have passed the test of [state.observer], both
    create an observer, and two subscriptions exist, the first of them no
    longer referenced by the state. *)
Theorem overlapping_starts_subscribe_twice :
  (∀ input, idempotent (startMentionWatcher input))
  ∧ (∀ input, idempotent (startHighlighter input))
  ∧ idempotent startSeparator
  ∧ idempotent startMarkers
  ∧ (∀ input, idempotent (startKeywordWatcher input))
  ∧ settled (initial_world ∅ [])
  ∧ (let w := exec overlapping_starts (initial_world ∅ []) in
     subscriptions w = [0; 1] ∧ observer (state w) = Some 1 ∧ suspended w = 0).
Proof.
  split_and!.
  - apply startMentionWatcher_idempotent.
  - apply startHighlighter_idempotent.
  - apply startSeparator_idempotent.
  - apply startMarkers_idempotent.
  - apply startKeywordWatcher_idempotent.
  - done.
  - vm_compute. repeat split; reflexivity.
Qed.

(* ===================================================================== *)
(** * The session marker *)
(* ===================================================================== *)

Section SiblingFacts.

Local Open Scope list_scope.
Implicit Types c : list nat.

Lemma elem_of_insert_before x d t c :
  x ∈ insert_before d t c ↔ x ∈ c ∨ (x = d ∧ t ∈ c).
Proof.
  induction c as [|a c IH]; simpl.
  - split; [intros H; inversion H|intros [H|[_ H]]; inversion H].
  - destruct (Nat.eqb_spec a t) as [->|Hne].
    + rewrite (elem_of_cons (t :: c) x d). split.
      * intros [->|H]; [right; split; [done|left]|by left].
      * intros [H|[-> _]]; [by right|by left].
    + rewrite (elem_of_cons _ x a), IH, (elem_of_cons c x a), (elem_of_cons c t a).
      split.
      * intros [->|[H|[-> H]]]; [left; by left|left; by right|right; split; [done|by right]].
      * intros [[->|H]|[-> [?|H]]]; [by left|right; by left|congruence|right; right; done].
Qed.

Lemma prev_of_insert_before prev d t c :
  d ≠ t → t ∈ c → prev_of prev t (insert_before d t c) = Some d.
Proof.
  intros Hd. revert prev. induction c as [|a c IH]; intros prev Ht.
  - by apply elem_of_nil in Ht.
  - simpl. destruct (Nat.eqb_spec a t) as [->|Hne]; simpl.
    + destruct (Nat.eqb_spec d t) as [?|_]; [done|]. by rewrite Nat.eqb_refl.
    + destruct (Nat.eqb_spec a t) as [?|_]; [done|]. apply IH.
      apply elem_of_cons in Ht as [?|?]; [congruence|done].
Qed.

Lemma parentElement_Some w t p :
  parentElement w t = Some p ↔
  ∃ c, containers w !! p = Some c ∧ t ∈ c
       ∧ ∀ j y, containers w !! j = Some y → j < p → t ∉ y.
Proof.
  unfold parentElement. rewrite fmap_Some. split.
  - intros ([i c] & Hfind & ->). apply list_find_Some in Hfind. by exists c.
  - intros (c & H1 & H2 & H3). exists (p, c). split; [|done].
    apply list_find_Some. done.
Qed.

(** Inserting a new reference before the target in its container leaves
    the target in that container, right after the new reference. *)
Lemma previousElementSibling_inserted w w1 t p d :
  d ≠ t →
  parentElement w t = Some p →
  containers w1 = alter (insert_before d t) p (containers w) →
  previousElementSibling w1 t = Some d.
Proof.
  intros Hd Hp Hc. apply parentElement_Some in Hp as (c & Hpc & Htc & Hfirst).
  assert (parentElement w1 t = Some p) as Hp1.
  { apply parentElement_Some. exists (insert_before d t c). rewrite Hc. split_and!.
    - by rewrite list_lookup_alter_eq, Hpc.
    - apply elem_of_insert_before. by left.
    - intros j y Hj Hlt. rewrite list_lookup_alter_ne in Hj by lia.
      by apply (Hfirst j). }
  unfold previousElementSibling. rewrite Hp1, Hc.
  rewrite list_lookup_alter_eq, Hpc. simpl. by apply prev_of_insert_before.
Qed.

End SiblingFacts.

Lemma insertSeparator_present w t :
  divider_precedes w t = true → insertSeparator t w = (Normal tt, w).
Proof. intros H. unfold insertSeparator, bind, gets. by rewrite H. Qed.

Lemma insertSeparator_absent w t p :
  divider_precedes w t = false →
  parentElement w t = Some p →
  insertSeparator t w
  = (Normal tt,
     set_containers
       (alter (insert_before (fresh (dom (heap w))) t) p (containers w))
       (set_heap (<[fresh (dom (heap w)) := separator_element]> (heap w)) w)).
Proof.
  intros H Hp. unfold insertSeparator, bind, gets, adopt, insertBefore, modify.
  rewrite H. simpl.
  replace (parentElement (set_heap _ w) t) with (parentElement w t) by done.
  by rewrite Hp.
Qed.

Lemma insertSeparator_detached w t :
  divider_precedes w t = false →
  parentElement w t = None →
  throws (insertSeparator t) w.
Proof.
  intros H Hp. unfold throws, insertSeparator, bind, gets, adopt. rewrite H. simpl.
  replace (parentElement (set_heap _ w) t) with (parentElement w t) by done.
  rewrite Hp. by eexists _, _.
Qed.

Lemma find_head {A} (f : A → bool) (x : A) (l : list A) :
  f x = true → List.find f (x :: l) = Some x.
Proof. intros H. simpl. by rewrite H. Qed.

Lemma find_nonempty {A} (f : A → bool) (l : list A) x :
  List.find f l = Some x → ∃ first rest, l = first :: rest.
Proof. destruct l as [|a r]; [done|]. by exists a, r. Qed.

Lemma find_true {A} (f : A → bool) (l : list A) x :
  List.find f l = Some x → f x = true.
Proof. intros H. by apply List.find_some in H as [_ H]. Qed.

(** C6, as amended.  With the leading fingerprint [F] on record, a batch
    with a removal signal in which [target] is the first message with
    fingerprint [F], attached to a parent: the session marker returns
    and a divider immediately precedes the target afterwards.  Exactly
    one divider is inserted, right before the target, unless one already
    immediately preceded it, in which case nothing is inserted.  The
    fingerprint of the first message of the batch is then put on record,
    and nothing else of the state changes.  When the target is the first
    message of the batch, a repeat of the same batch changes nothing. *)
Theorem session_marker_divider
    (w : World) (messages : list nat) (mutations : list MutationRecord)
    (F : string) (target p : nat) (m : Node) :
  Feat.separator (features (state w)) = true →
  chatWasCleared mutations = true →
  lastKnownMessage (state w) = Some F →
  F ≠ "" →
  first_with_fingerprint w F messages = Some target →
  heap w !! target = Some m →
  parentElement w target = Some p →
  ∃ w',
    checkForSessionChange messages mutations w = (Normal tt, w')
    ∧ divider_precedes w' target = true
    ∧ (if divider_precedes w target
       then containers w' = containers w ∧ heap w' = heap w
       else
         let d := fresh (dom (heap w)) in
         containers w' = alter (insert_before d target) p (containers w)
         ∧ heap w' = <[d := separator_element]> (heap w))
    ∧ (∀ first, head messages = Some first →
         state w'
         = set_lastKnownMessage (Some (getMessageFingerprint (node_of w first)))
             (state w))
    ∧ (head messages = Some target →
       checkForSessionChange messages mutations w' = (Normal tt, w')).
Proof.
  intros Hon Hcleared Hlast HF Hfind Hm Hp.
  pose proof (find_true _ _ _ Hfind) as HFm. cbn beta in HFm.
  rewrite (node_of_Some _ _ _ Hm) in HFm. apply String.eqb_eq in HFm.
  destruct (find_nonempty _ _ _ Hfind) as (first & rest & ->).
  (* the world after the divider step *)
  assert (∃ w1, insertSeparator target w = (Normal tt, w1)
                ∧ state w1 = state w
                ∧ divider_precedes w1 target = true
                ∧ heap w1 !! target = Some m
                ∧ (if divider_precedes w target
                   then containers w1 = containers w ∧ heap w1 = heap w
                   else
                     let d := fresh (dom (heap w)) in
                     containers w1 = alter (insert_before d target) p (containers w)
                     ∧ heap w1 = <[d := separator_element]> (heap w)))
    as (w1 & Hins & Hst & Hdiv & Hm1 & Hshape).
  { destruct (divider_precedes w target) eqn:Hd.
    - exists w. rewrite (insertSeparator_present _ _ Hd). by split_and!.
    - eexists. rewrite (insertSeparator_absent _ _ _ Hd Hp).
      split_and!; try done.
      + unfold divider_precedes.
        erewrite previousElementSibling_inserted;
          [| |exact Hp|reflexivity]; [|by eapply fresh_ref_new].
        unfold node_of. simpl. by rewrite lookup_insert_eq.
      + simpl. rewrite lookup_insert_ne; [done|by eapply fresh_ref_new]. }
  set (w' := set_state (set_lastKnownMessage
                          (Some (getMessageFingerprint (node_of w1 first)))
                          (state w1)) w1).
  assert (checkForSessionChange (first :: rest) mutations w = (Normal tt, w')) as Hrun.
  { unfold checkForSessionChange, bind, gets. simpl. rewrite Hon. simpl.
    rewrite Hcleared. simpl. rewrite Hlast. simpl.
    rewrite (is_empty_false _ HF). simpl. rewrite Hfind, Hins.
    reflexivity. }
  exists w'. split_and!.
  - exact Hrun.
  - exact Hdiv.
  - exact Hshape.
  - simpl. intros first0 [= <-]. unfold w'. simpl. rewrite Hst.
    do 2 f_equal. unfold node_of.
    destruct (divider_precedes w target).
    + destruct Hshape as [_ ->]. done.
    + destruct Hshape as [_ ->].
      destruct (decide (fresh (dom (heap w)) = first)) as [<-|Hne].
      * rewrite lookup_insert_eq.
        assert (heap w !! fresh (dom (heap w)) = None) as ->
          by (apply not_elem_of_dom, is_fresh).
        vm_compute. reflexivity.
      * by rewrite lookup_insert_ne.
  - simpl. intros [= ->].
    assert (w' = set_state (set_lastKnownMessage (Some F) (state w1)) w1) as Ew'.
    { unfold w'. by rewrite (node_of_Some _ _ _ Hm1), HFm. }
    assert (first_with_fingerprint w' F (target :: rest) = Some target) as Hfind'.
    { apply find_head. apply String.eqb_eq.
      replace (node_of w' target) with (node_of w1 target) by done.
      by rewrite (node_of_Some _ _ _ Hm1). }
    unfold checkForSessionChange, bind, gets. simpl. rewrite Hst, Hon. simpl.
    rewrite Hcleared. simpl.
    rewrite (node_of_Some _ _ _ Hm1), HFm. simpl. rewrite (is_empty_false _ HF).
    simpl. rewrite Hfind'.
    rewrite (insertSeparator_present w' target Hdiv).
    unfold bind, deref, gets, modify_state, modify. simpl.
    replace (node_of w' target) with (node_of w1 target) by done.
    rewrite (node_of_Some _ _ _ Hm1), HFm. rewrite Ew'. reflexivity.
Qed.

Lemma session_marker_divider_witness :
  ∃ w',
    checkForSessionChange [0; 1] Sample.refresh Sample.first_known = (Normal tt, w')
    ∧ divider_precedes w' 0 = true
    ∧ lastKnownMessage (state w') = Some "12:00:hello alice"
    ∧ checkForSessionChange [0; 1] Sample.refresh w' = (Normal tt, w').
Proof.
  assert ("12:00:hello alice" ≠ "") as HF by discriminate.
  destruct (session_marker_divider Sample.first_known [0; 1] Sample.refresh
              "12:00:hello alice" 0 0 Sample.hello
              ltac:(vm_compute; reflexivity) ltac:(vm_compute; reflexivity)
              ltac:(vm_compute; reflexivity) HF
              ltac:(vm_compute; reflexivity) ltac:(vm_compute; reflexivity)
              ltac:(vm_compute; reflexivity))
    as (w' & Hrun & Hdiv & _ & Hrecord & Hrepeat).
  exists w'. split_and!; [exact Hrun|exact Hdiv| |].
  - rewrite (Hrecord 0 eq_refl). vm_compute. reflexivity.
  - apply Hrepeat. reflexivity.
Defined.

(** C6, the claim as stated fails.  The fingerprint on record is that of
    the second message of the batch.  The first pass inserts a divider
    before the second message and puts the fingerprint of the first
    message on record; the repeat of the same batch then matches the
    first message and inserts a second divider, before it. *)
Lemma repeated_refresh_second_divider :
  let w1 := exec (checkForSessionChange [0; 1] Sample.refresh) Sample.second_known in
  let w2 := exec (checkForSessionChange [0; 1] Sample.refresh) w1 in
  lastKnownMessage (state Sample.second_known)
  = Some (getMessageFingerprint Sample.yo)
  ∧ containers Sample.second_known = [[0; 1]]
  ∧ dividers Sample.second_known = []
  ∧ containers w1 = [[0; 2; 1]]
  ∧ dividers w1 = [2]
  ∧ containers w2 = [[3; 0; 2; 1]]
  ∧ dividers w2 = [3; 2].
Proof. vm_compute. repeat split; reflexivity. Qed.

(* ===================================================================== *)
(** * Further properties: identity normalization *)
(* ===================================================================== *)

Section CaseFolding.

Lemma is_space_lower_char c : is_space (lower_char c) = is_space c.
Proof. destruct c as [[] [] [] [] [] [] [] []]; reflexivity. Qed.

Lemma lower_char_idempotent c : lower_char (lower_char c) = lower_char c.
Proof. destruct c as [[] [] [] [] [] [] [] []]; reflexivity. Qed.

Lemma lower_char_at c : Ascii.eqb "@" (lower_char c) = Ascii.eqb "@" c.
Proof. destruct c as [[] [] [] [] [] [] [] []]; reflexivity. Qed.

Lemma lower_char_colon c : Ascii.eqb (lower_char c) ":" = Ascii.eqb c ":".
Proof. destruct c as [[] [] [] [] [] [] [] []]; reflexivity. Qed.

Lemma lower_char_plus c : Ascii.eqb (lower_char c) "+" = Ascii.eqb c "+".
Proof. destruct c as [[] [] [] [] [] [] [] []]; reflexivity. Qed.

Lemma is_empty_toLowerCase s : is_empty (toLowerCase s) = is_empty s.
Proof. by destruct s. Qed.

Lemma toLowerCase_cons c s :
  toLowerCase (String c s) = String (lower_char c) (toLowerCase s).
Proof. reflexivity. Qed.

Lemma toLowerCase_idempotent s : toLowerCase (toLowerCase s) = toLowerCase s.
Proof.
  induction s as [|c r IH]; [done|].
  rewrite !toLowerCase_cons, lower_char_idempotent. by rewrite IH.
Qed.

Lemma trimStart_toLowerCase s : trimStart (toLowerCase s) = toLowerCase (trimStart s).
Proof.
  induction s as [|c r IH]; [done|].
  rewrite toLowerCase_cons. simpl. rewrite is_space_lower_char.
  destruct (is_space c); [exact IH|done].
Qed.

Lemma trimEnd_toLowerCase s : trimEnd (toLowerCase s) = toLowerCase (trimEnd s).
Proof.
  induction s as [|c r IH]; [done|].
  rewrite toLowerCase_cons. simpl. rewrite IH, is_space_lower_char, is_empty_toLowerCase.
  by destruct (is_space c && is_empty (trimEnd r)).
Qed.

Lemma trim_toLowerCase s : trim (toLowerCase s) = toLowerCase (trim s).
Proof. unfold trim. by rewrite trimStart_toLowerCase, trimEnd_toLowerCase. Qed.

Lemma startsWith_at_toLowerCase s : startsWith "@" (toLowerCase s) = startsWith "@" s.
Proof.
  destruct s as [|c r]; [done|]. rewrite toLowerCase_cons.
  change (Ascii.eqb "@" (lower_char c) && true = Ascii.eqb "@" c && true).
  by rewrite lower_char_at.
Qed.

Lemma endsWithChar_colon_toLowerCase s :
  endsWithChar ":" (toLowerCase s) = endsWithChar ":" s.
Proof.
  induction s as [|c r IH]; [done|].
  rewrite toLowerCase_cons. destruct r as [|c' r'].
  - simpl. apply lower_char_colon.
  - rewrite toLowerCase_cons in *. exact IH.
Qed.

Lemma slice_from_1_toLowerCase s :
  slice_from_1 (toLowerCase s) = toLowerCase (slice_from_1 s).
Proof. by destruct s. Qed.

Lemma slice_to_last_toLowerCase s :
  slice_to_last (toLowerCase s) = toLowerCase (slice_to_last s).
Proof.
  induction s as [|c r IH]; [done|].
  rewrite toLowerCase_cons. destruct r as [|c' r']; [done|].
  rewrite toLowerCase_cons in *. simpl in *. by rewrite IH.
Qed.

Lemma sanitizeUsername_toLowerCase s :
  sanitizeUsername (toLowerCase s) = toLowerCase (sanitizeUsername s).
Proof.
  unfold sanitizeUsername. rewrite is_empty_toLowerCase.
  destruct (is_empty s); [done|].
  rewrite trim_toLowerCase, startsWith_at_toLowerCase.
  destruct (startsWith "@" (trim s)).
  - rewrite slice_from_1_toLowerCase, endsWithChar_colon_toLowerCase.
    destruct (endsWithChar _ _); [apply slice_to_last_toLowerCase|done].
  - rewrite endsWithChar_colon_toLowerCase.
    destruct (endsWithChar _ _); [apply slice_to_last_toLowerCase|done].
Qed.

Lemma toLowerCase_replace_plus s :
  toLowerCase (replace_plus s) = replace_plus (toLowerCase s).
Proof.
  induction s as [|c r IH]; [done|].
  unfold replace_plus in *. rewrite toLowerCase_cons. simpl.
  rewrite toLowerCase_cons, IH, lower_char_plus.
  by destruct (Ascii.eqb c "+").
Qed.

Lemma replace_plus_no_plus s : contains_char "+" (replace_plus s) = false.
Proof.
  induction s as [|c r IH]; [done|].
  unfold replace_plus in *. simpl. rewrite IH.
  destruct (Ascii.eqb c "+") eqn:E; [done|]. by rewrite E.
Qed.

End CaseFolding.

(** X1.  The identity comparison is blind to case: a name and its
    lower-case form normalize to the same string.  A normalized name is
    in lower case and holds no "+". *)
Theorem normalizeUsername_case_blind (s : string) :
  normalizeUsername (toLowerCase s) = normalizeUsername s
  ∧ toLowerCase (normalizeUsername s) = normalizeUsername s
  ∧ contains_char "+" (normalizeUsername s) = false.
Proof.
  unfold normalizeUsername. split_and!.
  - by rewrite sanitizeUsername_toLowerCase, toLowerCase_idempotent.
  - by rewrite toLowerCase_replace_plus, toLowerCase_idempotent.
  - apply replace_plus_no_plus.
Qed.

(* ===================================================================== *)
(** * Further properties: history sets and keyword matching *)
(* ===================================================================== *)

Section HistoryFacts.

Local Open Scope list_scope.
Implicit Types s l : list string.

Lemma elem_of_set_add x y s : x ∈ set_add y s ↔ x ∈ s ∨ x = y.
Proof.
  unfold set_add. destruct (set_has y s) eqn:E.
  - apply bool_decide_eq_true in E. split; [by left|]. by intros [?| ->].
  - rewrite elem_of_app, list_elem_of_singleton. done.
Qed.

Lemma elem_of_foldl_set_add x l acc :
  x ∈ foldl (λ a y, set_add y a) acc l ↔ x ∈ acc ∨ x ∈ l.
Proof.
  revert acc. induction l as [|y l IH]; intros acc; simpl.
  - split; [by left|]. intros [?|H]; [done|by apply elem_of_nil in H].
  - rewrite IH, elem_of_set_add, elem_of_cons. tauto.
Qed.

Lemma elem_of_set_from_array x l : x ∈ set_from_array l ↔ x ∈ l.
Proof.
  unfold set_from_array. rewrite elem_of_foldl_set_add. split; [|by right].
  intros [H|H]; [by apply elem_of_nil in H|done].
Qed.

Lemma elem_of_slice_last_snoc n l x : 0 < n → x ∈ slice_last n (l ++ [x]).
Proof.
  intros Hn. unfold slice_last. rewrite length_app. simpl.
  rewrite drop_app_le by lia. apply elem_of_app. right. by left.
Qed.

(** The fingerprint just inserted is in the set, whatever the set held. *)
Lemma remember_retains fp s : fp ∉ s → fp ∈ remember fp s.
Proof.
  intros Hnew. unfold remember. rewrite (set_add_fresh _ _ Hnew).
  destruct (_ <? _).
  - apply elem_of_set_from_array, elem_of_slice_last_snoc.
    unfold CONFIG.MAX_SEEN_MESSAGES. lia.
  - apply elem_of_app. right. by left.
Qed.

Lemma remember_known fp s :
  fp ∈ s → length s ≤ CONFIG.MAX_SEEN_MESSAGES → remember fp s = s.
Proof.
  intros Hin Hlen. unfold remember, set_add, set_has.
  rewrite (bool_decide_eq_true_2 _ Hin).
  by destruct (Nat.ltb_spec CONFIG.MAX_SEEN_MESSAGES (length s)); [lia|].
Qed.

Lemma remember_new fp s :
  NoDup s → fp ∉ s →
  remember fp s = slice_last CONFIG.MAX_SEEN_MESSAGES (s ++ [fp]).
Proof.
  intros Hnd Hnew. unfold remember. rewrite (set_add_fresh _ _ Hnew).
  assert (NoDup (s ++ [fp])) as Hnd'.
  { apply NoDup_app. split_and!; [done| |apply NoDup_singleton].
    intros x Hx ->%list_elem_of_singleton. done. }
  destruct (Nat.ltb_spec CONFIG.MAX_SEEN_MESSAGES (length (s ++ [fp]))) as [H|H].
  - apply set_from_array_NoDup. by apply slice_last_NoDup.
  - unfold slice_last. replace (length (s ++ [fp]) - _) with 0 by lia. done.
Qed.

End HistoryFacts.

(** X2.  One insertion into a history set within capacity: the set stays
    free of duplicates and within capacity; the inserted fingerprint is
    in it afterwards; inserting a fingerprint that is already there
    changes nothing, its position included; a new fingerprint goes to the
    end and, at capacity, the oldest one is dropped. *)
Theorem remember_fifo (fp : string) (s : list string) :
  NoDup s →
  length s ≤ 100 →
  NoDup (remember fp s)
  ∧ length (remember fp s) ≤ 100
  ∧ fp ∈ remember fp s
  ∧ (fp ∈ s → remember fp s = s)
  ∧ (fp ∉ s → remember fp s = drop (S (length s) - 100) (s ++ [fp])%list).
Proof.
  intros Hnd Hlen.
  assert (fp ∉ s → remember fp s = drop (S (length s) - 100) (s ++ [fp])%list) as Hnew.
  { intros Hnew. rewrite (remember_new _ _ Hnd Hnew). unfold slice_last.
    rewrite length_app. simpl. unfold CONFIG.MAX_SEEN_MESSAGES.
    f_equal. lia. }
  destruct (decide (fp ∈ s)) as [Hin|Hout].
  - rewrite (remember_known _ _ Hin Hlen). by split_and!.
  - split_and!; try done.
    + rewrite (remember_new _ _ Hnd Hout). apply slice_last_NoDup.
      apply NoDup_app. split_and!; [done| |apply NoDup_singleton].
      intros x Hx ->%list_elem_of_singleton. done.
    + by apply remember_length.
    + by apply remember_retains.
Qed.

Lemma remember_fifo_witness :
  remember "12:01:new" (take 100 Sample.fingerprints)
  = drop 1 (take 100 Sample.fingerprints ++ ["12:01:new"])%list.
Proof.
  apply (remember_fifo "12:01:new" (take 100 Sample.fingerprints)).
  - apply (bool_decide_unpack (NoDup (take 100 Sample.fingerprints))).
    vm_compute. exact I.
  - vm_compute. lia.
  - apply (bool_decide_unpack ("12:01:new" ∉ take 100 Sample.fingerprints)).
    vm_compute. exact I.
Defined.

Section KeywordFacts.

Local Open Scope list_scope.

Lemma first_match_Some kws items kw :
  first_match kws items = Some kw →
  kw ∈ kws ∧ ∃ item, item ∈ items ∧ includes kw (toLowerCase item) = true.
Proof.
  induction items as [|item r IH]; [done|]. simpl.
  destruct (List.find _ kws) as [k|] eqn:E.
  - intros [= ->]. apply List.find_some in E as [Hin Hk].
    split; [by apply list_elem_of_In|]. exists item. split; [left|done].
  - intros H. destruct (IH H) as (Hin & i & Hi & Hk).
    split; [done|]. exists i. split; [by right|done].
Qed.

Lemma first_match_None kws items :
  first_match kws items = None ↔
  ∀ item kw, item ∈ items → kw ∈ kws → includes kw (toLowerCase item) = false.
Proof.
  induction items as [|item r IH]; simpl.
  - split; [|done]. intros _ i k Hi. by apply elem_of_nil in Hi.
  - destruct (List.find _ kws) as [k|] eqn:E.
    + split; [done|]. intros H. apply List.find_some in E as [Hin Hk].
      rewrite (H item k) in Hk; [done|left|by apply list_elem_of_In].
    + rewrite IH. split.
      * intros H i k [->|Hi]%elem_of_cons Hk; [|by apply H].
        apply list_elem_of_In in Hk.
        exact (List.find_none _ _ E k Hk).
      * intros H i k Hi Hk. apply H; [by right|done].
Qed.

Lemma find_first {A} (f : A → bool) (earlier later : list A) (x : A) :
  (∀ y, y ∈ earlier → f y = false) → f x = true →
  List.find f (earlier ++ x :: later) = Some x.
Proof.
  intros He Hx. induction earlier as [|a r IH]; simpl.
  - by rewrite Hx.
  - rewrite (He a) by left. apply IH. intros y Hy. apply He. by right.
Qed.

Lemma first_match_first kws before item after earlier kw later :
  kws = earlier ++ kw :: later →
  (∀ i k, i ∈ before → k ∈ kws → includes k (toLowerCase i) = false) →
  (∀ k, k ∈ earlier → includes k (toLowerCase item) = false) →
  includes kw (toLowerCase item) = true →
  first_match kws (before ++ item :: after) = Some kw.
Proof.
  intros -> Hb He Hk. induction before as [|i r IH]; simpl.
  - by rewrite (find_first _ earlier later kw).
  - destruct (List.find _ _) as [k|] eqn:E.
    + apply List.find_some in E as [Hin Hm].
      rewrite (Hb i k) in Hm; [done|left|by apply list_elem_of_In].
    + apply IH. intros i' k Hi'. apply Hb. by right.
Qed.

End KeywordFacts.

(** X3.  A keyword that [matchesKeywords] returns belongs to the set and
    is contained in the lower-cased name of an item of the message; it
    returns nothing exactly when no keyword is contained in any item
    name.  Among several matches the choice is fixed: the first item, in
    document order, that has a match, and for it the keyword inserted
    first. *)
Theorem matchesKeywords_first_match (s : State) (textContainer : Node) :
  (∀ kw, matchesKeywords s textContainer = Some kw →
         kw ∈ keywords s
         ∧ ∃ item, item ∈ extractItems textContainer
                   ∧ includes kw (toLowerCase item) = true)
  ∧ (matchesKeywords s textContainer = None ↔
     ∀ item kw, item ∈ extractItems textContainer → kw ∈ keywords s →
                includes kw (toLowerCase item) = false)
  ∧ (∀ before item after earlier kw later,
       extractItems textContainer = (before ++ item :: after)%list →
       keywords s = (earlier ++ kw :: later)%list →
       (∀ i k, i ∈ before → k ∈ keywords s → includes k (toLowerCase i) = false) →
       (∀ k, k ∈ earlier → includes k (toLowerCase item) = false) →
       includes kw (toLowerCase item) = true →
       matchesKeywords s textContainer = Some kw).
Proof.
  unfold matchesKeywords. split_and!.
  - intros kw. destruct (length (keywords s) =? 0); [done|]. apply first_match_Some.
  - destruct (Nat.eqb_spec (length (keywords s)) 0) as [E|E].
    + split; [|done]. intros _ item kw _ Hk.
      destruct (keywords s); [by apply elem_of_nil in Hk|done].
    + apply first_match_None.
  - intros before item after earlier kw later Hi Hk Hb He Hm.
    destruct (Nat.eqb_spec (length (keywords s)) 0) as [E|E].
    + rewrite Hk, length_app in E. simpl in E. lia.
    + rewrite Hi. by eapply first_match_first.
Qed.

(* ===================================================================== *)
(** * Further properties: the two matchers *)
(* ===================================================================== *)

Lemma for_of_twice {A} (body : A → M unit) (x : A) (rest : list A) w :
  idempotent (body x) →
  for_of (x :: x :: rest) body w = for_of (x :: rest) body w.
Proof.
  intros H. destruct (H w) as (w1 & E1 & E2). simpl. unfold bind.
  by rewrite E1, E2.
Qed.

Lemma children_keyword_style_5 kw m :
  children (keyword_style kw m) !! 5 = children m !! 5.
Proof.
  unfold keyword_style. rewrite children_with_child.
  - rewrite list_lookup_alter_ne by done.
    by rewrite !children_style_assign, children_classList_add.
  - intros k Hk. by rewrite is_element_appendChild.
Qed.

Lemma checkForMentions_message_idempotent uname msg :
  idempotent (checkForMentions_message uname msg).
Proof.
  intros w. unfold checkForMentions_message, bind, deref, gets, modify_state,
    modify, showNotification. simpl.
  destruct (children (node_of w msg) !! 5) as [tc|] eqn:E5; [|by exists w; rewrite E5].
  simpl.
  destruct (is_empty _) eqn:Ee; [by exists w; rewrite E5; simpl; rewrite Ee|].
  destruct (negb _) eqn:Ei; [by exists w; rewrite E5; simpl; rewrite Ee, Ei|].
  destruct (set_has _ _) eqn:Es; [by exists w; rewrite E5; simpl; rewrite Ee, Ei, Es|].
  eexists. split; [reflexivity|]. simpl.
  replace (node_of (set_notifications _ _) msg) with (node_of w msg) by done.
  rewrite E5. simpl. rewrite Ee, Ei. simpl.
  assert (set_has (getMessageFingerprint (node_of w msg))
            (remember (getMessageFingerprint (node_of w msg))
               (seenMessages (state w))) = true) as ->; [|done].
  apply bool_decide_eq_true, remember_retains. by apply set_has_false.
Qed.

Lemma matchesKeywords_ext s s' tc :
  keywords s = keywords s' → matchesKeywords s tc = matchesKeywords s' tc.
Proof. unfold matchesKeywords. by intros ->. Qed.

Lemma checkForKeywords_message_idempotent msg :
  idempotent (checkForKeywords_message msg).
Proof.
  intros w.
  assert (∀ w0, children (node_of w0 msg) !! 5 = None →
                checkForKeywords_message msg w0 = (Normal tt, w0)) as Hskip5.
  { intros w0 H. unfold checkForKeywords_message, bind, deref, gets. simpl.
    by rewrite H. }
  destruct (children (node_of w msg) !! 5) as [tc|] eqn:E5;
    [|by exists w; split; apply Hskip5].
  assert (∃ m, heap w !! msg = Some m) as [m Hm].
  { unfold node_of in E5. destruct (heap w !! msg) as [m|]; [by exists m|done]. }
  rewrite (node_of_Some _ _ _ Hm) in E5.
  unfold checkForKeywords_message at 1.
  unfold bind, deref, gets, modify_state, modify, showNotification,
    applyKeywordHighlight, mutate. simpl.
  rewrite (node_of_Some _ _ _ Hm), E5.
  assert (∀ w0, heap w0 = heap w → state w0 = state w →
                matchesKeywords (state w) tc = None
                ∨ (∃ kw, matchesKeywords (state w) tc = Some kw ∧ is_empty kw = true)
                ∨ set_has (getMessageFingerprint m) (keywordMatches (state w)) = true →
                checkForKeywords_message msg w0 = (Normal tt, w0)) as Hskip.
  { intros w0 Hh Hs Hc.
    unfold checkForKeywords_message, bind, deref, gets, node_of. simpl.
    rewrite Hh, Hm. simpl. rewrite E5, Hs.
    destruct Hc as [->|[(kw & -> & ->)| Hc]]; [done|done|].
    destruct (matchesKeywords _ _); [|done]. destruct (is_empty _); [done|].
    by rewrite Hc. }
  destruct (matchesKeywords (state w) tc) as [kw|] eqn:Ek;
    [|exists w; split; [done|apply Hskip; auto]].
  destruct (is_empty kw) eqn:Ee;
    [exists w; split; [done|apply Hskip; eauto]|].
  destruct (set_has _ _) eqn:Es;
    [exists w; split; [done|apply Hskip; auto]|].
  unfold bind, deref, gets, modify, node_of. simpl. rewrite Hm. simpl.
  assert (getMessageFingerprint m ∈ remember (getMessageFingerprint m)
            (keywordMatches (state w))) as Hin
    by (apply remember_retains; by apply set_has_false).
  destruct (hasClass "chat-marked" m) eqn:Ep; simpl.
  - eexists. split; [reflexivity|].
    unfold checkForKeywords_message, bind, deref, gets, node_of. simpl.
    rewrite Hm. simpl. rewrite E5.
    rewrite (matchesKeywords_ext _ (state w)) by done. rewrite Ek, Ee. simpl.
    unfold set_has. by rewrite (bool_decide_eq_true_2 _ Hin).
  - eexists. split; [reflexivity|].
    unfold checkForKeywords_message, bind, deref, gets, node_of. simpl.
    rewrite lookup_alter_eq, Hm. simpl.
    rewrite children_keyword_style_5, E5.
    rewrite (matchesKeywords_ext _ (state w)) by done.
    rewrite Ek, Ee, fingerprint_keyword_style. simpl.
    unfold set_has. by rewrite (bool_decide_eq_true_2 _ Hin).
Qed.

Lemma for_of_app {A} (l1 l2 : list A) (body : A → M unit) w :
  for_of (l1 ++ l2)%list body w = (for_of l1 body ;; for_of l2 body) w.
Proof.
  revert w. induction l1 as [|x l1 IH]; intros w; simpl.
  - unfold bind, ret. by destruct (for_of l2 body w).
  - unfold bind in *. destruct (body x w) as [[[]|e] w1]; [|done]. apply IH.
Qed.

(** X4.  A message that occurs twice in a row, anywhere in a batch, is
    treated once: the second occurrence finds its fingerprint on record,
    so neither matcher notifies or restyles a second time, and the batch
    ends in the world in which the batch without the repetition ends. *)
Theorem repeated_message_once
    (before : list nat) (msg : nat) (rest : list nat) (w : World) :
  checkForMentions (before ++ msg :: msg :: rest)%list w
  = checkForMentions (before ++ msg :: rest)%list w
  ∧ checkForKeywords (before ++ msg :: msg :: rest)%list w
    = checkForKeywords (before ++ msg :: rest)%list w.
Proof.
  split.
  - unfold checkForMentions, bind, gets. simpl. destruct (_ || _); [done|].
    rewrite !for_of_app. unfold bind.
    destruct (for_of before _ w) as [[[]|e] w1]; [|done].
    apply for_of_twice, checkForMentions_message_idempotent.
  - unfold checkForKeywords, bind, gets. simpl. destruct (_ || _); [done|].
    rewrite !for_of_app. unfold bind.
    destruct (for_of before _ w) as [[[]|e] w1]; [|done].
    apply for_of_twice, checkForKeywords_message_idempotent.
Qed.

Lemma substring0_length n s : String.length (substring0 n s) ≤ n.
Proof.
  revert s. induction n as [|n IH]; intros [|c r]; simpl; try lia.
  specialize (IH r). lia.
Qed.

(** X5.  A message whose body holds the user name, in any case, and whose
    fingerprint is new: the mention matcher puts the fingerprint on
    record, emits one notification that names the author and carries at
    most the first 100 characters of the body, leaves the elements alone
    and goes on with the rest of the batch. *)
Theorem first_mention_notifies
    (w : World) (msg : nat) (rest : list nat) (m tc : Node) (u : string) :
  Feat.mentions (features (state w)) = true →
  username (state w) = Some u →
  u ≠ "" →
  heap w !! msg = Some m →
  children m !! 5 = Some tc →
  let text := innerText (elemData tc) ||| textContent tc in
  text ≠ "" →
  includes (toLowerCase u) (toLowerCase text) = true →
  set_has (getMessageFingerprint m) (seenMessages (state w)) = false →
  let w' := mention_alert (getMessageFingerprint m) (author_of m) text w in
  checkForMentions (msg :: rest) w = checkForMentions rest w'
  ∧ heap w' = heap w
  ∧ String.length (substring0 100 text) ≤ 100.
Proof.
  intros Hon Hu Hne Hm H5 text Ht Hinc Hnew w'. split_and!; [|done|apply substring0_length].
  unfold checkForMentions, bind, gets. simpl. rewrite Hon, Hu. simpl.
  rewrite (is_empty_false _ Hne). simpl.
  unfold bind at 1. unfold checkForMentions_message at 1.
  unfold bind, deref, gets, modify_state, modify, showNotification. simpl.
  rewrite (node_of_Some _ _ _ Hm), H5. simpl. fold text.
  rewrite (is_empty_false _ Ht), Hinc. simpl. by rewrite Hnew.
Qed.

Lemma first_mention_notifies_witness :
  checkForMentions [0] Sample.detached_page
  = (Normal tt,
     mention_alert "12:00:hello alice" "Bob" "hello alice" Sample.detached_page).
Proof.
  assert ("Alice" ≠ "") as Hu by discriminate.
  assert ("hello alice" ≠ "") as Ht by discriminate.
  destruct (first_mention_notifies Sample.detached_page 0 [] Sample.hello
              (Sample.body "hello alice" [Sample.item "Dragon Egg"]) "Alice"
              ltac:(vm_compute; reflexivity) ltac:(vm_compute; reflexivity) Hu
              ltac:(vm_compute; reflexivity) ltac:(vm_compute; reflexivity) Ht
              ltac:(vm_compute; reflexivity) ltac:(vm_compute; reflexivity))
    as (H & _).
  rewrite H. vm_compute. reflexivity.
Defined.

(** X6.  The mention matcher touches nothing but its history set and the
    notifications: elements, containers and every other field of the
    state are as before, earlier notifications are kept, and each new one
    bears the mention title. *)
Theorem checkForMentions_frame (messages : list nat) (w : World) :
  let w' := exec (checkForMentions messages) w in
  heap w' = heap w
  ∧ containers w' = containers w
  ∧ set_seenMessages (seenMessages (state w)) (state w') = state w
  ∧ ∃ new, notifications w' = (notifications w ++ new)%list
           ∧ Forall (λ n : string * string, n.1 = "You were mentioned!") new.
Proof.
  unfold checkForMentions, exec, bind, gets. simpl.
  assert (set_seenMessages (seenMessages (state w)) (state w) = state w) as Hs
    by (by destruct (state w)).
  destruct (_ || _).
  { split_and!; try done. exists []. by rewrite app_nil_r. }
  apply (for_of_invariant
           (λ w', heap w' = heap w ∧ containers w' = containers w
                  ∧ set_seenMessages (seenMessages (state w)) (state w') = state w
                  ∧ ∃ new, notifications w' = (notifications w ++ new)%list
                           ∧ Forall (λ n : string * string,
                                       n.1 = "You were mentioned!") new)).
  - intros msg w1 (Hh & Hc & Hst & new & Hn & Hall).
    unfold exec, checkForMentions_message, bind, deref, gets, modify_state,
      modify, showNotification. simpl.
    assert (heap w1 = heap w ∧ containers w1 = containers w
            ∧ set_seenMessages (seenMessages (state w)) (state w1) = state w
            ∧ ∃ new, notifications w1 = (notifications w ++ new)%list
                     ∧ Forall (λ n : string * string,
                                 n.1 = "You were mentioned!") new) as Hsame
      by (split_and!; try done; by exists new).
    destruct (children _ !! 5); [|done]. simpl.
    destruct (is_empty _); [done|]. destruct (negb _); [done|].
    destruct (set_has _ _); [done|]. simpl. split_and!; try done.
    eexists (new ++ [_])%list. rewrite Hn, app_assoc. split; [done|].
    apply Forall_app. split; [done|]. by apply Forall_singleton.
  - split_and!; try done. exists []. by rewrite app_nil_r.
Qed.

(** X7.  A message without the pin class whose body names a watched item
    and whose fingerprint is new: the keyword matcher puts the
    fingerprint on record, gives the element the keyword class, style and
    badge, which leaves its fingerprint as it was, emits one notification
    naming keyword and author, and goes on with the rest of the batch. *)
Theorem first_keyword_match_highlights
    (w : World) (msg : nat) (rest : list nat) (m tc : Node) (kw : string) :
  Feat.keywords (features (state w)) = true →
  heap w !! msg = Some m →
  hasClass "chat-marked" m = false →
  children m !! 5 = Some tc →
  matchesKeywords (state w) tc = Some kw →
  kw ≠ "" →
  set_has (getMessageFingerprint m) (keywordMatches (state w)) = false →
  let w' :=
    keyword_alert (getMessageFingerprint m) kw (author_of m)
      (set_heap (<[msg := keyword_style kw m]> (heap w)) w) in
  checkForKeywords (msg :: rest) w = checkForKeywords rest w'
  ∧ is_keyword_match (keyword_style kw m) = true
  ∧ getMessageFingerprint (keyword_style kw m) = getMessageFingerprint m.
Proof.
  intros Hon Hm Hpin H5 Hkw Hne Hnew w'.
  split_and!; [| |apply fingerprint_keyword_style].
  - pose proof (matchesKeywords_Some _ _ _ Hkw) as Hlen.
    unfold checkForKeywords, bind, gets. simpl. rewrite Hon, Hlen. simpl.
    unfold bind at 1. unfold checkForKeywords_message at 1.
    unfold bind, deref, gets, modify_state, modify, applyKeywordHighlight,
      showNotification, mutate. simpl.
    rewrite (node_of_Some _ _ _ Hm), H5, Hkw, (is_empty_false _ Hne), Hnew. simpl.
    unfold bind, deref, gets, node_of, modify. simpl. rewrite Hm. simpl.
    rewrite Hpin. simpl. unfold w', keyword_alert. simpl.
    replace (alter (keyword_style kw) msg (heap w))
      with (<[msg := keyword_style kw m]> (heap w)); [done|].
    apply map_eq. intros i. destruct (decide (i = msg)) as [->|Hi].
    + by rewrite lookup_insert_eq, lookup_alter_eq, Hm.
    + by rewrite lookup_insert_ne, lookup_alter_ne.
  - unfold is_keyword_match, keyword_style, hasClass.
    destruct m as [|d ks]; [done|]. simpl. apply bool_decide_eq_true.
    destruct (bool_decide _) eqn:E; simpl.
    + by apply bool_decide_eq_true in E.
    + apply elem_of_app. right. by left.
Qed.

Lemma first_keyword_match_highlights_witness :
  checkForKeywords [0] Sample.detached_page
  = (Normal tt,
     keyword_alert "12:00:hello alice" "dragon egg" "Bob"
       (set_heap (<[0 := keyword_style "dragon egg" Sample.hello]>
                    (heap Sample.detached_page)) Sample.detached_page)).
Proof.
  assert ("dragon egg" ≠ "") as Hne by discriminate.
  destruct (first_keyword_match_highlights Sample.detached_page 0 [] Sample.hello
              (Sample.body "hello alice" [Sample.item "Dragon Egg"]) "dragon egg"
              ltac:(vm_compute; reflexivity) ltac:(vm_compute; reflexivity)
              ltac:(vm_compute; reflexivity) ltac:(vm_compute; reflexivity)
              ltac:(vm_compute; reflexivity) Hne ltac:(vm_compute; reflexivity))
    as (H & _).
  rewrite H. vm_compute. reflexivity.
Defined.

(* ===================================================================== *)
(** * Bounded history sets *)
(* ===================================================================== *)

Section HandlerHistory.

Local Open Scope list_scope.

Lemma foldl_remember_length fps s :
  length s ≤ CONFIG.MAX_SEEN_MESSAGES →
  length (foldl (λ s fp, remember fp s) s fps) ≤ CONFIG.MAX_SEEN_MESSAGES.
Proof.
  revert s. induction fps as [|fp fps IH]; intros s Hs; [done|].
  simpl. by apply IH, remember_length.
Qed.

(** Distinct new fingerprints leave the last 100 of the old and the new
    ones, in insertion order. *)
Lemma foldl_remember_NoDup fps s :
  length s ≤ CONFIG.MAX_SEEN_MESSAGES →
  NoDup (s ++ fps) →
  foldl (λ s fp, remember fp s) s fps
  = slice_last CONFIG.MAX_SEEN_MESSAGES (s ++ fps).
Proof.
  intros Hs. induction fps as [|fp fps IH] using rev_ind; intros Hnd.
  - simpl. rewrite app_nil_r. unfold slice_last.
    replace (length s - CONFIG.MAX_SEEN_MESSAGES) with 0 by lia. done.
  - rewrite foldl_app. simpl. rewrite app_assoc in Hnd.
    apply NoDup_app in Hnd as (Hnd & Hfp & _).
    rewrite IH by done. rewrite remember_new.
    + by rewrite slice_last_snoc, app_assoc.
    + by apply slice_last_NoDup.
    + intros Hin%slice_last_elem. apply (Hfp fp Hin). by left.
Qed.

Lemma fingerprints_of_ext test test' w w' messages :
  (∀ r, getMessageFingerprint (node_of w' r) = getMessageFingerprint (node_of w r)) →
  (∀ r, test' (node_of w' r) = test (node_of w r)) →
  fingerprints_of test' w' messages = fingerprints_of test w messages.
Proof.
  intros Hfp Ht. unfold fingerprints_of.
  induction messages as [|r l IH]; [done|]. simpl.
  rewrite Ht. destruct (test (node_of w r)); simpl; by rewrite ?Hfp, IH.
Qed.

(** One step of the mention matcher. *)
Lemma checkForMentions_message_seen uname msg w :
  length (seenMessages (state w)) ≤ CONFIG.MAX_SEEN_MESSAGES →
  ∃ w1,
    checkForMentions_message uname msg w = (Normal tt, w1)
    ∧ heap w1 = heap w
    ∧ seenMessages (state w1)
      = if mentions uname (node_of w msg)
        then remember (getMessageFingerprint (node_of w msg)) (seenMessages (state w))
        else seenMessages (state w).
Proof.
  intros Hlen.
  unfold checkForMentions_message, mentions, bind, deref, gets, modify_state,
    modify, showNotification. simpl.
  destruct (children (node_of w msg) !! 5) as [tc|]; [|by exists w]. simpl.
  destruct (is_empty _); [by exists w|]. simpl.
  destruct (includes _ _); [|by exists w]. simpl.
  destruct (set_has _ _) eqn:E.
  - exists w. split_and!; [done|done|].
    rewrite remember_known; [done| |done].
    unfold set_has in E. by apply bool_decide_eq_true in E.
  - by eexists.
Qed.

Lemma checkForMentions_loop_seen uname messages w :
  length (seenMessages (state w)) ≤ CONFIG.MAX_SEEN_MESSAGES →
  seenMessages (state (exec (for_of messages (checkForMentions_message uname)) w))
  = foldl (λ s fp, remember fp s) (seenMessages (state w))
      (fingerprints_of (mentions uname) w messages).
Proof.
  revert w. induction messages as [|msg rest IH]; intros w Hlen; [done|].
  destruct (checkForMentions_message_seen uname msg w Hlen) as (w1 & Hrun & Hh & Hs).
  unfold exec in *. simpl. unfold bind. rewrite Hrun.
  assert (length (seenMessages (state w1)) ≤ CONFIG.MAX_SEEN_MESSAGES) as Hlen1.
  { rewrite Hs. destruct (mentions _ _); [by apply remember_length|done]. }
  rewrite (IH w1 Hlen1).
  rewrite (fingerprints_of_ext (mentions uname) (mentions uname) w w1)
    by (intros r; unfold node_of; by rewrite Hh).
  unfold fingerprints_of at 2. simpl.
  destruct (mentions uname (node_of w msg)); simpl; by rewrite Hs.
Qed.

Lemma checkForMentions_seen messages w u :
  Feat.mentions (features (state w)) = true →
  username (state w) = Some u →
  u ≠ "" →
  length (seenMessages (state w)) ≤ CONFIG.MAX_SEEN_MESSAGES →
  seenMessages (state (exec (checkForMentions messages) w))
  = foldl (λ s fp, remember fp s) (seenMessages (state w))
      (fingerprints_of (mentions (toLowerCase u)) w messages).
Proof.
  intros Hon Hu Hne Hlen.
  pose proof (checkForMentions_loop_seen (toLowerCase u) messages w Hlen) as H.
  unfold exec, checkForMentions, bind, gets in *. simpl.
  rewrite Hon, Hu. simpl. by rewrite (is_empty_false _ Hne).
Qed.

(** One step of the keyword matcher: the element it may restyle keeps
    its fingerprint and its body. *)
Lemma checkForKeywords_message_matches msg w :
  length (keywordMatches (state w)) ≤ CONFIG.MAX_SEEN_MESSAGES →
  ∃ w1,
    checkForKeywords_message msg w = (Normal tt, w1)
    ∧ keywords (state w1) = keywords (state w)
    ∧ (∀ r, getMessageFingerprint (node_of w1 r) = getMessageFingerprint (node_of w r))
    ∧ (∀ r, children (node_of w1 r) !! 5 = children (node_of w r) !! 5)
    ∧ keywordMatches (state w1)
      = if watched (state w) (node_of w msg)
        then remember (getMessageFingerprint (node_of w msg))
               (keywordMatches (state w))
        else keywordMatches (state w).
Proof.
  intros Hlen.
  unfold checkForKeywords_message, watched, applyKeywordHighlight, bind, deref,
    gets, modify_state, modify, showNotification, mutate. simpl.
  destruct (children (node_of w msg) !! 5) as [tc|]; [|by exists w]. simpl.
  destruct (matchesKeywords (state w) tc) as [kw|]; [|by exists w]. simpl.
  destruct (is_empty kw); [by exists w|]. simpl.
  destruct (set_has _ _) eqn:E.
  { exists w. split_and!; try done.
    rewrite remember_known; [done| |done].
    unfold set_has in E. by apply bool_decide_eq_true in E. }
  match goal with
  | |- context [node_of (set_state ?s w) msg] =>
      change (node_of (set_state s w) msg) with (node_of w msg)
  end.
  destruct (hasClass "chat-marked" (node_of w msg)); simpl; [by eexists|].
  eexists. split; [done|]. simpl. split_and!; try done.
  - intros r. unfold node_of. simpl. destruct (decide (r = msg)) as [->|Hne].
    + rewrite lookup_alter_eq. destruct (heap w !! msg); simpl; [|done].
      apply fingerprint_keyword_style.
    + by rewrite lookup_alter_ne.
  - intros r. unfold node_of. simpl. destruct (decide (r = msg)) as [->|Hne].
    + rewrite lookup_alter_eq. destruct (heap w !! msg); simpl; [|done].
      apply children_keyword_style_5.
    + by rewrite lookup_alter_ne.
Qed.

Lemma watched_ext s s' m m' :
  keywords s' = keywords s →
  children m' !! 5 = children m !! 5 →
  watched s' m' = watched s m.
Proof.
  intros Hk H5. unfold watched. rewrite H5.
  destruct (children m !! 5) as [tc|]; [|done].
  by rewrite (matchesKeywords_ext s' s).
Qed.

Lemma checkForKeywords_loop_matches messages w :
  length (keywordMatches (state w)) ≤ CONFIG.MAX_SEEN_MESSAGES →
  keywordMatches (state (exec (for_of messages checkForKeywords_message) w))
  = foldl (λ s fp, remember fp s) (keywordMatches (state w))
      (fingerprints_of (watched (state w)) w messages).
Proof.
  revert w. induction messages as [|msg rest IH]; intros w Hlen; [done|].
  destruct (checkForKeywords_message_matches msg w Hlen)
    as (w1 & Hrun & Hk & Hfp & H5 & Hs).
  unfold exec in *. simpl. unfold bind. rewrite Hrun.
  assert (length (keywordMatches (state w1)) ≤ CONFIG.MAX_SEEN_MESSAGES) as Hlen1.
  { rewrite Hs. destruct (watched _ _); [by apply remember_length|done]. }
  rewrite (IH w1 Hlen1).
  rewrite (fingerprints_of_ext (watched (state w)) (watched (state w1)) w w1)
    by (done || (intros r; by apply watched_ext)).
  unfold fingerprints_of at 2. simpl.
  destruct (watched (state w) (node_of w msg)); simpl; by rewrite Hs.
Qed.

Lemma checkForKeywords_matches messages w :
  Feat.keywords (features (state w)) = true →
  keywords (state w) ≠ [] →
  length (keywordMatches (state w)) ≤ CONFIG.MAX_SEEN_MESSAGES →
  keywordMatches (state (exec (checkForKeywords messages) w))
  = foldl (λ s fp, remember fp s) (keywordMatches (state w))
      (fingerprints_of (watched (state w)) w messages).
Proof.
  intros Hon Hne Hlen.
  pose proof (checkForKeywords_loop_matches messages w Hlen) as H.
  unfold exec, checkForKeywords, bind, gets in *. simpl.
  rewrite Hon. simpl. by destruct (keywords (state w)).
Qed.

End HandlerHistory.

(** C4.  A history set fed any sequence of fingerprints, starting empty,
    never holds more than 100 of them after an insertion; both matchers
    keep their set within that bound; and after distinct fingerprints the
    set holds exactly the last 100 inserted, in insertion order, so that
    150 distinct insertions leave the last 100.  The same holds of the
    two sets in the handlers: over a batch the mention matcher inserts,
    in batch order, the fingerprints of the messages whose body holds the
    user name, and the keyword matcher those of the messages that name a
    watched item; when these are distinct and new, the set afterwards is
    the last 100 of the old entries followed by the new ones. *)
Theorem history_set_bounded_fifo :
  (∀ fps, length (remember_all fps) ≤ 100)
  ∧ (∀ messages w,
       length (seenMessages (state w)) ≤ 100 →
       length (seenMessages (state (exec (checkForMentions messages) w))) ≤ 100)
  ∧ (∀ messages w,
       length (keywordMatches (state w)) ≤ 100 →
       length (keywordMatches (state (exec (checkForKeywords messages) w))) ≤ 100)
  ∧ (∀ fps, NoDup fps → remember_all fps = drop (length fps - 100) fps)
  ∧ (∀ fps, NoDup fps → length fps = 150 →
       length (remember_all fps) = 100 ∧ remember_all fps = drop 50 fps)
  ∧ (∀ messages w u,
       Feat.mentions (features (state w)) = true →
       username (state w) = Some u →
       u ≠ "" →
       length (seenMessages (state w)) ≤ 100 →
       let seen := seenMessages (state w) in
       let fps := fingerprints_of (mentions (toLowerCase u)) w messages in
       let seen' := seenMessages (state (exec (checkForMentions messages) w)) in
       seen' = foldl (λ s fp, remember fp s) seen fps
       ∧ (NoDup (seen ++ fps) →
          seen' = drop (length (seen ++ fps) - 100) (seen ++ fps)))
  ∧ (∀ messages w,
       Feat.keywords (features (state w)) = true →
       keywords (state w) ≠ [] →
       length (keywordMatches (state w)) ≤ 100 →
       let matched := keywordMatches (state w) in
       let fps := fingerprints_of (watched (state w)) w messages in
       let matched' := keywordMatches (state (exec (checkForKeywords messages) w)) in
       matched' = foldl (λ s fp, remember fp s) matched fps
       ∧ (NoDup (matched ++ fps) →
          matched' = drop (length (matched ++ fps) - 100) (matched ++ fps))).
Proof.
  split_and!.
  - apply remember_all_length.
  - apply checkForMentions_bound.
  - apply checkForKeywords_bound.
  - apply remember_all_NoDup.
  - intros fps Hnd Hlen. rewrite (remember_all_NoDup _ Hnd).
    unfold slice_last, CONFIG.MAX_SEEN_MESSAGES. rewrite Hlen.
    split; [|done]. rewrite length_drop. lia.
  - intros messages w u Hon Hu Hne Hlen seen fps seen'.
    assert (seen' = foldl (λ s fp, remember fp s) seen fps) as E
      by (by apply checkForMentions_seen).
    split; [exact E|]. intros Hnd. rewrite E.
    by apply foldl_remember_NoDup.
  - intros messages w Hon Hne Hlen matched fps matched'.
    assert (matched' = foldl (λ s fp, remember fp s) matched fps) as E
      by (by apply checkForKeywords_matches).
    split; [exact E|]. intros Hnd. rewrite E.
    by apply foldl_remember_NoDup.
Qed.

Lemma history_set_bounded_fifo_witness :
  (length (remember_all Sample.fingerprints) = 100
   ∧ remember_all Sample.fingerprints = drop 50 Sample.fingerprints)
  ∧ seenMessages (state (exec (checkForMentions Crowd.batch) Crowd.page))
    = drop 50 Crowd.fingerprints
  ∧ keywordMatches (state (exec (checkForKeywords Crowd.batch) Crowd.page))
    = drop 50 Crowd.fingerprints.
Proof.
  destruct history_set_bounded_fifo as (_ & _ & _ & _ & H150 & Hm & Hk).
  split; [|split].
  - apply H150.
    + apply (bool_decide_unpack (NoDup Sample.fingerprints)). vm_compute. exact I.
    + vm_compute. reflexivity.
  - assert ("Alice" ≠ "") as Hne by discriminate.
    destruct (Hm Crowd.batch Crowd.page "Alice"
                ltac:(vm_compute; reflexivity) ltac:(vm_compute; reflexivity) Hne
                ltac:(vm_compute; lia)) as [_ H].
    etransitivity; [apply H|vm_compute; reflexivity].
    apply (bool_decide_unpack (NoDup _)). vm_compute. exact I.
  - assert (keywords (state Crowd.page) ≠ []) as Hne by discriminate.
    destruct (Hk Crowd.batch Crowd.page ltac:(vm_compute; reflexivity) Hne
                ltac:(vm_compute; lia)) as [_ H].
    etransitivity; [apply H|vm_compute; reflexivity].
    apply (bool_decide_unpack (NoDup _)). vm_compute. exact I.
Defined.

(* ===================================================================== *)
(** * Further properties: loops that restyle elements *)
(* ===================================================================== *)

Section Restyle.

Local Open Scope list_scope.
Variable c : State → Node → bool.
Variable f : State → Node → Node.

Lemma set_heap_same w : set_heap (heap w) w = w.
Proof. by destruct w. Qed.

Lemma for_of_ext {A} (xs : list A) (body1 body2 : A → M unit) w :
  (∀ x w, body1 x w = body2 x w) → for_of xs body1 w = for_of xs body2 w.
Proof.
  intros H. revert w. induction xs as [|x r IH]; intros w; [done|].
  simpl. unfold bind. rewrite H. destruct (body2 x w) as [[[]|e] w']; [apply IH|done].
Qed.

Lemma for_of_restyle l w :
  for_of l (restyle c f) w
  = (Normal tt, set_heap (restyled c f (state w) l (heap w)) w).
Proof.
  revert w. induction l as [|r l IH]; intros w; simpl.
  - unfold ret. by rewrite set_heap_same.
  - unfold bind at 1. unfold restyle at 1.
    unfold bind, gets, deref, mutate, modify, node_of. simpl.
    destruct (c (state w) (default (Text "") (heap w !! r))); simpl.
    + by rewrite IH.
    + rewrite IH. done.
Qed.

Lemma occurrences_cons_eq r l : occurrences r (r :: l) = S (occurrences r l).
Proof. unfold occurrences. simpl. by rewrite Nat.eqb_refl. Qed.

Lemma occurrences_cons_ne a r l : a ≠ r → occurrences r (a :: l) = occurrences r l.
Proof.
  intros H. unfold occurrences. simpl.
  by destruct (Nat.eqb_spec a r).
Qed.

Lemma occurrences_pos r l : r ∈ l ↔ 0 < occurrences r l.
Proof.
  induction l as [|a l IH].
  - split; [by intros ?%elem_of_nil|]. unfold occurrences. simpl. lia.
  - destruct (decide (a = r)) as [->|Hne].
    + rewrite occurrences_cons_eq. split; [lia|by left].
    + rewrite occurrences_cons_ne by done. rewrite elem_of_cons, <- IH.
      split; [by intros [?|?]|by right].
Qed.

(** An element is visited once per occurrence of its reference. *)
Lemma restyled_lookup s l h r :
  restyled c f s l h !! r = Nat.iter (occurrences r l) (visit c f s) <$> h !! r.
Proof.
  revert h. induction l as [|a l IH]; intros h; simpl.
  - by destruct (h !! r).
  - rewrite IH. destruct (decide (a = r)) as [->|Hne].
    + rewrite occurrences_cons_eq.
      destruct (h !! r) as [m|] eqn:E; simpl.
      * assert ((if c s m then alter (f s) r h else h) !! r
                = Some (visit c f s m)) as ->.
        { unfold visit. destruct (c s m); [by rewrite lookup_alter_eq, E|done]. }
        simpl. f_equal. symmetry.
        exact (Nat.iter_succ_r (occurrences r l) _ (visit c f s) m).
      * destruct (c s (Text "")); [rewrite lookup_alter_eq|]; by rewrite E.
    + rewrite occurrences_cons_ne by done.
      destruct (c s (default (Text "") (h !! a))); [|done].
      by rewrite lookup_alter_ne.
Qed.

Lemma iter_idempotent {A} (g : A → A) (k : nat) (x : A) :
  (∀ y, g (g y) = g y) → 0 < k → Nat.iter k g x = g x.
Proof.
  intros Hg Hk. destruct k as [|k]; [lia|]. clear Hk.
  induction k as [|k IH]; [done|].
  rewrite Nat.iter_succ, IH. apply Hg.
Qed.

Lemma iter_preserves {A B} (g : A → A) (q : A → B) (k : nat) (x : A) :
  (∀ y, q (g y) = q y) → q (Nat.iter k g x) = q x.
Proof.
  intros Hq. induction k as [|k IH]; [done|]. by rewrite Nat.iter_succ, Hq.
Qed.

Lemma iter_establishes {A B} (g : A → A) (q : A → B) (b : B) (k : nat) (x : A) :
  (∀ y, q (g y) = b) → 0 < k → q (Nat.iter k g x) = b.
Proof.
  intros Hq Hk. destruct k as [|k]; [lia|]. by rewrite Nat.iter_succ, Hq.
Qed.

(** When a second visit changes nothing, an element of the list is
    visited once. *)
Lemma restyled_lookup_idempotent s l h r :
  (∀ m, visit c f s (visit c f s m) = visit c f s m) →
  restyled c f s l h !! r
  = (λ m, if bool_decide (r ∈ l) then visit c f s m else m) <$> h !! r.
Proof.
  intros Hv. rewrite restyled_lookup.
  destruct (h !! r) as [m|]; simpl; [|done]. f_equal.
  destruct (decide (r ∈ l)) as [Hin|Hout].
  - rewrite (bool_decide_eq_true_2 _ Hin).
    apply iter_idempotent; [done|]. by apply occurrences_pos.
  - rewrite (bool_decide_eq_false_2 _ Hout).
    destruct (occurrences r l) eqn:E; [done|].
    exfalso. apply Hout, occurrences_pos. lia.
Qed.

Lemma restyled_twice s l h :
  (∀ m, visit c f s (visit c f s m) = visit c f s m) →
  restyled c f s l (restyled c f s l h) = restyled c f s l h.
Proof.
  intros Hv. apply map_eq. intros r.
  rewrite !restyled_lookup_idempotent by done.
  destruct (h !! r) as [m|]; simpl; [|done]. f_equal.
  destruct (bool_decide (r ∈ l)); by rewrite ?Hv.
Qed.

(** A change that keeps the test and is idempotent gives an idempotent
    visit. *)
Lemma visit_idempotent s :
  (∀ m, c s (f s m) = c s m) →
  (∀ m, f s (f s m) = f s m) →
  ∀ m, visit c f s (visit c f s m) = visit c f s m.
Proof.
  intros Hc Hf m. unfold visit.
  destruct (c s m) eqn:Ec; [|by rewrite Ec]. by rewrite Hc, Ec, Hf.
Qed.

End Restyle.

(** Unfolds assignments of literal properties down to the insertions
    and removals they make on the style map. *)
Ltac style_unfold :=
  cbv [highlight_style clear_border applyMarkerStyle style_assign
       classList_remove with_data with_child set_style set_classList
       declare sides side_values split_blanks set_declaration
       tagName classList attributes style innerText is_empty
       String.eqb Ascii.eqb Bool.eqb andb orb foldr zip_with fst snd
       String.append
       CONFIG.HIGHLIGHT_BORDER CONFIG.MARKER_BORDER CONFIG.MARKER_BG
       CONFIG.KEYWORD_HIGHLIGHT_BG CONFIG.KEYWORD_HIGHLIGHT_COLOR].

Ltac style_lookup :=
  repeat first
    [ rewrite lookup_insert_eq | rewrite lookup_delete_eq
    | rewrite lookup_insert_ne by done | rewrite lookup_delete_ne by done ].

Ltac style_key k x :=
  destruct (decide (x = k)) as [<-|?]; [by style_lookup|].

(** Two style maps that the script's assignments built from one map are
    equal when they agree on the properties the script assigns. *)
Ltac style_ext :=
  let k := fresh "k" in
  apply map_eq; intros k;
  style_key k "backgroundColor";
  style_key k "borderTop"; style_key k "borderRight";
  style_key k "borderBottom"; style_key k "borderLeft";
  style_key k "borderRadius";
  style_key k "paddingTop"; style_key k "paddingRight";
  style_key k "paddingBottom"; style_key k "paddingLeft";
  style_key k "position";
  by style_lookup.

Section StyleFacts.

Lemma querySelector_with_data p g n :
  querySelector p (with_data g n) = querySelector p n.
Proof. by destruct n. Qed.

Lemma hasClass_style_assign c p v n : hasClass c (style_assign p v n) = hasClass c n.
Proof. by destruct n. Qed.

Lemma highlight_style_idempotent n : highlight_style (highlight_style n) = highlight_style n.
Proof.
  destruct n as [|[tg cl a st it] ks]; [done|]. style_unfold.
  f_equal. f_equal. style_ext.
Qed.

Lemma clear_border_idempotent n : clear_border (clear_border n) = clear_border n.
Proof.
  destruct n as [|[tg cl a st it] ks]; [done|]. style_unfold.
  f_equal. f_equal. style_ext.
Qed.

Lemma linked_username_with_data g n : linked_username (with_data g n) = linked_username n.
Proof. unfold linked_username. by rewrite querySelector_with_data. Qed.

Lemma is_own_message_highlight_style u n :
  is_own_message u (highlight_style n) = is_own_message u n.
Proof.
  unfold is_own_message, highlight_style, style_assign.
  by rewrite !linked_username_with_data.
Qed.

Lemma highlightOwnMessages_message_restyle u r w :
  highlightOwnMessages_message u r w
  = restyle (λ _ m, is_own_message u m) (λ _, highlight_style) r w.
Proof.
  unfold highlightOwnMessages_message, restyle, bind, gets, deref. simpl.
  unfold is_own_message, linked_username.
  destruct (querySelector _ _); [|done].
  destruct (match_user_name _); [|done].
  by destruct (String.eqb _ _).
Qed.

End StyleFacts.

Lemma highlightOwnMessages_run messages w u :
  Feat.highlighting (features (state w)) = true →
  username (state w) = Some u →
  u ≠ "" →
  highlightOwnMessages messages w
  = (Normal tt,
     set_heap
       (restyled (λ _ m, is_own_message (normalizeUsername u) m)
          (λ _, highlight_style) (state w) messages (heap w)) w).
Proof.
  intros Hon Hu Hne. unfold highlightOwnMessages, bind, gets. simpl.
  rewrite Hon, Hu. simpl. rewrite (is_empty_false _ Hne). simpl.
  rewrite (for_of_ext _ _ _ _ (highlightOwnMessages_message_restyle _)).
  apply for_of_restyle.
Qed.

(** X8.  With highlighting on and an identity known, the highlighter
    gives the highlight style to exactly those messages of the batch
    whose profile link names a user that normalizes to the normalized
    identity; messages without such a link, other elements, containers,
    state and notifications are left as they are. *)
Theorem highlightOwnMessages_marks_own
    (messages : list nat) (w : World) (u : string) :
  Feat.highlighting (features (state w)) = true →
  username (state w) = Some u →
  u ≠ "" →
  ∃ h,
    highlightOwnMessages messages w = (Normal tt, set_heap h w)
    ∧ ∀ r, h !! r = highlighted u messages r <$> heap w !! r.
Proof.
  intros Hon Hu Hne. eexists. split; [by apply highlightOwnMessages_run|].
  intros r. rewrite restyled_lookup_idempotent.
  - unfold highlighted, visit. destruct (heap w !! r) as [m|]; simpl; [|done].
    by destruct (bool_decide _).
  - apply visit_idempotent; intros m;
      [apply is_own_message_highlight_style|apply highlight_style_idempotent].
Qed.

Lemma highlightOwnMessages_marks_own_witness :
  ∃ h,
    highlightOwnMessages [0] (Sample.own_page "Alice" "alice")
    = (Normal tt, set_heap h (Sample.own_page "Alice" "alice"))
    ∧ h !! 0 = Some (highlight_style (Sample.message [] "12:00" "alice" "hi" [])).
Proof.
  assert ("Alice" ≠ "") as Hu by discriminate.
  destruct (highlightOwnMessages_marks_own [0] (Sample.own_page "Alice" "alice")
              "Alice" ltac:(vm_compute; reflexivity) ltac:(vm_compute; reflexivity) Hu)
    as (h & Hrun & Hh).
  exists h. split; [exact Hrun|]. rewrite Hh. vm_compute. reflexivity.
Defined.

(** X9.  Highlighting is idempotent: a second pass over the same batch
    changes nothing. *)
Theorem highlightOwnMessages_idempotent (messages : list nat) :
  idempotent (highlightOwnMessages messages).
Proof.
  intros w.
  destruct (Feat.highlighting (features (state w))) eqn:Hon;
    [|exists w; unfold highlightOwnMessages, bind, gets; simpl; by rewrite Hon].
  destruct (username (state w)) as [u|] eqn:Hu;
    [|exists w; unfold highlightOwnMessages, bind, gets; simpl; by rewrite Hon, Hu].
  destruct (is_empty u) eqn:Hne;
    [exists w; unfold highlightOwnMessages, bind, gets; simpl;
     by rewrite Hon, Hu; simpl; rewrite Hne|].
  assert (u ≠ "") as Hu' by (by destruct u).
  eexists. split; [by apply highlightOwnMessages_run|].
  rewrite (highlightOwnMessages_run _ _ u) by done. simpl.
  rewrite restyled_twice; [done|].
  apply visit_idempotent; intros m;
    [apply is_own_message_highlight_style|apply highlight_style_idempotent].
Qed.

(* ===================================================================== *)
(** * Further properties: pins *)
(* ===================================================================== *)

Section PinFacts.

Local Open Scope list_scope.

Lemma hasClass_with_data_style c g n :
  (∀ d, classList (g d) = classList d) →
  hasClass c (with_data g n) = hasClass c n.
Proof. intros H. destruct n as [|d ks]; [done|]. unfold hasClass. simpl. by rewrite H. Qed.

Lemma hasClass_classList_remove_eq c n : hasClass c (classList_remove c n) = false.
Proof.
  destruct n as [|d ks]; [done|]. unfold hasClass. simpl.
  apply bool_decide_eq_false_2. rewrite list_elem_of_In, List.filter_In.
  intros [_ H]. by rewrite String.eqb_refl in H.
Qed.

Lemma hasClass_classList_remove_ne c c' n :
  c ≠ c' → hasClass c (classList_remove c' n) = hasClass c n.
Proof.
  intros Hne. destruct n as [|d ks]; [done|]. unfold hasClass. simpl.
  apply bool_decide_ext. rewrite !list_elem_of_In, List.filter_In.
  split; [by intros [? _]|]. intros H. split; [done|].
  apply negb_true_iff, String.eqb_neq. done.
Qed.

Lemma hasClass_classList_add_eq c n :
  is_element n = true → hasClass c (classList_add c n) = true.
Proof.
  destruct n as [|d ks]; [done|]. intros _. unfold hasClass. simpl.
  apply bool_decide_eq_true_2. case_bool_decide; [done|].
  simpl. apply elem_of_app. right. by left.
Qed.

Lemma hasClass_classList_add_ne c c' n :
  c ≠ c' → hasClass c (classList_add c' n) = hasClass c n.
Proof.
  intros Hne. destruct n as [|d ks]; [done|]. unfold hasClass. simpl.
  apply bool_decide_ext. case_bool_decide; [done|]. simpl.
  rewrite elem_of_app, list_elem_of_singleton.
  split; [by intros [?|?]|by left].
Qed.

(** [unmark] changes the data of the element and nothing below it. *)
Lemma unmark_with_data s m : ∃ g, unmark s m = with_data g m.
Proof.
  destruct m as [t|d ks]; [by exists (λ d, d)|].
  unfold unmark. cbv zeta.
  destruct (match querySelector _ _ with Some _ => _ | None => _ end);
    by eexists (λ _, _).
Qed.

Lemma childNodes_unmark s m : childNodes (unmark s m) = childNodes m.
Proof. destruct (unmark_with_data s m) as [g ->]. apply childNodes_with_data. Qed.

Lemma querySelector_unmark p s m : querySelector p (unmark s m) = querySelector p m.
Proof. destruct (unmark_with_data s m) as [g ->]. apply querySelector_with_data. Qed.

Lemma fingerprint_unmark s m : getMessageFingerprint (unmark s m) = getMessageFingerprint m.
Proof.
  destruct (unmark_with_data s m) as [g ->].
  apply fingerprint_ext; by rewrite children_with_data.
Qed.

Lemma unmark_own s m :
  unmark s m
  = (if keeps_highlight s m then highlight_style else clear_border)
      (style_assign "backgroundColor" "" (classList_remove "chat-marked" m)).
Proof.
  assert (querySelector is_profile_link
            (style_assign "backgroundColor" "" (classList_remove "chat-marked" m))
          = querySelector is_profile_link m) as Hq
    by (unfold style_assign, classList_remove; by rewrite !querySelector_with_data).
  unfold unmark, keeps_highlight, is_own_message, linked_username. cbv zeta.
  rewrite Hq.
  destruct (querySelector is_profile_link m) as [l|]; [|by rewrite andb_false_r].
  destruct (Feat.highlighting _ && truthy _); [|done]. simpl.
  destruct (match_user_name _) as [g|]; [|done].
  by destruct (String.eqb _ _).
Qed.

Lemma hasClass_unmark_ne c s m :
  c ≠ "chat-marked" → hasClass c (unmark s m) = hasClass c m.
Proof.
  intros Hne. rewrite unmark_own.
  destruct (keeps_highlight s m); unfold highlight_style, clear_border;
    by rewrite !hasClass_style_assign, hasClass_classList_remove_ne.
Qed.

Lemma is_marked_unmark s m : is_marked (unmark s m) = false.
Proof.
  unfold is_marked. rewrite unmark_own.
  destruct (keeps_highlight s m); unfold highlight_style, clear_border;
    by rewrite !hasClass_style_assign, hasClass_classList_remove_eq.
Qed.

Lemma style_classList_remove c n :
  style (elemData (classList_remove c n)) = style (elemData n).
Proof. by destruct n. Qed.

Lemma style_classList_add c n :
  style (elemData (classList_add c n)) = style (elemData n).
Proof. destruct n as [|d ks]; [done|]. simpl. by case_bool_decide. Qed.

Lemma is_element_unmark s m : is_element (unmark s m) = is_element m.
Proof. destruct (unmark_with_data s m) as [g ->]. apply is_element_with_data. Qed.

End PinFacts.

(** X10.  Unpinning an element removes the pin class and the pin
    background and touches neither other classes nor the content, so the
    fingerprint stays; the border it leaves, on each of the four sides,
    is the own-message highlight when highlighting is on, an identity is
    known and the profile link names that identity, and no border
    otherwise. *)
Theorem unmark_outcome (s : State) (m : Node) :
  is_marked (unmark s m) = false
  ∧ (∀ c, c ≠ "chat-marked" → hasClass c (unmark s m) = hasClass c m)
  ∧ childNodes (unmark s m) = childNodes m
  ∧ getMessageFingerprint (unmark s m) = getMessageFingerprint m
  ∧ style (elemData (unmark s m)) !! "backgroundColor" = None
  ∧ border_value (style (elemData (unmark s m)))
    = (if is_element m && keeps_highlight s m
       then Some CONFIG.HIGHLIGHT_BORDER else None)
  ∧ (∀ side, side ∈ sides "border" →
       style (elemData (unmark s m)) !! side
       = (if is_element m && keeps_highlight s m
          then Some CONFIG.HIGHLIGHT_BORDER else None)).
Proof.
  split; [apply is_marked_unmark|].
  split; [intros c Hc; by apply hasClass_unmark_ne|].
  split; [apply childNodes_unmark|].
  split; [apply fingerprint_unmark|].
  rewrite unmark_own.
  destruct m as [t|[tg cl a st it] ks]; [by destruct (keeps_highlight s (Text t))|].
  assert (∀ side, side ∈ sides "border" →
            style (elemData
              ((if keeps_highlight s (Elem (mkElemData tg cl a st it) ks)
                then highlight_style else clear_border)
                 (style_assign "backgroundColor" ""
                    (classList_remove "chat-marked"
                       (Elem (mkElemData tg cl a st it) ks))))) !! side
            = (if keeps_highlight s (Elem (mkElemData tg cl a st it) ks)
               then Some CONFIG.HIGHLIGHT_BORDER else None)) as Hsides.
  { intros side Hside.
    assert (side = "borderTop" ∨ side = "borderRight" ∨ side = "borderBottom"
            ∨ side = "borderLeft") as Hcases.
    { cbv [sides String.append] in Hside.
      repeat (apply elem_of_cons in Hside as [Hside|Hside]; [tauto|]).
      by apply elem_of_nil in Hside. }
    destruct (keeps_highlight s _); style_unfold; cbn [elemData style];
      destruct Hcases as [-> | [-> | [-> | ->]]]; by style_lookup. }
  split; [|split; [|exact Hsides]].
  - destruct (keeps_highlight s _); style_unfold; cbn [elemData style];
      by style_lookup.
  - unfold border_value.
    rewrite !Hsides by (cbv [sides String.append]; set_solver).
    by destruct (keeps_highlight s _).
Qed.

(** X11.  Pinning and then unpinning gives the element that unpinning
    alone gives, positioned relatively: the pin leaves no other trace. *)
Theorem pin_then_unpin (s : State) (m : Node) :
  unmark s (applyMarkerStyle m) = style_assign "position" "relative" (unmark s m).
Proof.
  rewrite !unmark_own.
  assert (keeps_highlight s (applyMarkerStyle m) = keeps_highlight s m) as ->.
  { unfold keeps_highlight, is_own_message, linked_username, applyMarkerStyle,
      style_assign, classList_add.
    by rewrite !querySelector_with_data. }
  destruct m as [t|[tg cl a st it] ks]; [by destruct (keeps_highlight s (Text t))|].
  unfold applyMarkerStyle, classList_add at 1.
  cbn [with_data classList]. unfold set_classList. cbn [classList].
  destruct (keeps_highlight s _); case_bool_decide as Hin;
    style_unfold; f_equal; f_equal.
  all: try (rewrite List.filter_app; simpl; by rewrite app_nil_r).
  all: style_ext.
Qed.

(* ===================================================================== *)
(** * Further properties: the pin button *)
(* ===================================================================== *)

Section TreeFacts.

Local Open Scope list_scope.

Lemma querySelector_Elem_nil p d : querySelector p (Elem d []) = None.
Proof. reflexivity. Qed.

Lemma querySelector_Elem_cons p d k ks :
  querySelector p (Elem d (k :: ks))
  = if is_element k && p k then Some k
    else match querySelector p k with
         | Some x => Some x
         | None => querySelector p (Elem d ks)
         end.
Proof. reflexivity. Qed.

Lemma querySelector_childNodes p n1 n2 :
  childNodes n1 = childNodes n2 → querySelector p n1 = querySelector p n2.
Proof.
  destruct n1 as [t1|d1 ks1], n2 as [t2|d2 ks2]; simpl; intros H; by subst.
Qed.

Lemma querySelector_snoc p d ks b :
  querySelector p (Elem d ks) = None →
  is_element b && p b = true →
  querySelector p (Elem d (ks ++ [b])) = Some b.
Proof.
  intros Hn Hb. induction ks as [|k r IH]; simpl.
  - by rewrite querySelector_Elem_cons, Hb.
  - rewrite querySelector_Elem_cons in Hn |- *.
    destruct (is_element k && p k); [done|].
    destruct (querySelector p k); [done|]. by apply IH.
Qed.

Lemma alter_None {A} (f : A → A) (r : nat) (h : gmap nat A) :
  h !! r = None → alter f r h = h.
Proof.
  intros H. apply map_eq. intros k. destruct (decide (r = k)) as [<-|Hne].
  - by rewrite lookup_alter_eq, H.
  - by rewrite lookup_alter_ne.
Qed.

Lemma alter_at {A} (f g : A → A) (r : nat) (h : gmap nat A) (m : A) :
  h !! r = Some m → f m = g m → alter f r h = alter g r h.
Proof.
  intros H Hfg. apply map_eq. intros k. destruct (decide (r = k)) as [<-|Hne].
  - rewrite !lookup_alter_eq, H. simpl. by rewrite Hfg.
  - by rewrite !lookup_alter_ne.
Qed.

Lemma hasClass_with_marker_button c f n :
  hasClass c (with_marker_button f n) = hasClass c n.
Proof. by destruct n. Qed.

Lemma children_with_marker_button f n :
  (∀ k, is_element (f k) = is_element k) →
  children (with_marker_button f n)
  = (λ k, if is_marker_button k then f k else k) <$> children n.
Proof.
  intros Hf. destruct n as [t|d ks]; [done|].
  unfold children. simpl. induction ks as [|k r IH]; [done|].
  simpl. destruct (is_element k) eqn:Ek; simpl.
  - destruct (is_marker_button k); rewrite ?Hf, Ek; simpl; by rewrite IH.
  - by rewrite Ek.
Qed.

Lemma textContent_with_data g n : textContent (with_data g n) = textContent n.
Proof. by destruct n. Qed.

Lemma fingerprint_with_marker_button p v n :
  getMessageFingerprint (with_marker_button (style_assign p v) n)
  = getMessageFingerprint n.
Proof.
  unfold getMessageFingerprint, timestampText, bodyText.
  rewrite children_with_marker_button
    by (intros k; apply is_element_with_data).
  rewrite !list_lookup_fmap.
  destruct (children n !! 0) as [c0|], (children n !! 5) as [c5|]; simpl;
    repeat match goal with
           | |- context [if is_marker_button ?c then _ else _] =>
               destruct (is_marker_button c)
           end;
    unfold style_assign; rewrite ?textContent_with_data; try done;
    by destruct c5.
Qed.

End TreeFacts.

Section ToggleFacts.

Local Open Scope list_scope.

Lemma set_has_set_delete x fp s :
  set_has x (set_delete fp s) = if decide (x = fp) then false else set_has x s.
Proof.
  unfold set_has, set_delete. case_decide as Hx.
  - subst. apply bool_decide_eq_false_2. rewrite list_elem_of_In, List.filter_In.
    intros [_ H]. by rewrite String.eqb_refl in H.
  - apply bool_decide_ext. rewrite !list_elem_of_In, List.filter_In.
    split; [by intros [? _]|]. intros H. split; [done|].
    by apply negb_true_iff, String.eqb_neq.
Qed.

Lemma set_has_set_add x fp s :
  set_has x (set_add fp s) = if decide (x = fp) then true else set_has x s.
Proof.
  unfold set_add. destruct (set_has fp s) eqn:E.
  - case_decide; by subst.
  - unfold set_has. case_decide as Hx.
    + subst. apply bool_decide_eq_true_2, elem_of_app. right. by left.
    + apply bool_decide_ext. rewrite elem_of_app, list_elem_of_singleton.
      split; [by intros [?|?]|by left].
Qed.

Lemma is_marked_applyMarkerStyle m :
  is_element m = true → is_marked (applyMarkerStyle m) = true.
Proof.
  intros H. unfold is_marked, applyMarkerStyle.
  by rewrite !hasClass_style_assign, hasClass_classList_add_eq.
Qed.

(** One click on the pin button of an element of the store. *)
Lemma toggleMessageMarker_step msg w m :
  heap w !! msg = Some m →
  is_element m = true →
  ∃ w1 m1,
    toggleMessageMarker msg w = (Normal tt, w1)
    ∧ heap w1 !! msg = Some m1
    ∧ is_element m1 = true
    ∧ getMessageFingerprint m1 = getMessageFingerprint m
    ∧ (∀ x, set_has x (markedMessages (state w1))
            = if decide (x = getMessageFingerprint m)
              then negb (set_has x (markedMessages (state w)))
              else set_has x (markedMessages (state w)))
    ∧ is_marked m1 = negb (set_has (getMessageFingerprint m) (markedMessages (state w)))
    ∧ (∀ r, r ≠ msg → heap w1 !! r = heap w !! r)
    ∧ containers w1 = containers w
    ∧ notifications w1 = notifications w.
Proof.
  intros H Hel.
  unfold toggleMessageMarker, bind, deref, gets, removeMarkerStyle, mutate,
    modify_state, modify. simpl.
  rewrite (node_of_Some _ _ _ H).
  destruct (set_has (getMessageFingerprint m) (markedMessages (state w))) eqn:E; simpl.
  - eexists _, _. split; [done|]. simpl. rewrite !lookup_alter_eq, H. simpl.
    split; [done|].
    split. { destruct m; [done|]. unfold unmark. cbv zeta. by case_match. }
    split. { by rewrite fingerprint_with_marker_button, fingerprint_unmark. }
    split. { intros x. rewrite set_has_set_delete. case_decide; [subst; by rewrite E|done]. }
    split. { unfold is_marked. rewrite hasClass_with_marker_button. apply is_marked_unmark. }
    split; [|done]. intros r Hr. by rewrite !lookup_alter_ne.
  - eexists _, _. split; [done|]. simpl. rewrite !lookup_alter_eq, H. simpl.
    split; [done|].
    split. { by destruct m. }
    split. { by rewrite fingerprint_with_marker_button, fingerprint_applyMarkerStyle. }
    split. { intros x. rewrite set_has_set_add. case_decide; [subst; by rewrite E|done]. }
    split. { unfold is_marked. rewrite hasClass_with_marker_button.
             by apply is_marked_applyMarkerStyle. }
    split; [|done]. intros r Hr. by rewrite !lookup_alter_ne.
Qed.

End ToggleFacts.

(** X12.  A click on the pin button of a message flips the membership of
    its fingerprint in the set of pins and of no other, leaves the
    element with the pin class exactly when it is now pinned, keeps its
    fingerprint, and touches no other element; a second click restores
    the membership of every fingerprint. *)
Theorem toggleMessageMarker_flips (msg : nat) (w : World) (m : Node) :
  heap w !! msg = Some m →
  is_element m = true →
  let fp := getMessageFingerprint m in
  let pinned := λ w x, set_has x (markedMessages (state w)) in
  ∃ w1 w2,
    toggleMessageMarker msg w = (Normal tt, w1)
    ∧ toggleMessageMarker msg w1 = (Normal tt, w2)
    ∧ pinned w1 fp = negb (pinned w fp)
    ∧ (∀ x, x ≠ fp → pinned w1 x = pinned w x)
    ∧ is_marked (node_of w1 msg) = pinned w1 fp
    ∧ getMessageFingerprint (node_of w1 msg) = fp
    ∧ (∀ r, r ≠ msg → heap w1 !! r = heap w !! r)
    ∧ (∀ x, pinned w2 x = pinned w x)
    ∧ is_marked (node_of w2 msg) = pinned w fp.
Proof.
  intros H Hel fp pinned.
  destruct (toggleMessageMarker_step msg w m H Hel)
    as (w1 & m1 & Hrun & H1 & Hel1 & Hfp1 & Hset1 & Hm1 & Hfr1 & _).
  destruct (toggleMessageMarker_step msg w1 m1 H1 Hel1)
    as (w2 & m2 & Hrun2 & H2 & Hel2 & Hfp2 & Hset2 & Hm2 & _).
  exists w1, w2. unfold pinned.
  split; [done|]. split; [done|].
  assert (set_has fp (markedMessages (state w1))
          = negb (set_has fp (markedMessages (state w)))) as Hflip.
  { rewrite Hset1. by rewrite decide_True. }
  split; [done|].
  split. { intros x Hx. rewrite Hset1. by rewrite decide_False. }
  split. { by rewrite (node_of_Some _ _ _ H1), Hm1, Hflip. }
  split. { by rewrite (node_of_Some _ _ _ H1). }
  split; [done|].
  split.
  - intros x. rewrite Hset2, Hfp1, !Hset1. fold fp.
    case_decide; [|done]. by rewrite negb_involutive.
  - rewrite (node_of_Some _ _ _ H2), Hm2, Hfp1. fold fp.
    by rewrite Hflip, negb_involutive.
Qed.

Lemma toggleMessageMarker_flips_witness :
  ∃ w1 w2,
    toggleMessageMarker 0 Sample.pinned_page = (Normal tt, w1)
    ∧ toggleMessageMarker 0 w1 = (Normal tt, w2)
    ∧ set_has "12:00:selling" (markedMessages (state w1)) = false
    ∧ is_marked (node_of w1 0) = false
    ∧ is_marked (node_of w2 0) = true.
Proof.
  destruct (toggleMessageMarker_flips 0 Sample.pinned_page Sample.pinned
              ltac:(vm_compute; reflexivity) ltac:(vm_compute; reflexivity))
    as (w1 & w2 & H1 & H2 & Hflip & _ & Hm1 & _ & _ & _ & Hm2).
  exists w1, w2. split_and!; [exact H1|exact H2| | |].
  - assert (getMessageFingerprint Sample.pinned = "12:00:selling") as E
      by (vm_compute; reflexivity).
    rewrite E in Hflip. rewrite Hflip. vm_compute. reflexivity.
  - rewrite Hm1, Hflip. vm_compute. reflexivity.
  - rewrite Hm2. vm_compute. reflexivity.
Defined.

(* ===================================================================== *)
(** * Further properties: adding pin buttons *)
(* ===================================================================== *)

Section ButtonFacts.

Local Open Scope list_scope.

Lemma childNodes_with_last_child f n c :
  is_element n = true →
  childNodes (with_last_child f (applyMarkerStyle (appendChild c n)))
  = childNodes n ++ [f c].
Proof.
  intros Hn.
  pose proof (childNodes_applyMarkerStyle (appendChild c n)) as E.
  rewrite (childNodes_appendChild _ _ Hn) in E.
  destruct (applyMarkerStyle (appendChild c n)) as [|d ks] eqn:Em; simpl in *.
  - by destruct (childNodes n).
  - subst ks. by rewrite update_last_snoc.
Qed.

Lemma alter_alter {A} (f g : A → A) (r : nat) (h : gmap nat A) :
  alter f r (alter g r h) = alter (f ∘ g) r h.
Proof.
  apply map_eq. intros k. destruct (decide (r = k)) as [<-|Hne].
  - rewrite !lookup_alter_eq. by destruct (h !! r).
  - by rewrite !lookup_alter_ne.
Qed.

Lemma set_heap_set_heap h1 h2 w : set_heap h1 (set_heap h2 w) = set_heap h1 w.
Proof. reflexivity. Qed.

Lemma buttoned_Text marked t : buttoned marked (Text t) = Text t.
Proof. unfold buttoned. cbv zeta. by destruct (set_has _ _). Qed.

Lemma has_marker_button_false n :
  has_marker_button n = false → querySelector is_marker_button n = None.
Proof.
  unfold has_marker_button. intros Hn%bool_decide_eq_false.
  destruct (querySelector _ _) as [x|]; [|done]. by destruct Hn.
Qed.

Lemma has_marker_button_buttoned marked d ks :
  has_marker_button (Elem d ks) = false →
  has_marker_button (buttoned marked (Elem d ks)) = true.
Proof.
  intros Hq%has_marker_button_false.
  unfold has_marker_button. apply bool_decide_eq_true_2.
  unfold buttoned. cbv zeta. destruct (set_has _ _).
  - rewrite (querySelector_childNodes _ _
               (Elem d (ks ++ [style_assign "opacity" "1" createMarkerButton]))).
    + by rewrite (querySelector_snoc _ _ _ _ Hq).
    + by rewrite childNodes_with_last_child.
  - rewrite (querySelector_childNodes _ _ (Elem d (ks ++ [createMarkerButton])))
      by done.
    by rewrite (querySelector_snoc _ _ _ _ Hq).
Qed.

Lemma visit_buttoned s m :
  let v := visit (λ _ m, negb (has_marker_button m))
             (λ s, buttoned (markedMessages s)) s in
  v (v m) = v m.
Proof.
  intros v. unfold v, visit.
  destruct (has_marker_button m) eqn:E; simpl; [by rewrite E|].
  destruct m as [t|d ks]; [rewrite !buttoned_Text; by destruct (negb _)|].
  by rewrite (has_marker_button_buttoned _ _ _ E).
Qed.

Lemma addMarkerButtons_message_restyle r w :
  addMarkerButtons_message r w
  = restyle (λ _ m, negb (has_marker_button m))
      (λ s, buttoned (markedMessages s)) r w.
Proof.
  unfold addMarkerButtons_message, restyle, bind, deref, gets, mutate, modify,
    has_marker_button, node_of.
  simpl.
  destruct (heap w !! r) as [m|] eqn:H; simpl.
  - destruct (querySelector is_marker_button m) as [b|] eqn:Hq; simpl.
    { done. }
    rewrite !lookup_alter_eq, H. simpl.
    unfold buttoned at 1. cbv zeta.
    destruct (set_has _ _) eqn:Es; simpl; unfold ret;
      rewrite ?set_heap_set_heap;
      apply (f_equal (λ h, (Normal tt, set_heap h w)));
      rewrite !alter_alter; apply (alter_at _ _ _ _ m H);
      unfold buttoned; simpl; by rewrite Es.
  - change (querySelector is_marker_button (Text "")) with (@None Node).
    simpl.
    rewrite !(alter_None _ r) by (by rewrite ?alter_None).
    destruct (set_has _ _); simpl; unfold ret; rewrite ?set_heap_set_heap;
      [|done].
    apply (f_equal (λ h, (Normal tt, set_heap h w))).
    by rewrite !alter_None by (by rewrite ?alter_None).
Qed.

Lemma addMarkerButtons_run messages w :
  Feat.markers (features (state w)) = true →
  addMarkerButtons messages w
  = (Normal tt,
     set_heap
       (restyled (λ _ m, negb (has_marker_button m))
          (λ s, buttoned (markedMessages s)) (state w) messages (heap w)) w).
Proof.
  intros Hon. unfold addMarkerButtons, bind, gets. simpl. rewrite Hon. simpl.
  rewrite (for_of_ext _ _ _ _ addMarkerButtons_message_restyle).
  apply for_of_restyle.
Qed.

End ButtonFacts.

(** X13.  With pins on, every message of the batch that has no pin
    button gets one, appended last, with the pin style when its
    fingerprint is pinned; a message that has one, and every other
    element, is left as it is.  So each message element of the batch has
    a pin button afterwards, and a second pass adds none. *)
Theorem addMarkerButtons_once (messages : list nat) (w : World) :
  Feat.markers (features (state w)) = true →
  ∃ h,
    addMarkerButtons messages w = (Normal tt, set_heap h w)
    ∧ (∀ r, h !! r = pinnable (markedMessages (state w)) messages r <$> heap w !! r)
    ∧ (∀ r m, r ∈ messages → heap w !! r = Some m → is_element m = true →
              has_marker_button (default m (h !! r)) = true)
    ∧ addMarkerButtons messages (set_heap h w) = (Normal tt, set_heap h w).
Proof.
  intros Hon. eexists. split; [by apply addMarkerButtons_run|].
  assert (∀ r,
    restyled (λ _ m, negb (has_marker_button m))
      (λ s, buttoned (markedMessages s)) (state w) messages (heap w) !! r
    = pinnable (markedMessages (state w)) messages r <$> heap w !! r) as Hl.
  { intros r. rewrite restyled_lookup_idempotent by apply visit_buttoned.
    unfold pinnable, visit. destruct (heap w !! r) as [m|]; simpl; [|done].
    by destruct (bool_decide _). }
  split; [exact Hl|]. split.
  - intros r m Hin H Hel. rewrite Hl, H. simpl. unfold pinnable.
    rewrite (bool_decide_eq_true_2 _ Hin). simpl.
    destruct (has_marker_button m) eqn:E; simpl; [done|].
    destruct m as [|d ks]; [done|]. by apply has_marker_button_buttoned.
  - rewrite addMarkerButtons_run by done. simpl.
    by rewrite restyled_twice by apply visit_buttoned.
Qed.

Lemma addMarkerButtons_once_witness :
  ∃ h,
    addMarkerButtons [0] Sample.pinned_page
    = (Normal tt, set_heap h Sample.pinned_page)
    ∧ has_marker_button (default Sample.pinned (h !! 0)) = true
    ∧ addMarkerButtons [0] (set_heap h Sample.pinned_page)
      = (Normal tt, set_heap h Sample.pinned_page).
Proof.
  destruct (addMarkerButtons_once [0] Sample.pinned_page
              ltac:(vm_compute; reflexivity))
    as (h & Hrun & _ & Hb & Hagain).
  exists h. split_and!; [exact Hrun| |exact Hagain].
  apply Hb.
  - apply (bool_decide_unpack (0 ∈ [0])). vm_compute. exact I.
  - vm_compute. reflexivity.
  - vm_compute. reflexivity.
Defined.

(* ===================================================================== *)
(** * Further properties: removing pins *)
(* ===================================================================== *)

Section RemovalFacts.

Local Open Scope list_scope.

(** Induction on a node with the property available for all child nodes. *)
Lemma Node_nested_ind (P : Node → Prop) :
  (∀ t, P (Text t)) →
  (∀ d ks, Forall P ks → P (Elem d ks)) →
  ∀ n, P n.
Proof.
  intros HT HE. fix IH 1. intros [t|d ks]; [apply HT|].
  apply HE. induction ks as [|k r IHr]; constructor; [apply IH|exact IHr].
Qed.

Lemma removeDescendants_Elem_cons p d k ks :
  removeDescendants p (Elem d (k :: ks))
  = Elem d (if is_element k && p k then childNodes (removeDescendants p (Elem d ks))
            else removeDescendants p k :: childNodes (removeDescendants p (Elem d ks))).
Proof. reflexivity. Qed.

Lemma is_element_removeDescendants p n :
  is_element (removeDescendants p n) = is_element n.
Proof. by destruct n. Qed.

(** Nothing that satisfies the selector is left below the element. *)
Lemma querySelector_removeDescendants p n :
  (∀ k, p (removeDescendants p k) = p k) →
  querySelector p (removeDescendants p n) = None.
Proof.
  intros Hp. induction n as [t|d ks IH] using Node_nested_ind; [done|].
  induction IH as [|k r Hk _ IHr]; [done|].
  rewrite removeDescendants_Elem_cons.
  destruct (is_element k && p k) eqn:E.
  - rewrite <- IHr. by apply querySelector_childNodes.
  - rewrite querySelector_Elem_cons, is_element_removeDescendants, Hp, E, Hk.
    rewrite <- IHr. by apply querySelector_childNodes.
Qed.

Lemma foldr_alter_lookup {A} (f : A → A) (l : list nat) (h : gmap nat A) (r : nat) :
  foldr (λ r h, alter f r h) h l !! r = Nat.iter (occurrences r l) f <$> h !! r.
Proof.
  induction l as [|a l IH]; simpl.
  - by destruct (h !! r).
  - destruct (decide (a = r)) as [->|Hne].
    + rewrite lookup_alter_eq, IH, occurrences_cons_eq. by destruct (h !! r).
    + by rewrite lookup_alter_ne, occurrences_cons_ne.
Qed.

Lemma elem_of_concat_filter (q : nat → bool) (cs : list (list nat)) (r : nat) :
  List.In r (concat (map (List.filter q) cs)) ↔ List.In r (concat cs) ∧ q r = true.
Proof.
  rewrite !List.in_concat. split.
  - intros (c & Hc & Hr). apply List.in_map_iff in Hc as (c0 & <- & Hc0).
    apply List.filter_In in Hr as [Hr Hq]. split; [|done]. by exists c0.
  - intros [(c & Hc & Hr) Hq]. exists (List.filter q c). split.
    + apply List.in_map_iff. by exists c.
    + by apply List.filter_In.
Qed.

(** After [remove_elements] no attached element satisfies the selector or
    has a descendant that does. *)
Lemma remove_elements_none p w r :
  (∀ k, p (removeDescendants p k) = p k) →
  List.In r (concat (containers (remove_elements p w))) →
  p (node_of (remove_elements p w) r) = false
  ∧ querySelector p (node_of (remove_elements p w) r) = None.
Proof.
  intros Hp Hr. simpl in Hr. apply elem_of_concat_filter in Hr as [Hr Hq].
  apply negb_true_iff in Hq.
  unfold node_of, remove_elements in *. simpl. rewrite foldr_alter_lookup.
  destruct (heap w !! r) as [m|] eqn:H; simpl in *; [|done].
  split.
  - by rewrite (iter_preserves _ p _ _ Hp).
  - apply iter_establishes; [by intros; apply querySelector_removeDescendants|].
    apply occurrences_pos. by apply list_elem_of_In.
Qed.

Lemma removeMarkerStyle_restyle r w :
  removeMarkerStyle r w = restyle (λ _ _, true) unmark r w.
Proof. reflexivity. Qed.

Lemma node_of_restyled c f w l r :
  visit c f (state w) (Text "") = Text "" →
  node_of (set_heap (restyled c f (state w) l (heap w)) w) r
  = Nat.iter (occurrences r l) (visit c f (state w)) (node_of w r).
Proof.
  intros Ht. unfold node_of. simpl. rewrite restyled_lookup.
  destruct (heap w !! r) as [m|]; simpl; [done|].
  induction (occurrences r l) as [|k IH]; [done|]. by rewrite Nat.iter_succ, <- IH.
Qed.

Lemma querySelectorAll_nil p w :
  (∀ r, List.In r (concat (containers w)) → p (node_of w r) = false) →
  querySelectorAll p w = [].
Proof. intros H. apply filter_none. by apply List.Forall_forall. Qed.

(** After the unpinning loop over the pinned elements none is pinned. *)
Lemma unpinned_after_loop (f : State → Node → Node) w r :
  (∀ s m, is_marked (f s m) = false) →
  f (state w) (Text "") = Text "" →
  let l := querySelectorAll is_marked w in
  List.In r (concat (containers w)) →
  is_marked (node_of (set_heap (restyled (λ _ _, true) f (state w) l (heap w)) w) r)
  = false.
Proof.
  intros Hf Ht l Hr. rewrite node_of_restyled by done.
  destruct (decide (r ∈ l)) as [Hin|Hout].
  - apply iter_establishes; [intros y; apply Hf|]. by apply occurrences_pos.
  - destruct (occurrences r l) eqn:E;
      [|exfalso; apply Hout, occurrences_pos; lia].
    simpl. destruct (is_marked (node_of w r)) eqn:Em; [|done].
    exfalso. apply Hout. apply list_elem_of_In, List.filter_In. done.
Qed.

End RemovalFacts.

(** X14.  Stopping the pin feature switches it off, forgets every pin,
    and leaves no attached element with the pin class, no pin button
    among the attached elements and none below them. *)
Theorem stopMarkers_clears (w : World) :
  ∃ w',
    stopMarkers w = (Normal tt, w')
    ∧ Feat.markers (features (state w')) = false
    ∧ markedMessages (state w') = []
    ∧ querySelectorAll is_marked w' = []
    ∧ querySelectorAll is_marker_button w' = []
    ∧ querySelectorAll has_marker_button w' = [].
Proof.
  unfold stopMarkers, removeAllMarkerButtons, modify_features, modify_state,
    bind, modify, gets. simpl.
  set (w1 := set_state _ w).
  set (w2 := remove_elements is_marker_button w1).
  rewrite (for_of_ext _ _ _ _ removeMarkerStyle_restyle), for_of_restyle.
  eexists. split; [done|]. simpl.
  split; [done|]. split; [done|].
  assert (∀ k, is_marker_button (removeDescendants is_marker_button k)
               = is_marker_button k) as Hp by (by intros [|]).
  split; [|split]; apply querySelectorAll_nil; simpl; intros r Hr.
  - apply (unpinned_after_loop unmark w2 r); [apply is_marked_unmark|done|done].
  - change (is_marker_button
              (node_of (set_heap (restyled (λ _ _, true) unmark (state w2)
                 (querySelectorAll is_marked w2) (heap w2)) w2) r) = false).
    rewrite node_of_restyled by done.
    rewrite (iter_preserves _ is_marker_button)
      by (intros y; by apply hasClass_unmark_ne).
    by apply (remove_elements_none _ w1 r Hp).
  - change (has_marker_button
              (node_of (set_heap (restyled (λ _ _, true) unmark (state w2)
                 (querySelectorAll is_marked w2) (heap w2)) w2) r) = false).
    rewrite node_of_restyled by done. unfold has_marker_button.
    rewrite (iter_preserves _ (querySelector is_marker_button))
      by (intros y; apply querySelector_unmark).
    pose proof (proj2 (remove_elements_none _ w1 r Hp Hr)) as Hq.
    fold w2 in Hq. rewrite Hq.
    apply bool_decide_eq_false_2. by intros [? ?].
Qed.

(* ===================================================================== *)
(** * Further properties: clearing pins, stopping the highlighter and the
      keyword watcher *)
(* ===================================================================== *)

Section StopFacts.

Local Open Scope list_scope.

Lemma alterDescendant_Elem_cons p f d k ks :
  alterDescendant p f (Elem d (k :: ks))
  = Elem d (if is_element k && p k then f k :: ks
            else match querySelector p k with
                 | Some _ => alterDescendant p f k :: ks
                 | None => k :: childNodes (alterDescendant p f (Elem d ks))
                 end).
Proof. reflexivity. Qed.

Lemma removeDescendant_Elem_cons p d k ks :
  removeDescendant p (Elem d (k :: ks))
  = Elem d (if is_element k && p k then ks
            else match querySelector p k with
                 | Some _ => removeDescendant p k :: ks
                 | None => k :: childNodes (removeDescendant p (Elem d ks))
                 end).
Proof. reflexivity. Qed.

Lemma is_element_alterDescendant p f n :
  is_element (alterDescendant p f n) = is_element n.
Proof. by destruct n. Qed.

(** Restyling the first match neither adds nor removes a match. *)
Lemma querySelector_alterDescendant p f n :
  (∀ k, is_element (f k) = is_element k) →
  (∀ k, p (f k) = p k) →
  (∀ k, p (alterDescendant p f k) = p k) →
  is_Some (querySelector p (alterDescendant p f n)) ↔ is_Some (querySelector p n).
Proof.
  intros Hel Hf Hp. induction n as [t|d ks IH] using Node_nested_ind; [done|].
  induction IH as [|k r Hk _ IHr]; [done|].
  rewrite alterDescendant_Elem_cons, (querySelector_Elem_cons _ _ k r).
  destruct (is_element k && p k) eqn:E.
  - rewrite querySelector_Elem_cons, Hel, Hf, E. done.
  - destruct (querySelector p k) as [x|] eqn:Eq.
    + rewrite querySelector_Elem_cons, is_element_alterDescendant, Hp, E.
      destruct (querySelector p (alterDescendant p f k)) as [y|] eqn:Ey; [done|].
      exfalso. assert (is_Some (@None Node)) as [? ?]; [|done]. by apply Hk.
    + rewrite querySelector_Elem_cons, E, Eq. rewrite <- IHr.
      by rewrite (querySelector_childNodes p (Elem d _) (alterDescendant p f (Elem d r))).
Qed.

Lemma has_marker_button_unpin_and_dim s m :
  has_marker_button (unpin_and_dim s m) = has_marker_button m.
Proof.
  unfold has_marker_button, unpin_and_dim. apply bool_decide_ext.
  rewrite querySelector_alterDescendant.
  - by rewrite querySelector_unmark.
  - intros k. apply is_element_with_data.
  - intros k. apply hasClass_style_assign.
  - by intros [|].
Qed.

Lemma is_marked_unpin_and_dim s m : is_marked (unpin_and_dim s m) = false.
Proof.
  unfold unpin_and_dim. rewrite <- (is_marked_unmark s m).
  by destruct (unmark s m).
Qed.

Lemma clearAllMarkers_body_restyle r w :
  (removeMarkerStyle r ;;
   mutate r (alterDescendant is_marker_button (style_assign "opacity" "0.6"))) w
  = restyle (λ _ _, true) unpin_and_dim r w.
Proof.
  unfold removeMarkerStyle, restyle, bind, gets, deref, mutate, modify. simpl.
  by rewrite set_heap_set_heap, alter_alter.
Qed.

(** After a loop that takes a class away from the elements that bear it,
    no attached element bears it. *)
Lemma class_gone_after_loop (q : Node → bool) (f : State → Node → Node) w r :
  (∀ s m, q (f s m) = false) →
  f (state w) (Text "") = Text "" →
  List.In r (concat (containers w)) →
  q (node_of (set_heap (restyled (λ _ _, true) f (state w)
                          (querySelectorAll q w) (heap w)) w) r)
  = false.
Proof.
  intros Hf Ht Hr. rewrite node_of_restyled by done.
  destruct (decide (r ∈ querySelectorAll q w)) as [Hin|Hout].
  - apply iter_establishes; [intros y; apply Hf|]. by apply occurrences_pos.
  - destruct (occurrences r (querySelectorAll q w)) eqn:E;
      [|exfalso; apply Hout, occurrences_pos; lia].
    simpl. destruct (q (node_of w r)) eqn:Em; [|done].
    exfalso. apply Hout. apply list_elem_of_In, List.filter_In. done.
Qed.

Lemma hasClass_removeDescendant c p n :
  hasClass c (removeDescendant p n) = hasClass c n.
Proof. by destruct n. Qed.

Lemma is_keyword_match_unhighlight m : is_keyword_match (unhighlight m) = false.
Proof.
  unfold is_keyword_match, unhighlight.
  by rewrite hasClass_removeDescendant, !hasClass_style_assign,
    hasClass_classList_remove_eq.
Qed.

Lemma hasClass_clear_border c m : hasClass c (clear_border m) = hasClass c m.
Proof. unfold clear_border. by rewrite !hasClass_style_assign. Qed.

End StopFacts.

(** X15.  Clearing all pins forgets every pin and leaves no attached
    element with the pin class, but, unlike stopping the feature, it
    keeps the feature switches and the containers as they are and every
    element keeps its pin button if it had one. *)
Theorem clearAllMarkers_keeps_buttons (w : World) :
  ∃ w',
    clearAllMarkers w = (Normal tt, w')
    ∧ markedMessages (state w') = []
    ∧ features (state w') = features (state w)
    ∧ containers w' = containers w
    ∧ querySelectorAll is_marked w' = []
    ∧ ∀ r, has_marker_button (node_of w' r) = has_marker_button (node_of w r).
Proof.
  unfold clearAllMarkers, modify_state, bind, modify, gets. simpl.
  set (w1 := set_state _ w).
  rewrite (for_of_ext _ _ _ _ clearAllMarkers_body_restyle), for_of_restyle.
  eexists. split; [done|].
  split; [done|]. split; [done|]. split; [done|]. split.
  - apply querySelectorAll_nil. intros r Hr.
    apply (class_gone_after_loop is_marked unpin_and_dim w1 r);
      [apply is_marked_unpin_and_dim|done|done].
  - intros r. change (node_of w r) with (node_of w1 r).
    rewrite node_of_restyled by done.
    apply (iter_preserves _ has_marker_button).
    intros y. apply has_marker_button_unpin_and_dim.
Qed.

Lemma clear_border_clears m k :
  k ∈ (sides "border" ++ sides "padding" ++ ["borderRadius"])%list →
  style (elemData (clear_border m)) !! k = None.
Proof.
  intros Hk. destruct m as [t|[tg cl a st it] ks]; [done|].
  cbv [sides String.append app] in Hk.
  style_unfold. cbn [elemData style].
  repeat (apply elem_of_cons in Hk as [->|Hk]; [by style_lookup|]).
  by apply elem_of_nil in Hk.
Qed.

(** X16.  Stopping the highlighter switches it off and takes border,
    border radius and padding away from the attached chat elements whose
    style mentions a border, except from the pinned ones, which it leaves
    as they are together with every other element; the identity, the
    containers and the rest of the state stay.  An element it clears has
    no border and no padding left on any side, so a keyword highlight on
    it loses its left border and left padding too, while pinned
    elements keep their pin border. *)
Theorem stopHighlighter_spares_pins (w : World) :
  ∃ h,
    stopHighlighter w
    = (Normal tt,
       set_heap h
         (set_state
            (set_features (Feat.set_highlighting false (features (state w)))
               (state w)) w))
    ∧ (∀ r, h !! r
            = unbordered (querySelectorAll is_bordered_chat_txt w) r <$> heap w !! r)
    ∧ (∀ r m, heap w !! r = Some m →
              r ∈ querySelectorAll is_bordered_chat_txt w →
              is_marked m = false →
              ∀ k, k ∈ (sides "border" ++ sides "padding" ++ ["borderRadius"])%list →
                   style (elemData (default m (h !! r))) !! k = None)
    ∧ (∀ r m, heap w !! r = Some m → is_marked m = true → h !! r = Some m).
Proof.
  unfold stopHighlighter, modify_features, modify_state, bind, modify, gets. simpl.
  set (w1 := set_state _ w).
  change (for_of ?l _ w1)
    with (for_of l (restyle (λ _ m, negb (hasClass "chat-marked" m))
                      (λ _, clear_border)) w1).
  rewrite for_of_restyle. eexists. split; [done|].
  assert (∀ r,
    restyled (λ _ m, negb (hasClass "chat-marked" m)) (λ _, clear_border)
      (state w1) (querySelectorAll is_bordered_chat_txt w1) (heap w1) !! r
    = unbordered (querySelectorAll is_bordered_chat_txt w) r <$> heap w !! r) as Hl.
  { intros r. rewrite restyled_lookup_idempotent.
    - unfold unbordered, visit, is_marked. simpl.
      destruct (heap w !! r) as [m|]; simpl; [|done].
      by destruct (bool_decide _).
    - apply visit_idempotent; intros m;
        [by rewrite hasClass_clear_border|apply clear_border_idempotent]. }
  split; [exact Hl|]. split.
  - intros r m Hm Hsel Hpin k Hk. rewrite Hl, Hm. simpl. unfold unbordered.
    rewrite (bool_decide_eq_true_2 _ Hsel), Hpin. simpl.
    by apply clear_border_clears.
  - intros r m Hm Hpin. rewrite Hl, Hm. simpl. unfold unbordered.
    rewrite Hpin. by rewrite andb_false_r.
Qed.

(** X17.  Stopping the keyword watcher switches it off, forgets the
    matches on record and leaves no attached element with the
    keyword-match class; the keyword list and the containers stay. *)
Theorem stopKeywordWatcher_clears (w : World) :
  ∃ w',
    stopKeywordWatcher w = (Normal tt, w')
    ∧ Feat.keywords (features (state w')) = false
    ∧ keywordMatches (state w') = []
    ∧ keywords (state w') = keywords (state w)
    ∧ containers w' = containers w
    ∧ querySelectorAll is_keyword_match w' = [].
Proof.
  unfold stopKeywordWatcher, removeKeywordHighlights, modify_features,
    modify_state, bind, modify, gets. simpl.
  set (w1 := set_state _ (set_state _ w)).
  change (for_of ?l _ w1)
    with (for_of l (restyle (λ _ _, true) (λ _, unhighlight)) w1).
  rewrite for_of_restyle. eexists. split; [done|].
  split; [done|]. split; [done|]. split; [done|]. split; [done|].
  apply querySelectorAll_nil. intros r Hr.
  apply (class_gone_after_loop is_keyword_match (λ _, unhighlight) w1 r);
    [intros _ m; apply is_keyword_match_unhighlight|done|done].
Qed.

(* ===================================================================== *)
(** * Further properties: keyword highlight round trip, fingerprints *)
(* ===================================================================== *)

Section RoundTrip.

Local Open Scope list_scope.

Lemma removeDescendant_snoc p d ks b :
  querySelector p (Elem d ks) = None →
  is_element b && p b = true →
  removeDescendant p (Elem d (ks ++ [b])) = Elem d ks.
Proof.
  intros Hn Hb. induction ks as [|k r IH]; cbn [app].
  - by rewrite removeDescendant_Elem_cons, Hb.
  - rewrite querySelector_Elem_cons in Hn.
    rewrite removeDescendant_Elem_cons.
    destruct (is_element k && p k); [done|].
    destruct (querySelector p k); [done|]. by rewrite IH.
Qed.

Lemma removeDescendant_update_child p d ks b i :
  (∀ k, p (appendChild b k) = p k) →
  querySelector p (Elem d ks) = None →
  is_element b && p b = true →
  removeDescendant p (Elem d (update_child i (appendChild b) ks)) = Elem d ks.
Proof.
  intros Hp Hn Hb. revert i. induction ks as [|k r IH]; intros i; [done|].
  rewrite querySelector_Elem_cons in Hn.
  destruct (is_element k && p k) eqn:E; [done|].
  destruct (querySelector p k) eqn:Eq; [done|].
  cbn [update_child]. destruct (is_element k) eqn:Ek; cbn [andb] in E.
  - destruct i as [|i].
    + rewrite removeDescendant_Elem_cons, is_element_appendChild, Ek, Hp, E.
      destruct k as [t|dk kk]; [done|]. cbn [appendChild andb].
      rewrite (querySelector_snoc _ _ _ _ Eq Hb).
      by rewrite (removeDescendant_snoc _ _ _ _ Eq Hb).
    + rewrite removeDescendant_Elem_cons, Ek, E, Eq. cbn [andb]. by rewrite IH.
  - rewrite removeDescendant_Elem_cons, Ek, Eq. cbn [andb]. by rewrite IH.
Qed.

Lemma filter_ne_snoc (c : string) (cl : list string) :
  c ∉ cl →
  List.filter (λ y, negb (String.eqb y c)) (cl ++ [c]) = cl.
Proof.
  intros Hc. rewrite List.filter_app. simpl. rewrite String.eqb_refl. simpl.
  rewrite app_nil_r. induction cl as [|a r IH]; [done|].
  simpl. apply not_elem_of_cons in Hc as [Hne Hr].
  destruct (String.eqb_spec a c) as [->|_]; [done|]. simpl. by rewrite IH.
Qed.

End RoundTrip.

(** X18.  On a message element that bears no keyword highlight and whose
    style has no border and no padding on the left side and no
    background colour (so neither the class nor a declaration that the
    highlight overwrites, and no badge below it), highlighting a keyword
    and then removing the highlight gives the element back as it was. *)
Theorem keyword_highlight_round_trip (keyword : string) (m : Node) :
  is_keyword_match m = false →
  style (elemData m) !! "borderLeft" = None →
  style (elemData m) !! "backgroundColor" = None →
  style (elemData m) !! "paddingLeft" = None →
  querySelector is_keyword_badge m = None →
  unhighlight (keyword_style keyword m) = m.
Proof.
  intros Hc Hb Hg Hp Hq. destruct m as [t|[tg cl a st it] ks]; [done|].
  unfold is_keyword_match, hasClass in Hc. simpl in *.
  apply bool_decide_eq_false in Hc.
  unfold keyword_style, unhighlight, classList_add at 1.
  cbn [with_data classList]. rewrite (bool_decide_eq_false_2 _ Hc).
  style_unfold.
  rewrite removeDescendant_update_child.
  - f_equal. f_equal.
    + by apply filter_ne_snoc.
    + apply map_eq. intros k.
      destruct (decide ("paddingLeft" = k)) as [<-|?]; [by style_lookup|].
      destruct (decide ("backgroundColor" = k)) as [<-|?]; [by style_lookup|].
      destruct (decide ("borderLeft" = k)) as [<-|?]; by style_lookup.
  - by intros [|].
  - rewrite <- Hq. by apply querySelector_childNodes.
  - by vm_compute.
Qed.

Lemma keyword_highlight_round_trip_witness :
  unhighlight (keyword_style "dragon egg" Sample.hello) = Sample.hello.
Proof.
  apply keyword_highlight_round_trip; vm_compute; reflexivity.
Defined.

(* ===================================================================== *)
(** * Further properties: fingerprints and the session marker *)
(* ===================================================================== *)

Section ColonFacts.

Lemma space_is_no_colon c : is_space c && Ascii.eqb c ":" = false.
Proof. destruct c as [[] [] [] [] [] [] [] []]; reflexivity. Qed.

Lemma contains_colon_trimStart s :
  contains_char ":" (trimStart s) = contains_char ":" s.
Proof.
  induction s as [|c r IH]; [done|]. simpl.
  pose proof (space_is_no_colon c) as H.
  destruct (is_space c); [|done]. simpl in H. by rewrite H, IH.
Qed.

Lemma contains_colon_trimEnd s :
  contains_char ":" (trimEnd s) = contains_char ":" s.
Proof.
  induction s as [|c r IH]; [done|]. simpl.
  pose proof (space_is_no_colon c) as H.
  destruct (is_space c); simpl in *.
  - destruct (trimEnd r) eqn:E; simpl in *; by rewrite H, <- IH.
  - by rewrite IH.
Qed.

Lemma contains_colon_join a b : contains_char ":" (a ++ ":" ++ b) = true.
Proof.
  induction a as [|c r IH]; [done|].
  change (contains_char ":" (String c (r ++ ":" ++ b)) = true).
  simpl. rewrite IH. by destruct (Ascii.eqb c ":").
Qed.

End ColonFacts.

(** X19.  A fingerprint always holds a colon, so it is never the empty
    string: a fingerprint put on record is always a truthy record. *)
Theorem fingerprint_has_colon (m : Node) :
  contains_char ":" (getMessageFingerprint m) = true
  ∧ getMessageFingerprint m ≠ ""
  ∧ truthy (Some (getMessageFingerprint m)) = true.
Proof.
  assert (contains_char ":" (getMessageFingerprint m) = true) as H.
  { unfold getMessageFingerprint, trim.
    by rewrite contains_colon_trimEnd, contains_colon_trimStart,
      contains_colon_join. }
  split; [done|].
  destruct (getMessageFingerprint m) eqn:E; [done|]. done.
Qed.

(** X20.  With the session marker on, a batch without a removal signal,
    a batch that arrives while nothing is on record, and a batch that
    holds no message with the recorded fingerprint insert nothing: the
    fingerprint of the first message of the batch goes on record and
    everything else stays. *)
Theorem session_marker_records_first
    (w : World) (first : nat) (rest : list nat) (mutations : list MutationRecord) :
  Feat.separator (features (state w)) = true →
  chatWasCleared mutations = false
  ∨ truthy (lastKnownMessage (state w)) = false
  ∨ first_with_fingerprint w (default "" (lastKnownMessage (state w)))
      (first :: rest) = None →
  checkForSessionChange (first :: rest) mutations w
  = (Normal tt,
     set_state
       (set_lastKnownMessage (Some (getMessageFingerprint (node_of w first)))
          (state w)) w).
Proof.
  intros Hon H. unfold checkForSessionChange, bind, gets. simpl. rewrite Hon. simpl.
  destruct (chatWasCleared mutations) eqn:Ec; simpl; [|done].
  destruct (truthy (lastKnownMessage (state w))) eqn:Et; simpl; [|done].
  destruct H as [H|[H|H]]; [done|done|]. by rewrite H.
Qed.

Lemma session_marker_records_first_witness :
  checkForSessionChange [0] Sample.purge Sample.bare_page
  = (Normal tt,
     set_state
       (set_lastKnownMessage (Some (getMessageFingerprint (node_of Sample.bare_page 0)))
          (state Sample.bare_page))
       Sample.bare_page).
Proof.
  apply session_marker_records_first.
  - vm_compute. reflexivity.
  - right. left. vm_compute. reflexivity.
Defined.

(** X21.  The recorded message comes back in a batch with a removal
    signal but has no parent: the session marker throws.  The separator
    element it created stays unattached, the containers are as before,
    and the state, the record included, is not updated. *)
Theorem session_marker_detached_target
    (w : World) (messages : list nat) (mutations : list MutationRecord)
    (F : string) (target : nat) :
  Feat.separator (features (state w)) = true →
  chatWasCleared mutations = true →
  lastKnownMessage (state w) = Some F →
  F ≠ "" →
  first_with_fingerprint w F messages = Some target →
  parentElement w target = None →
  checkForSessionChange messages mutations w
  = (Thrown "TypeError: beforeMessage.parentElement is null",
     set_heap (<[fresh (dom (heap w)) := separator_element]> (heap w)) w).
Proof.
  intros Hon Hc Hl HF Hfind Hp.
  unfold checkForSessionChange, bind, gets. simpl.
  rewrite Hon, Hc, Hl. simpl. rewrite (is_empty_false _ HF). simpl.
  rewrite Hfind.
  unfold insertSeparator, bind, gets, adopt, divider_precedes,
    previousElementSibling. rewrite Hp. simpl.
  replace (parentElement (set_heap _ w) target) with (parentElement w target)
    by done.
  by rewrite Hp.
Qed.

Lemma session_marker_detached_target_witness :
  checkForSessionChange [0; 1] Sample.refresh Sample.detached_page
  = (Thrown "TypeError: beforeMessage.parentElement is null",
     set_heap (<[fresh (dom (heap Sample.detached_page)) := separator_element]>
                 (heap Sample.detached_page))
       Sample.detached_page).
Proof.
  assert ("12:00:hello alice" ≠ "") as HF by discriminate.
  apply (session_marker_detached_target Sample.detached_page [0; 1] Sample.refresh
           "12:00:hello alice" 0); try exact HF; vm_compute; reflexivity.
Defined.

(* ===================================================================== *)
(** * Further properties: batches of attached messages *)
(* ===================================================================== *)

Section PreservesFacts.

Context {A B C : Type} (g : World → C).

Lemma preserves_ret (a : A) : preserves g (ret a).
Proof. by intros w. Qed.

Lemma preserves_gets (f : World → A) : preserves g (gets f).
Proof. by intros w. Qed.

Lemma preserves_bind (m : M A) (f : A → M B) :
  preserves g m → (∀ a, preserves g (f a)) → preserves g (bind m f).
Proof.
  intros Hm Hf w. unfold bind. specialize (Hm w).
  destruct (m w) as [[a|e] w']; simpl in *; [|done].
  by rewrite Hf.
Qed.

Lemma preserves_modify (f : World → World) :
  (∀ w, g (f w) = g w) → preserves g (modify f).
Proof. intros H w. apply H. Qed.

End PreservesFacts.

Lemma preserves_for_of {A C} (g : World → C) (xs : list A) (body : A → M unit) :
  (∀ x, preserves g (body x)) → preserves g (for_of xs body).
Proof.
  intros Hb. induction xs as [|x r IH]; simpl.
  - apply preserves_ret.
  - apply preserves_bind; [apply Hb|]. intros _. exact IH.
Qed.

Ltac preserves_auto :=
  repeat first
    [ apply preserves_ret | apply preserves_gets
    | apply preserves_modify; intros ?; reflexivity
    | apply preserves_for_of; intros ?
    | apply preserves_bind; [|intros ?]
    | progress unfold modify_state, modify_features, showNotification,
        mutate, deref
    | case_match ].

Lemma checkForMentions_outline messages : preserves outline (checkForMentions messages).
Proof. unfold checkForMentions, checkForMentions_message. preserves_auto. Qed.

Lemma highlightOwnMessages_outline messages :
  preserves outline (highlightOwnMessages messages).
Proof. unfold highlightOwnMessages, highlightOwnMessages_message. preserves_auto. Qed.

Lemma addMarkerButtons_outline messages : preserves outline (addMarkerButtons messages).
Proof. unfold addMarkerButtons, addMarkerButtons_message. preserves_auto. Qed.

Lemma checkForKeywords_outline messages : preserves outline (checkForKeywords messages).
Proof.
  unfold checkForKeywords, checkForKeywords_message, applyKeywordHighlight.
  preserves_auto.
Qed.

Lemma update_lastKnownMessage_run messages w :
  ∃ w', update_lastKnownMessage messages w = (Normal tt, w')
        ∧ console_errors w' = console_errors w.
Proof. destruct messages; by eexists. Qed.

(** The session marker returns when the messages of the batch have a
    parent, and logs nothing. *)
Lemma checkForSessionChange_attached messages mutations w :
  (∀ r, r ∈ messages → is_Some (parentElement w r)) →
  ∃ w', checkForSessionChange messages mutations w = (Normal tt, w')
        ∧ console_errors w' = console_errors w.
Proof.
  intros Hp. unfold checkForSessionChange, bind, gets. simpl.
  destruct (negb (Feat.separator _)); [by eexists|].
  destruct (negb (chatWasCleared _)); [apply update_lastKnownMessage_run|].
  destruct (negb (truthy _)); [apply update_lastKnownMessage_run|].
  destruct (first_with_fingerprint _ _ _) as [target|] eqn:Ef;
    [|apply update_lastKnownMessage_run].
  apply List.find_some in Ef as [Hin _]. apply list_elem_of_In in Hin.
  destruct (Hp _ Hin) as [p Hparent].
  destruct (divider_precedes w target) eqn:Ed.
  - rewrite (insertSeparator_present _ _ Ed). apply update_lastKnownMessage_run.
  - rewrite (insertSeparator_absent _ _ _ Ed Hparent).
    destruct (update_lastKnownMessage_run messages
                (set_containers
                   (alter (insert_before (fresh (dom (heap w))) target) p
                      (containers w))
                   (set_heap (<[fresh (dom (heap w)):=separator_element]> (heap w)) w)))
      as (w' & -> & He).
    by exists w'.
Qed.

(** X22.  When every message of a batch has a parent, no handler throws:
    the dispatcher returns without logging an error, and all five
    handlers have run in dispatch order. *)
Theorem attached_batch_no_error (mutations : list MutationRecord) (w : World) :
  let messages := newMessages w mutations in
  (∀ r, r ∈ messages → is_Some (parentElement w r)) →
  ∃ w',
    handleChatMutations mutations w = (Normal tt, w')
    ∧ console_errors w' = console_errors w
    ∧ (messages ≠ [] → run_all (handlers messages mutations) w = (Normal tt, w')).
Proof.
  intros messages Hp.
  unfold handleChatMutations, bind, gets. simpl. fold messages.
  destruct messages as [|first rest] eqn:Em; [by exists w|].
  rewrite <- Em in *. replace (length messages =? 0) with false by (by rewrite Em).
  unfold try_catch. rewrite process_features_run_all. unfold handlers, run_all, bind.
  destruct (checkForMentions_total messages w) as ([] & w1 & E1).
  pose proof (checkForMentions_outline messages w) as O1. rewrite E1 in *. simpl in O1.
  destruct (highlightOwnMessages_total messages w1) as ([] & w2 & E2).
  pose proof (highlightOwnMessages_outline messages w1) as O2. rewrite E2 in *.
  simpl in O2.
  assert (containers w2 = containers w) as Hc
    by (unfold outline in *; congruence).
  destruct (checkForSessionChange_attached messages mutations w2) as (w3 & E3 & O3).
  { intros r Hr. unfold parentElement. rewrite Hc. by apply Hp. }
  rewrite E3.
  destruct (addMarkerButtons_total messages w3) as ([] & w4 & E4).
  pose proof (addMarkerButtons_outline messages w3) as O4. rewrite E4 in *.
  simpl in O4.
  destruct (checkForKeywords_total messages w4) as ([] & w5 & E5).
  pose proof (checkForKeywords_outline messages w4) as O5. rewrite E5 in *.
  simpl in O5. unfold ret.
  exists w5. split; [done|]. split; [|done].
  unfold outline in *. congruence.
Qed.

Lemma attached_batch_no_error_witness :
  ∃ w',
    handleChatMutations Sample.refresh Sample.first_known = (Normal tt, w')
    ∧ console_errors w' = [].
Proof.
  assert (newMessages Sample.first_known Sample.refresh = [0; 1]) as E
    by (vm_compute; reflexivity).
  destruct (attached_batch_no_error Sample.refresh Sample.first_known)
    as (w' & Hrun & He & _).
  - rewrite E. intros r Hr. exists 0.
    apply elem_of_cons in Hr as [->|Hr]; [vm_compute; reflexivity|].
    apply list_elem_of_singleton in Hr as ->. vm_compute. reflexivity.
  - exists w'. split; [exact Hrun|]. rewrite He. vm_compute. reflexivity.
Defined.

(* ===================================================================== *)
(** * Further properties: looking for the chat container *)
(* ===================================================================== *)

Lemma first_selected_chat doc :
  first_selected doc CHAT_SELECTORS
  = match doc "#chatzoneDesktop" with
    | Some c => Some c
    | None => doc "#chatzoneMobile"
    end.
Proof.
  unfold CHAT_SELECTORS. simpl.
  destruct (doc "#chatzoneDesktop"); [done|]. by destruct (doc "#chatzoneMobile").
Qed.

Lemma findChatContainer_from_spec i remaining page :
  match findChatContainer_from i remaining page with
  | Found container delays =>
      i ≤ delays < i + remaining
      ∧ first_selected (page delays) CHAT_SELECTORS = Some container
      ∧ ∀ j, i ≤ j < delays → absent page j
  | NotFound delays =>
      delays = i + remaining ∧ ∀ j, i ≤ j < i + remaining → absent page j
  end.
Proof.
  revert i. induction remaining as [|k IH]; intros i; cbn [findChatContainer_from].
  - split; [lia|]. intros j Hj. lia.
  - destruct (first_selected (page i) CHAT_SELECTORS) as [c|] eqn:E.
    + split; [lia|]. split; [done|]. intros j Hj. lia.
    + specialize (IH (S i)).
      assert (absent page i) as Hi.
      { rewrite first_selected_chat in E. unfold absent.
        destruct (page i "#chatzoneDesktop"); [done|]. done. }
      destruct (findChatContainer_from (S i) k page) as [c d|d].
      * destruct IH as (Hd & Hc & Hj). split; [lia|]. split; [done|].
        intros j Hij. destruct (decide (j = i)) as [->|]; [done|]. apply Hj. lia.
      * destruct IH as (Hd & Hj). split; [lia|].
        intros j Hij. destruct (decide (j = i)) as [->|]; [done|]. apply Hj. lia.
Qed.

(** X23.  The search for the chat container makes at most [maxAttempts]
    attempts.  It ends at the first attempt at which one of the two
    containers is in the document, having waited one delay per earlier
    attempt, and returns the desktop container when both are there; it
    gives up, after [maxAttempts] delays, exactly when none was there at
    any attempt. *)
Theorem findChatContainer_first_attempt (maxAttempts : nat) (page : nat → Document) :
  match findChatContainer maxAttempts page with
  | Found container delays =>
      delays < maxAttempts
      ∧ (∀ j, j < delays → absent page j)
      ∧ match page delays "#chatzoneDesktop" with
        | Some desktop => container = desktop
        | None => page delays "#chatzoneMobile" = Some container
        end
  | NotFound delays =>
      delays = maxAttempts ∧ ∀ j, j < maxAttempts → absent page j
  end.
Proof.
  unfold findChatContainer.
  pose proof (findChatContainer_from_spec 0 maxAttempts page) as H.
  destruct (findChatContainer_from 0 maxAttempts page) as [c d|d].
  - destruct H as (Hd & Hc & Hj). split; [lia|]. split.
    + intros j Hlt. apply Hj. lia.
    + rewrite first_selected_chat in Hc.
      destruct (page d "#chatzoneDesktop"); [by simplify_eq|done].
  - destruct H as (Hd & Hj). split; [lia|]. intros j Hlt. apply Hj. lia.
Qed.

(* ===================================================================== *)
(** * Further properties: the keyword list *)
(* ===================================================================== *)

Section ParserFacts.

Local Open Scope list_scope.

Lemma lower_char_paren c :
  (Ascii.eqb (lower_char c) "(" || Ascii.eqb (lower_char c) ")")
  = (Ascii.eqb c "(" || Ascii.eqb c ")").
Proof. destruct c as [[] [] [] [] [] [] [] []]; reflexivity. Qed.

Lemma toLowerCase_remove_parens s :
  toLowerCase (remove_parens s) = remove_parens (toLowerCase s).
Proof.
  induction s as [|c r IH]; [done|].
  rewrite toLowerCase_cons. simpl. rewrite lower_char_paren.
  destruct (Ascii.eqb c "(" || Ascii.eqb c ")"); [done|].
  by rewrite toLowerCase_cons, IH.
Qed.

Lemma remove_parens_no_paren s :
  contains_char "(" (remove_parens s) = false
  ∧ contains_char ")" (remove_parens s) = false.
Proof.
  induction s as [|c r [IH1 IH2]]; [done|]. simpl.
  destruct (Ascii.eqb c "(") eqn:E1; [done|].
  destruct (Ascii.eqb c ")") eqn:E2; [done|]. simpl.
  by rewrite E1, E2, IH1, IH2.
Qed.

Lemma parse_keywords_clean input : Forall clean_keyword (parse_keywords input).
Proof.
  unfold parse_keywords. apply List.Forall_forall. intros k Hk.
  apply List.filter_In in Hk as [Hk Hne].
  apply List.in_map_iff in Hk as (k0 & <- & _).
  split_and!.
  - intros E. by rewrite E in Hne.
  - by rewrite toLowerCase_remove_parens, toLowerCase_idempotent.
  - apply remove_parens_no_paren.
  - apply remove_parens_no_paren.
Qed.

Lemma NoDup_set_add x (s : list string) : NoDup s → NoDup (set_add x s).
Proof.
  intros H. unfold set_add. destruct (set_has x s) eqn:E; [done|].
  apply NoDup_app. split_and!; [done| |apply NoDup_singleton].
  intros y Hy Hx. apply list_elem_of_singleton in Hx as ->.
  by apply set_has_false in E.
Qed.

Lemma NoDup_foldl_set_add (acc l : list string) :
  NoDup acc → NoDup (foldl (λ acc x, set_add x acc) acc l).
Proof.
  revert acc. induction l as [|x l IH]; intros acc H; [done|].
  simpl. by apply IH, NoDup_set_add.
Qed.

Lemma NoDup_set_from_array (l : list string) : NoDup (set_from_array l).
Proof. apply NoDup_foldl_set_add. constructor. Qed.

Lemma map_toLowerCase_id (l : list string) :
  Forall (λ k, toLowerCase k = k) l → map toLowerCase l = l.
Proof. induction 1 as [|k l Hk _ IH]; [done|]. simpl. by rewrite Hk, IH. Qed.

End ParserFacts.

Section BlankAnswer.

Lemma space_is_no_comma c : is_space c && Ascii.eqb c "," = false.
Proof. destruct c as [[] [] [] [] [] [] [] []]; reflexivity. Qed.

Lemma trimEnd_empty_no_comma s :
  is_empty (trimEnd s) = true → contains_char "," s = false.
Proof.
  induction s as [|c r IH]; [done|]. simpl.
  pose proof (space_is_no_comma c) as Hc.
  destruct (is_space c); simpl in *; [|done].
  destruct (is_empty (trimEnd r)); simpl; [|done].
  intros _. by rewrite Hc, IH.
Qed.

Lemma trim_empty_no_comma s :
  is_empty (trim s) = true → contains_char "," s = false.
Proof.
  unfold trim. induction s as [|c r IH]; [done|]. cbn [trimStart].
  pose proof (space_is_no_comma c) as Hc.
  destruct (is_space c) eqn:Es.
  - intros H. cbn [contains_char]. cbn [andb] in Hc. by rewrite Hc, IH.
  - apply trimEnd_empty_no_comma.
Qed.

Lemma append_empty (s : string) : (s ++ "")%string = s.
Proof.
  induction s as [|a s IH]; [done|].
  change (String a (s ++ "")%string = String a s). by rewrite IH.
Qed.

Lemma append_snoc (acc : string) (c : ascii) (r : string) :
  ((acc ++ String c EmptyString) ++ r)%string = (acc ++ String c r)%string.
Proof.
  induction acc as [|a acc IH]; [done|].
  change (String a ((acc ++ String c EmptyString) ++ r)%string
          = String a (acc ++ String c r)%string).
  by rewrite IH.
Qed.

Lemma split_commas_no_comma acc s :
  contains_char "," s = false → split_commas acc s = [(acc ++ s)%string].
Proof.
  revert acc. induction s as [|c r IH]; intros acc; simpl.
  - intros _. by rewrite append_empty.
  - destruct (Ascii.eqb c ","); [done|]. simpl. intros H.
    by rewrite IH, append_snoc.
Qed.

(** A blank answer holds no keyword. *)
Lemma parse_keywords_blank text :
  is_empty (trim text) = true → parse_keywords text = [].
Proof.
  intros H. unfold parse_keywords.
  rewrite (split_commas_no_comma "" text) by (by apply trim_empty_no_comma).
  change ("" ++ text)%string with text. cbn [map List.filter].
  by destruct (trim text).
Qed.

End BlankAnswer.

(** X24.  Answering the keyword prompt replaces the keyword set by the
    keywords parsed from the answer, each once and in the order of its
    first occurrence, so a blank answer empties the set; each keyword is
    non-empty, in lower case and free of parentheses.  Nothing else of
    the state changes.  The set is put in the store as it is, and
    loading it from the store gives the same set back, in the same
    order. *)
Theorem manageKeywords_stores_clean_set (text : string) (w : World) :
  let ks := set_from_array (parse_keywords text) in
  let w' := set_stored_keywords (Some ks) (set_state (set_keywords ks (state w)) w) in
  manageKeywords (Some text) w = (Normal tt, w')
  ∧ NoDup ks
  ∧ Forall clean_keyword ks
  ∧ (∀ k, k ∈ ks ↔ k ∈ parse_keywords text)
  ∧ (NoDup (parse_keywords text) → ks = parse_keywords text)
  ∧ (is_empty (trim text) = true → ks = [])
  ∧ keywords (state (exec loadKeywords w')) = ks.
Proof.
  intros ks w'.
  assert (NoDup ks) as Hnd by apply NoDup_set_from_array.
  assert (∀ k, k ∈ ks ↔ k ∈ parse_keywords text) as Hin
    by (intros k; apply elem_of_set_from_array).
  assert (Forall clean_keyword ks) as Hclean.
  { apply Forall_forall. intros k Hk%Hin.
    pose proof (parse_keywords_clean text) as H.
    rewrite Forall_forall in H. by apply H. }
  assert (is_empty (trim text) = true → ks = []) as Hblank.
  { intros H. unfold ks. by rewrite (parse_keywords_blank _ H). }
  split_and!; try done.
  - unfold manageKeywords, bind, modify_state, modify, saveKeywords.
    destruct (is_empty (trim text)) eqn:E; [|done].
    unfold w'. by rewrite (Hblank eq_refl).
  - apply set_from_array_NoDup.
  - unfold exec, loadKeywords, bind, gets, modify_state, modify. simpl.
    rewrite map_toLowerCase_id, set_from_array_NoDup; [done|done|].
    eapply Forall_impl; [exact Hclean|]. by intros k (_ & H & _).
Qed.

(* ===================================================================== *)
(** * Further properties: resetting everything *)
(* ===================================================================== *)

Section ResetFacts.

Local Open Scope list_scope.

Lemma stopHighlighter_run w :
  let w1 := set_state (set_features (Feat.set_highlighting false (features (state w)))
                         (state w)) w in
  stopHighlighter w
  = (Normal tt,
     set_heap
       (restyled (λ _ m, negb (hasClass "chat-marked" m)) (λ _, clear_border)
          (state w1) (querySelectorAll is_bordered_chat_txt w1) (heap w1)) w1).
Proof.
  intros w1.
  unfold stopHighlighter, modify_features, modify_state, bind, modify, gets. simpl.
  fold w1.
  change (for_of ?l _ w1)
    with (for_of l (restyle (λ _ m, negb (hasClass "chat-marked" m))
                      (λ _, clear_border)) w1).
  by rewrite for_of_restyle.
Qed.

Lemma stopMarkers_run w :
  let w2 := remove_elements is_marker_button
              (set_state (set_features (Feat.set_markers false (features (state w)))
                            (state w)) w) in
  stopMarkers w
  = (Normal tt,
     set_state (set_markedMessages [] (state w2))
       (set_heap
          (restyled (λ _ _, true) unmark (state w2)
             (querySelectorAll is_marked w2) (heap w2)) w2)).
Proof.
  intros w2.
  unfold stopMarkers, removeAllMarkerButtons, modify_features, modify_state,
    bind, modify, gets. simpl. fold w2.
  by rewrite (for_of_ext _ _ _ _ removeMarkerStyle_restyle), for_of_restyle.
Qed.

Lemma stopKeywordWatcher_run w :
  let w1 := set_state
              (set_keywordMatches []
                 (set_features (Feat.set_keywords false (features (state w)))
                    (state w))) w in
  stopKeywordWatcher w
  = (Normal tt,
     set_heap
       (restyled (λ _ _, true) (λ _, unhighlight) (state w1)
          (querySelectorAll is_keyword_match w1) (heap w1)) w1).
Proof.
  intros w1.
  unfold stopKeywordWatcher, removeKeywordHighlights, modify_features,
    modify_state, bind, modify, gets. simpl.
  change (for_of ?l _ ?w)
    with (for_of l (restyle (λ _ _, true) (λ _, unhighlight)) w).
  by rewrite for_of_restyle.
Qed.

(** With every feature off a batch changes nothing. *)
Lemma handleChatMutations_all_off mutations w :
  features (state w) = Feat.none →
  handleChatMutations mutations w = (Normal tt, w).
Proof.
  intros H. unfold handleChatMutations, bind, gets. simpl.
  destruct (length _ =? 0); [done|].
  set (messages := newMessages w mutations).
  assert (checkForMentions messages w = (Normal tt, w)) as H1
    by (unfold checkForMentions, bind, gets; simpl; by rewrite H).
  assert (highlightOwnMessages messages w = (Normal tt, w)) as H2
    by (unfold highlightOwnMessages, bind, gets; simpl; by rewrite H).
  assert (checkForSessionChange messages mutations w = (Normal tt, w)) as H3
    by (unfold checkForSessionChange, bind, gets; simpl; by rewrite H).
  assert (addMarkerButtons messages w = (Normal tt, w)) as H4
    by (unfold addMarkerButtons, bind, gets; simpl; by rewrite H).
  assert (checkForKeywords messages w = (Normal tt, w)) as H5
    by (unfold checkForKeywords, bind, gets; simpl; by rewrite H).
  unfold try_catch, process_features, bind.
  by rewrite H1, H2, H3, H4, H5.
Qed.

Lemma filter_nil_Forall {A} (f : A → bool) (l : list A) :
  List.filter f l = [] → ∀ x, List.In x l → f x = false.
Proof.
  intros H x Hx. destruct (f x) eqn:E; [|done].
  assert (List.In x (List.filter f l)) as Hin by (by apply List.filter_In).
  by rewrite H in Hin.
Qed.

Lemma node_of_remove_elements p w r :
  node_of (remove_elements p w) r
  = Nat.iter (occurrences r (concat (containers w))) (removeDescendants p)
      (node_of w r).
Proof.
  unfold node_of, remove_elements. simpl. rewrite foldr_alter_lookup.
  destruct (heap w !! r) as [m|]; simpl; [done|].
  induction (occurrences r _) as [|k IH]; [done|]. by rewrite Nat.iter_succ, <- IH.
Qed.

End ResetFacts.

(** X25.  Resetting switches every feature off, forgets the identity in
    the state and in the store, and empties the three history sets; no
    attached element is a divider or keeps a pin class or a keyword-match
    class.  It
    does not touch the keyword list, the recorded leading fingerprint
    or the observer, which stays subscribed; batches that arrive
    afterwards change nothing. *)
Theorem resetAll_outcome (w : World) :
  ∃ w',
    resetAll w = (Normal tt, w')
    ∧ features (state w') = Feat.none
    ∧ username (state w') = None
    ∧ stored_username w' = None
    ∧ seenMessages (state w') = []
    ∧ markedMessages (state w') = []
    ∧ keywordMatches (state w') = []
    ∧ keywords (state w') = keywords (state w)
    ∧ stored_keywords w' = stored_keywords w
    ∧ lastKnownMessage (state w') = lastKnownMessage (state w)
    ∧ observer (state w') = observer (state w)
    ∧ subscriptions w' = subscriptions w
    ∧ dividers w' = []
    ∧ querySelectorAll is_marked w' = []
    ∧ querySelectorAll is_keyword_match w' = []
    ∧ ∀ mutations, handleChatMutations mutations w' = (Normal tt, w').
Proof.
  unfold resetAll, bind.
  assert (stopMentionWatcher w
          = (Normal tt,
             set_state (set_seenMessages []
               (set_features (Feat.set_mentions false (features (state w)))
                  (state w))) w)) as -> by done.
  set (w1 := set_state _ w).
  rewrite stopHighlighter_run. cbv zeta.
  set (w2 := set_heap _ _).
  assert (stopSeparator w2
          = (Normal tt,
             remove_separators
               (set_state (set_features (Feat.set_separator false (features (state w2)))
                             (state w2)) w2))) as -> by done.
  set (w3 := remove_separators _).
  rewrite stopMarkers_run. cbv zeta.
  set (w4m := remove_elements is_marker_button _).
  set (w4 := set_state _ (set_heap _ w4m)).
  rewrite stopKeywordWatcher_run. cbv zeta.
  set (w5k := set_state _ w4).
  set (w5 := set_heap _ w5k).
  eexists. split; [done|].
  assert (features (state w5) = Feat.none) as Hf by done.
  split; [done|]. split; [done|]. split; [done|]. split; [done|].
  split; [done|]. split; [done|]. split; [done|]. split; [done|].
  split; [done|]. split; [done|]. split; [done|].
  split; [|split; [|split]].
  - apply querySelectorAll_nil. intros r Hr.
    change (is_separator (node_of w5 r) = false).
    change (List.In r (concat (containers w4m))) in Hr.
    apply elem_of_concat_filter in Hr as [Hr _].
    unfold w5. rewrite node_of_restyled by done.
    rewrite (iter_preserves _ is_separator).
    2:{ intros y. change (is_separator (unhighlight y) = is_separator y).
        unfold is_separator, unhighlight.
        by rewrite hasClass_removeDescendant, !hasClass_style_assign,
          hasClass_classList_remove_ne. }
    change (node_of w5k r) with (node_of (set_heap
              (restyled (λ _ _, true) unmark (state w4m)
                 (querySelectorAll is_marked w4m) (heap w4m)) w4m) r).
    rewrite node_of_restyled by done.
    rewrite (iter_preserves _ is_separator)
      by (intros y; by apply hasClass_unmark_ne).
    unfold w4m. rewrite node_of_remove_elements.
    rewrite (iter_preserves _ is_separator) by (by intros [|]).
    change (is_separator (node_of w3 r) = false).
    apply (filter_nil_Forall _ _ (stopSeparator_removes_dividers w2) r Hr).
  - apply querySelectorAll_nil. intros r Hr.
    change (is_marked (node_of w5 r) = false).
    unfold w5. rewrite node_of_restyled by done.
    rewrite (iter_preserves _ is_marked).
    + change (node_of w5k r) with (node_of (set_heap
               (restyled (λ _ _, true) unmark (state w4m)
                  (querySelectorAll is_marked w4m) (heap w4m)) w4m) r).
      by apply (unpinned_after_loop unmark w4m r); [apply is_marked_unmark|done|].
    + intros y. change (is_marked (unhighlight y) = is_marked y).
      unfold is_marked, unhighlight.
      by rewrite hasClass_removeDescendant, !hasClass_style_assign,
        hasClass_classList_remove_ne.
  - apply querySelectorAll_nil. intros r Hr.
    change (is_keyword_match (node_of w5 r) = false).
    apply (class_gone_after_loop is_keyword_match (λ _, unhighlight) w5k r);
      [intros _ m; apply is_keyword_match_unhighlight|done|done].
  - intros mutations. by apply handleChatMutations_all_off.
Qed.
